(** * Competitor-Hunter: the fetch / gate / extract pipeline

    A shallow embedding of
    - [competitor_hunter/infrastructure/llm/extractor.py]
      (token accounting, truncation, the extraction call and its errors),
    - [competitor_hunter/infrastructure/browser/crawler.py]
      (the scroll-revelation loop [_auto_scroll]),
    - [competitor_hunter/core/graph.py]
      (the two nodes, the continuation gate and the graph wiring),
    followed by the properties the specification states about them.

    Conventions.  A Python [str] is a list of Unicode code points, so that
    [len] and slicing count what Python counts.  External services (the
    tokenizer, the language model, the browser) are parameters: a Section
    variable or a field of a record of operations.  An operation that can
    raise returns a [result].  Logging is not modelled. *)

From Stdlib Require Import String Ascii.
From Stdlib Require Import ZArith List Lia Bool.
From Stdlib Require Import Floats.PrimFloat Floats.FloatOps Floats.SpecFloat.
From Stdlib Require Import Numbers.Cyclic.Int63.Uint63.
Import ListNotations.

Set Implicit Arguments.
Set Warnings "-register-all".
Local Open Scope Z_scope.

(* ===================================================================== *)
(** * Python values *)
(* ===================================================================== *)

Module Py.

(** A code point; a [str] is the sequence of its code points. *)
Definition char := N.
Definition str := list char.

(** An ASCII literal of the source as a [str]. *)
Fixpoint lit (s : string) : str :=
  match s with
  | EmptyString => []
  | String c s' => N_of_ascii c :: lit s'
  end.

(** The escape [\n]. *)
Definition nl : char := 10%N.

(** [len(s)] *)
Definition len (A : Type) (s : list A) : Z := Z.of_nat (List.length s).

(** How Python clamps one slice bound against a sequence of length [n]:
    a negative index counts from the end, and the result is held within
    [0 .. n]. *)
Definition clamp (n i : Z) : Z :=
  if i <? 0 then Z.max 0 (i + n) else Z.min i n.

(** [s[:stop]] *)
Definition slice_to (A : Type) (s : list A) (stop : Z) : list A :=
  firstn (Z.to_nat (clamp (len s) stop)) s.

(** [s[start:]] *)
Definition slice_from (A : Type) (s : list A) (start : Z) : list A :=
  skipn (Z.to_nat (clamp (len s) start)) s.

(** [s.startswith(p)] *)
Fixpoint startswith (s p : str) : bool :=
  match p, s with
  | [], _ => true
  | _ :: _, [] => false
  | c :: p', d :: s' => N.eqb c d && startswith s' p'
  end.

(** [needle in hay] on strings: [needle] occurs as a contiguous run. *)
Fixpoint contains (needle hay : str) : bool :=
  startswith hay needle ||
  match hay with
  | [] => false
  | _ :: hay' => contains needle hay'
  end.

(** [float(z)] for an int in the range of a machine word. *)
Definition float_of_int (z : Z) : float := PrimFloat.of_uint63 (Uint63.of_Z z).

(** [int(f)]: truncation towards zero; [None] where Python raises
    (infinities and NaN). *)
Definition int_of_float (f : float) : option Z :=
  match Prim2SF f with
  | S754_zero _ => Some 0
  | S754_finite s m e =>
      let v := Z.shiftl (Zpos m) e in Some (if s then - v else v)
  | S754_infinity _ | S754_nan => None
  end.

(** Exceptions.  Only the classes the program tells apart are named;
    every other subclass of [Exception] is [OtherException].  [str(e)] is
    [exc_message], [e.__cause__] (set by [raise ... from e]) is
    [exc_cause]. *)
Inductive exc_class :=
| ValidationError      (* pydantic.ValidationError *)
| ValueError
| OtherException       (* Exception and every class not listed *).

Inductive exc :=
| Exc (cls : exc_class) (message : str) (cause : option exc).

Definition exc_cls (e : exc) : exc_class := let 'Exc c _ _ := e in c.
Definition exc_message (e : exc) : str := let 'Exc _ m _ := e in m.
Definition exc_cause (e : exc) : option exc := let 'Exc _ _ c := e in c.

(** The outcome of a call: a value, or a raised exception. *)
Inductive result (A : Type) :=
| Ok (a : A)
| Raise (e : exc).
Arguments Raise {A} e.

End Py.

Import Py.

(* ===================================================================== *)
(** * core/models.py *)
(* ===================================================================== *)

Module Models.

Inductive BillingCycle := monthly | yearly | one_time | custom.

Record PricingTier := {
  name : str;
  price : str;
  currency : str;
  billing_cycle : BillingCycle
}.

(** [last_updated] is a [datetime]; a timestamp stands for it. *)
Record CompetitorProduct := {
  product_name : str;
  url : str;
  pricing_tiers : list PricingTier;
  core_features : list str;
  summary : str;
  last_updated : Z
}.

Record ScrapingResult := {
  raw_html : str;
  clean_text : str;
  screenshot_path : option str
}.

(** [result.url = source_url] on a product: the attribute assignment. *)
Definition set_url (p : CompetitorProduct) (u : str) : CompetitorProduct :=
  {| product_name := product_name p;
     url := u;
     pricing_tiers := pricing_tiers p;
     core_features := core_features p;
     summary := summary p;
     last_updated := last_updated p |}.

End Models.

Abbreviation CompetitorProduct := Models.CompetitorProduct.
Abbreviation ScrapingResult := Models.ScrapingResult.

(* ===================================================================== *)
(** * infrastructure/llm/extractor.py *)
(* ===================================================================== *)

Module Extractor.

Definition CHARS_PER_TOKEN : Z := 4.
Definition MAX_TOKENS : Z := 15000.
Definition TRUNCATE_CHARS : Z := MAX_TOKENS * CHARS_PER_TOKEN.

(** [int(TRUNCATE_CHARS * 0.4)], computed in binary64 as Python does. *)
Definition keep_chars_opt : option Z :=
  int_of_float (PrimFloat.mul (float_of_int TRUNCATE_CHARS) 0x1.999999999999ap-2%float).

Definition keep_chars : Z :=
  match keep_chars_opt with Some k => k | None => 0 end.

(** The text the f-string puts between header and footer. *)
Definition elision_marker : str := lit "[... content truncated ...]".
Definition elision_separator : str :=
  [nl; nl] ++ elision_marker ++ [nl; nl].

(** The chat messages handed to the model. *)
Inductive message :=
| SystemMessage (content : str)
| HumanMessage (content : str).

(** What the extractor does to the outside world, in order. *)
Inductive llm_event :=
| LLMInvoke (messages : list message).

Section WithServices.

(** [self.encoding.encode]: the tokenizer chosen at construction
    ([tiktoken.encoding_for_model], or [cl100k_base]). *)
Variable token : Type.
Variable encode : str -> list token.

(** [self.structured_llm.ainvoke]: the schema-bound model call.  It
    raises, or answers with a record, or answers [None]. *)
Variable ainvoke : list message -> result (option CompetitorProduct).

(** [str.lower]. *)
Variable lower : str -> str.

(** The fixed text of [_create_system_prompt], and the three fixed
    fragments of the user-message f-string around [source_url] and
    [processed_content]. *)
Variable system_prompt : str.
Variables user_head user_mid user_tail : str.

Definition _count_tokens (text : str) : Z := len (encode text).

Definition _truncate_content (markdown_content : str) : str :=
  let token_count := _count_tokens markdown_content in
  if token_count <=? MAX_TOKENS then markdown_content
  else
    let total_chars := len markdown_content in
    if total_chars <=? TRUNCATE_CHARS then
      slice_to markdown_content TRUNCATE_CHARS
    else
      let header := slice_to markdown_content keep_chars in
      let footer := slice_from markdown_content (- keep_chars) in
      header ++ elision_separator ++ footer.

Definition _create_system_prompt : str := system_prompt.

Definition user_message (source_url processed_content : str) : str :=
  user_head ++ source_url ++ user_mid ++ processed_content ++ user_tail.

(** ["api" in str(e).lower() or "openai" in str(e).lower()] *)
Definition mentions_api (e : exc) : bool :=
  contains (lit "api") (lower (exc_message e))
  || contains (lit "openai") (lower (exc_message e)).

(** The two [except] clauses of [extract_from_markdown], applied to the
    exception [e] raised in the [try] block. *)
Definition handle_extraction_error (source_url : str) (e : exc) : exc :=
  match exc_cls e with
  | ValidationError =>
      let error_msg :=
        lit "Pydantic validation error during extraction: " ++ exc_message e in
      Exc ValueError error_msg (Some e)
  | _ =>
      let error_msg :=
        lit "LLM extraction failed for URL " ++ source_url ++ lit ": "
        ++ exc_message e in
      if mentions_api e
      then Exc ValueError (lit "OpenAI API error: " ++ exc_message e) (Some e)
      else Exc OtherException error_msg (Some e)
  end.

(** The tokenizer may raise: [encode_error text] is the exception of
    [self.encoding.encode(text)], [None] where it returns [encode text]. *)
Variable encode_error : str -> option exc.

(** [_count_tokens] as a call. *)
Definition _count_tokens_call (text : str) : result Z :=
  match encode_error text with
  | Some e => Raise e
  | None => Ok (_count_tokens text)
  end.

(** [_truncate_content] as a call: the tokens are counted on the content
    and, where it is truncated, on the truncated text for the log
    line. *)
Definition _truncate_content_call (markdown_content : str) : result str :=
  match _count_tokens_call markdown_content with
  | Raise e => Raise e
  | Ok token_count =>
      if token_count <=? MAX_TOKENS then Ok markdown_content
      else
        let total_chars := len markdown_content in
        let truncated :=
          if total_chars <=? TRUNCATE_CHARS then
            slice_to markdown_content TRUNCATE_CHARS
          else
            let header := slice_to markdown_content keep_chars in
            let footer := slice_from markdown_content (- keep_chars) in
            header ++ elision_separator ++ footer in
        match _count_tokens_call truncated with
        | Raise e => Raise e
        | Ok _ => Ok truncated
        end
  end.

(** [result.url = source_url] on the answer [None]: the attribute
    error. *)
Definition none_has_no_url : exc :=
  Exc OtherException (lit "'NoneType' object has no attribute 'url'") None.

(** The [try] block of [extract_from_markdown]: the events it causes and
    its outcome. *)
Definition try_block (markdown_content source_url : str)
  : list llm_event * result CompetitorProduct :=
  match _truncate_content_call markdown_content with
  | Raise e => ([], Raise e)
  | Ok processed_content =>
      let messages :=
        [ SystemMessage _create_system_prompt;
          HumanMessage (user_message source_url processed_content) ] in
      ( [LLMInvoke messages],
        match ainvoke messages with
        | Raise e => Raise e
        | Ok None => Raise none_has_no_url
        | Ok (Some result) => Ok (Models.set_url result source_url)
        end )
  end.

(** [extract_from_markdown]: the events it causes and its outcome. *)
Definition extract_from_markdown (markdown_content source_url : str)
  : list llm_event * result CompetitorProduct :=
  let (events, outcome) := try_block markdown_content source_url in
  ( events,
    match outcome with
    | Ok result => Ok result
    | Raise e => Raise (handle_extraction_error source_url e)
    end ).

(** The messages of one call, as [extract_from_markdown] builds them. *)
Definition messages_of (markdown_content source_url : str) : list message :=
  [ SystemMessage _create_system_prompt;
    HumanMessage (user_message source_url (_truncate_content markdown_content)) ].

End WithServices.

End Extractor.

(* ===================================================================== *)
(** * infrastructure/browser/crawler.py *)
(* ===================================================================== *)

Module Crawler.

Inductive scroll_target :=
| Bottom   (* window.scrollTo(0, document.body.scrollHeight) *)
| Top      (* window.scrollTo(0, 0) *).

(** What [_auto_scroll] does to the page, in order; a height read is
    recorded with the value it returned. *)
Inductive page_action :=
| ReadScrollHeight (returned : Z)
| ScrollTo (target : scroll_target)
| Sleep (seconds : float).

Section WithPage.

(** The browser page: a state the three operations act on.  Reading the
    height may itself find the page changed, scrolling and the passing
    of time change it. *)
Variable Page : Type.
Variable scrollHeight : Page -> Z * Page.
Variable scrollTo : scroll_target -> Page -> Page.
Variable sleep : float -> Page -> Page.

(** A coroutine over the page: it threads the page and the log of what
    was done to it. *)
Definition Co (A : Type) : Type :=
  Page * list page_action -> A * (Page * list page_action).

Definition ret (A : Type) (a : A) : Co A := fun s => (a, s).

Definition bind (A B : Type) (m : Co A) (k : A -> Co B) : Co B :=
  fun s => let (a, s') := m s in k a s'.

Local Notation "x <- m ;; k" := (bind m (fun x => k))
  (at level 61, m at next level, right associativity).
Local Notation "m ;; k" := (bind m (fun _ => k))
  (at level 61, right associativity).

(** [await page.evaluate("document.body.scrollHeight")] *)
Definition evaluate_scrollHeight : Co Z :=
  fun s =>
    let (h, page') := scrollHeight (fst s) in
    (h, (page', snd s ++ [ReadScrollHeight h])).

Definition evaluate_scrollTo (t : scroll_target) : Co unit :=
  fun s => (tt, (scrollTo t (fst s), snd s ++ [ScrollTo t])).

Definition asyncio_sleep (seconds : float) : Co unit :=
  fun s => (tt, (sleep seconds (fst s), snd s ++ [Sleep seconds])).

Definition scroll_pause_time : float := 1%float.

(** The body of [for i in range(max_scrolls)] with [remaining] values of
    [i] still to come; the [break] leaves the loop. *)
Fixpoint scroll_loop (remaining : nat) : Co unit :=
  match remaining with
  | O => ret tt
  | S remaining' =>
      previous_height <- evaluate_scrollHeight ;;
      evaluate_scrollTo Bottom ;;
      asyncio_sleep scroll_pause_time ;;
      new_height <- evaluate_scrollHeight ;;
      if previous_height =? new_height then ret tt
      else scroll_loop remaining'
  end.

Definition _auto_scroll (max_scrolls : Z) : Co unit :=
  scroll_loop (Z.to_nat max_scrolls) ;;
  evaluate_scrollTo Top ;;
  asyncio_sleep 0.5%float.

(** [_auto_scroll(page)] as [fetch_page_content] calls it, with the
    default [max_scrolls=10]; the log of one call on a fresh log. *)
Definition auto_scroll_log (page : Page) : list page_action :=
  snd (snd (_auto_scroll 10 (page, []))).

End WithPage.

(** One scroll iteration that read [previous_height] and then
    [new_height]. *)
Definition iteration (heights : Z * Z) : list page_action :=
  [ ReadScrollHeight (fst heights); ScrollTo Bottom; Sleep 1%float;
    ReadScrollHeight (snd heights) ].

Definition stable (heights : Z * Z) : Prop := fst heights = snd heights.

Definition is_scroll_to_bottom (a : page_action) : bool :=
  match a with
  | ScrollTo Bottom => true
  | _ => false
  end.

(** How many times a log scrolls to the bottom: once per iteration. *)
Definition scrolls_to_bottom (log : list page_action) : nat :=
  length (filter is_scroll_to_bottom log).

End Crawler.

(* ===================================================================== *)
(** * core/graph.py *)
(* ===================================================================== *)

Module Graph.

(** [class AgentState(TypedDict)]: the four declared keys.  [state[k]]
    and [state.get(k)] read a field; an optional key that is absent reads
    as [None]. *)
Record AgentState := {
  url : str;
  scraped_content : option str;
  product : option CompetitorProduct;
  error : option str
}.

(** The calls a run makes on its services, in order. *)
Inductive event :=
| BrowserStart
| FetchPageContent (url : str)
| ExtractFromMarkdown (markdown_content source_url : str)
| ModelCall (e : Extractor.llm_event).

(** [Literal["extract", "end"]] *)
Inductive next_node := to_extract | to_end.

(** Truth value of an [Optional[str]]: [None] and the empty string are
    false. *)
Definition truthy (o : option str) : bool :=
  match o with
  | None => false
  | Some [] => false
  | Some (_ :: _) => true
  end.

Section WithServices.

(** [BrowserService.start] and [BrowserService.fetch_page_content], as
    [_get_browser_service()] returns them. *)
Variable start : result unit.
Variable fetch_page_content : str -> result ScrapingResult.

(** [CompetitorExtractor.extract_from_markdown], as [_get_extractor()]
    returns it. *)
Variable extract_from_markdown :
  str -> str -> list Extractor.llm_event * result CompetitorProduct.

Definition node_scrape (state : AgentState) : list event * AgentState :=
  let url_ := url state in
  let failed (e : exc) :=
    let error_msg :=
      lit "Failed to scrape URL " ++ url_ ++ lit ": " ++ exc_message e in
    {| url := url state;
       scraped_content := None;
       product := product state;
       error := Some error_msg |} in
  match start with
  | Raise e => ([BrowserStart], failed e)
  | Ok _ =>
      match fetch_page_content url_ with
      | Raise e => ([BrowserStart; FetchPageContent url_], failed e)
      | Ok result =>
          let scraped := Models.clean_text result in
          ( [BrowserStart; FetchPageContent url_],
            {| url := url state;
               scraped_content := Some scraped;
               product := product state;
               error := None |} )
      end
  end.

Definition node_extract (state : AgentState) : list event * AgentState :=
  let url_ := url state in
  if negb (truthy (scraped_content state)) then
    let error_msg := lit "Cannot extract: scraped_content is missing" in
    ( [],
      {| url := url state;
         scraped_content := scraped_content state;
         product := None;
         error := Some error_msg |} )
  else
    let content :=
      match scraped_content state with Some c => c | None => [] end in
    let (calls, outcome) := extract_from_markdown content url_ in
    let events := ExtractFromMarkdown content url_ :: map ModelCall calls in
    match outcome with
    | Ok product_ =>
        ( events,
          {| url := url state;
             scraped_content := scraped_content state;
             product := Some product_;
             error := None |} )
    | Raise e =>
        let error_msg :=
          lit "Failed to extract product information from " ++ url_
          ++ lit ": " ++ exc_message e in
        ( events,
          {| url := url state;
             scraped_content := scraped_content state;
             product := None;
             error := Some error_msg |} )
    end.

Definition should_continue (state : AgentState) : next_node :=
  if truthy (error state) then to_end else to_extract.

(** The compiled graph: [scrape], then the conditional edge
    [should_continue], then [extract] or [END]. *)
Definition graph_invoke (state : AgentState) : list event * AgentState :=
  let (events1, state1) := node_scrape state in
  match should_continue state1 with
  | to_end => (events1, state1)
  | to_extract =>
      let (events2, state2) := node_extract state1 in
      (events1 ++ events2, state2)
  end.

End WithServices.

(** The state a failed fetch leaves, for the exception [e]. *)
Definition scrape_failure (state : AgentState) (e : exc) : AgentState :=
  {| url := url state;
     scraped_content := None;
     product := product state;
     error := Some (lit "Failed to scrape URL " ++ url state ++ lit ": "
                    ++ exc_message e) |}.

(** The state a successful fetch leaves, for the rendering [text]. *)
Definition scrape_success (state : AgentState) (text : str) : AgentState :=
  {| url := url state;
     scraped_content := Some text;
     product := product state;
     error := None |}.

(** Whether an event is a call into the extraction service or the model. *)
Definition is_extraction (e : event) : bool :=
  match e with
  | ExtractFromMarkdown _ _ | ModelCall _ => true
  | BrowserStart | FetchPageContent _ => false
  end.

Definition extraction_calls (events : list event) : nat :=
  List.length (filter is_extraction events).

(** A field is set when it holds a value other than [None]. *)
Definition is_set (A : Type) (o : option A) : Prop := o <> None.

Definition exactly_one (P Q : Prop) : Prop := (P /\ ~ Q) \/ (~ P /\ Q).

End Graph.

(* ===================================================================== *)
(** * More of Python's [str] *)
(* ===================================================================== *)

Module PyStr.

(** The scan of [s.replace(old, new)] for a non-empty [old]: left to
    right, occurrences do not overlap.  [skip] counts the items of the
    occurrence just replaced that are still to be passed over. *)
Fixpoint replace_from (old new : str) (skip : nat) (s : str) : str :=
  match s with
  | [] => []
  | c :: s' =>
      match skip with
      | S k => replace_from old new k s'
      | O =>
          if startswith s old
          then new ++ replace_from old new (Nat.pred (length old)) s'
          else c :: replace_from old new O s'
      end
  end.

(** [s.replace(old, new)]; an empty [old] matches before every item and
    at the end. *)
Definition replace (s old new : str) : str :=
  match old with
  | [] => new ++ flat_map (fun c => c :: new) s
  | _ :: _ => replace_from old new O s
  end.

(** [s.endswith(suffix)] *)
Definition endswith (s suffix : str) : bool :=
  startswith (rev s) (rev suffix).

(** [a == b] on strings. *)
Fixpoint eqb (a b : str) : bool :=
  match a, b with
  | [], [] => true
  | c :: a', d :: b' => (c =? d)%N && eqb a' b'
  | _, _ => false
  end.

(** The code point of [/]. *)
Definition slash : char := 47%N.

(** The code point of the space. *)
Definition space : char := 32%N.

End PyStr.

(* ===================================================================== *)
(** * infrastructure/browser/crawler.py: the service *)
(* ===================================================================== *)

Module Browser.

Import PyStr.

(** A driver, a browser process, a browsing context or a page, as the
    browser library hands them out. *)
Definition handle := nat.

Definition USER_AGENTS : list str :=
  [ lit "Mozilla/5.0 (Windows NT 10.0; Win64; x64) AppleWebKit/537.36 (KHTML, like Gecko) Chrome/120.0.0.0 Safari/537.36";
    lit "Mozilla/5.0 (Macintosh; Intel Mac OS X 10_15_7) AppleWebKit/537.36 (KHTML, like Gecko) Chrome/120.0.0.0 Safari/537.36";
    lit "Mozilla/5.0 (Windows NT 10.0; Win64; x64) AppleWebKit/537.36 (KHTML, like Gecko) Chrome/119.0.0.0 Safari/537.36";
    lit "Mozilla/5.0 (Macintosh; Intel Mac OS X 10_15_7) AppleWebKit/605.1.15 (KHTML, like Gecko) Version/17.1 Safari/605.1.15";
    lit "Mozilla/5.0 (X11; Linux x86_64) AppleWebKit/537.36 (KHTML, like Gecko) Chrome/120.0.0.0 Safari/537.36";
    lit "Mozilla/5.0 (Windows NT 10.0; Win64; x64; rv:121.0) Gecko/20100101 Firefox/121.0";
    lit "Mozilla/5.0 (Macintosh; Intel Mac OS X 10.15; rv:121.0) Gecko/20100101 Firefox/121.0" ].

(** The fields of a [BrowserService] that its methods read and write. *)
Record BrowserService := {
  headless_mode : bool;          (* self.settings.headless_mode *)
  playwright : option handle;
  browser : option handle;
  context : option handle
}.

(** [BrowserService(settings)] *)
Definition new_service (headless : bool) : BrowserService :=
  {| headless_mode := headless;
     playwright := None;
     browser := None;
     context := None |}.

(** The calls the service makes on the outside world. *)
Inductive call :=
| CPlaywrightStart
| CChromiumLaunch (driver : handle) (headless : bool)
| CContextClose (ctx : handle)
| CBrowserClose (process : handle)
| CPlaywrightStop (driver : handle)
| CRandomChoice
| CNewContext (process : handle) (user_agent : str)
| CAddInitScript (ctx : handle)
| CNewPage (ctx : handle)
| CGoto (page : handle) (url : str) (timeout : Z)
| CScrollHeight (page : handle)
| CScrollTo (page : handle) (target : Crawler.scroll_target)
| CSleep (seconds : float)
| CContent (page : handle)
| CHtml2Text
| CMkdirLogs
| CNow
| CScreenshot (page : handle) (path : str)
| CPageClose (page : handle).

(** The outside world: what each call answers and how it changes the
    world [W].  [randbelow n] answers any number, of which the remainder
    by [n] is used; [is_timeout e] is
    [isinstance(e, PlaywrightTimeoutError)]. *)
Record Driver (W : Type) := {
  playwright_start : W -> result handle * W;
  chromium_launch : handle -> bool -> W -> result handle * W;
  context_close : handle -> W -> result unit * W;
  browser_close : handle -> W -> result unit * W;
  playwright_stop : handle -> W -> result unit * W;
  randbelow : nat -> W -> nat * W;
  new_context : handle -> str -> W -> result handle * W;
  add_init_script : handle -> W -> result unit * W;
  new_page : handle -> W -> result handle * W;
  goto : handle -> str -> Z -> W -> result unit * W;
  evaluate_scrollHeight : handle -> W -> result Z * W;
  evaluate_scrollTo : handle -> Crawler.scroll_target -> W -> result unit * W;
  sleep : float -> W -> W;
  content : handle -> W -> result str * W;
  html2text_handle : str -> result str;
  mkdir_logs : W -> result unit * W;
  now_strftime : W -> str * W;
  screenshot : handle -> str -> W -> result unit * W;
  page_close : handle -> W -> result unit * W;
  page_is_closed : handle -> W -> bool;
  is_timeout : exc -> bool
}.

(** [url.replace('https://', '').replace('http://', '').replace('/', '_')[:50]] *)
Definition safe_url (url : str) : str :=
  slice_to
    (replace (replace (replace url (lit "https://") []) (lit "http://") [])
       (lit "/") (lit "_"))
    50.

(** [str(logs_dir / f"{prefix}{safe_url}_{timestamp}.png")] with
    [logs_dir = Path("logs")]. *)
Definition screenshot_file (prefix url timestamp : str) : str :=
  lit "logs/" ++ prefix ++ safe_url url ++ lit "_" ++ timestamp ++ lit ".png".

Definition is_ok (A : Type) (r : result A) : bool :=
  match r with
  | Ok _ => true
  | Raise _ => false
  end.

Section WithDriver.

Variable W : Type.
Variable drv : Driver W.

(** What a method runs on: the service object, the local variable [page]
    of [fetch_page_content], the world, and the log of calls made, each
    with whether it returned. *)
Record St := {
  this : BrowserService;
  page_var : option handle;
  world : W;
  log : list (call * bool)
}.

(** A coroutine that may raise; what it did before raising stays done. *)
Definition Eff (A : Type) : Type := St -> result A * St.

Definition ret (A : Type) (a : A) : Eff A := fun s => (Ok a, s).

Definition raise (A : Type) (e : exc) : Eff A := fun s => (Raise e, s).
Arguments raise {A} e.

Definition bind (A B : Type) (m : Eff A) (k : A -> Eff B) : Eff B :=
  fun s =>
    match m s with
    | (Ok a, s') => k a s'
    | (Raise e, s') => (Raise e, s')
    end.

(** [try: m  except Exception as e: h e] *)
Definition try_except (A : Type) (m : Eff A) (h : exc -> Eff A) : Eff A :=
  fun s =>
    match m s with
    | (Ok a, s') => (Ok a, s')
    | (Raise e, s') => h e s'
    end.

(** [try: m  finally: f] *)
Definition try_finally (A : Type) (m : Eff A) (f : Eff unit) : Eff A :=
  fun s =>
    let (r, s') := m s in
    match f s' with
    | (Ok _, s'') => (r, s'')
    | (Raise e, s'') => (Raise e, s'')
    end.

Local Notation "x <- m ;; k" := (bind m (fun x => k))
  (at level 61, m at next level, right associativity).
Local Notation "m ;; k" := (bind m (fun _ => k))
  (at level 61, right associativity).

(** A call that may raise. *)
Definition perform (A : Type) (c : call) (op : W -> result A * W) : Eff A :=
  fun s =>
    let (r, w) := op (world s) in
    (r, {| this := this s; page_var := page_var s; world := w;
           log := log s ++ [(c, is_ok r)] |}).

(** A call that always returns. *)
Definition perform_total (A : Type) (c : call) (op : W -> A * W) : Eff A :=
  perform c (fun w => let (a, w') := op w in (Ok a, w')).

(** Reading [self] and the local [page]. *)
Definition self (A : Type) (k : BrowserService -> Eff A) : Eff A :=
  fun s => k (this s) s.

Definition local_page (A : Type) (k : option handle -> Eff A) : Eff A :=
  fun s => k (page_var s) s.

Definition update (f : BrowserService -> BrowserService) : Eff unit :=
  fun s =>
    (Ok tt, {| this := f (this s); page_var := page_var s;
               world := world s; log := log s |}).

Definition set_playwright (v : option handle) : Eff unit :=
  update (fun b => {| headless_mode := headless_mode b; playwright := v;
                      browser := browser b; context := context b |}).

Definition set_browser (v : option handle) : Eff unit :=
  update (fun b => {| headless_mode := headless_mode b;
                      playwright := playwright b;
                      browser := v; context := context b |}).

Definition set_context (v : option handle) : Eff unit :=
  update (fun b => {| headless_mode := headless_mode b;
                      playwright := playwright b;
                      browser := browser b; context := v |}).

Definition set_page (v : option handle) : Eff unit :=
  fun s =>
    (Ok tt, {| this := this s; page_var := v; world := world s;
               log := log s |}).

Definition start : Eff unit :=
  self (fun b =>
    match playwright b with
    | Some _ => ret tt
    | None =>
        driver <- perform CPlaywrightStart (playwright_start drv) ;;
        set_playwright (Some driver) ;;
        process <- perform (CChromiumLaunch driver (headless_mode b))
                     (chromium_launch drv driver (headless_mode b)) ;;
        set_browser (Some process)
    end).

Definition close : Eff unit :=
  self (fun b =>
    match context b with
    | Some c => perform (CContextClose c) (context_close drv c) ;;
                set_context None
    | None => ret tt
    end) ;;
  self (fun b =>
    match browser b with
    | Some p => perform (CBrowserClose p) (browser_close drv p) ;;
                set_browser None
    | None => ret tt
    end) ;;
  self (fun b =>
    match playwright b with
    | Some d => perform (CPlaywrightStop d) (playwright_stop drv d) ;;
                set_playwright None
    | None => ret tt
    end).

(** [random.choice(USER_AGENTS)] *)
Definition _get_random_user_agent : Eff str :=
  i <- perform_total CRandomChoice (randbelow drv (length USER_AGENTS)) ;;
  ret (nth (i mod length USER_AGENTS) USER_AGENTS []).

(** [self.browser.new_context] on [None]: the attribute error. *)
Definition none_has_no_new_context : exc :=
  Exc OtherException
    (lit "'NoneType' object has no attribute 'new_context'") None.

Definition _create_context : Eff handle :=
  self (fun b =>
    match browser b with
    | None => start
    | Some _ => ret tt
    end) ;;
  user_agent <- _get_random_user_agent ;;
  self (fun b =>
    match browser b with
    | None => raise none_has_no_new_context
    | Some process =>
        ctx <- perform (CNewContext process user_agent)
                 (new_context drv process user_agent) ;;
        perform (CAddInitScript ctx) (add_init_script drv ctx) ;;
        ret ctx
    end).

Definition asyncio_sleep (seconds : float) : Eff unit :=
  perform_total (CSleep seconds) (fun w => (tt, sleep drv seconds w)).

(** The scroll loop as the service runs it: a height read or a scroll
    that raises ends it. *)
Fixpoint scroll_loop (page : handle) (remaining : nat) : Eff unit :=
  match remaining with
  | O => ret tt
  | S remaining' =>
      previous_height <-
        perform (CScrollHeight page) (evaluate_scrollHeight drv page) ;;
      perform (CScrollTo page Crawler.Bottom)
        (evaluate_scrollTo drv page Crawler.Bottom) ;;
      asyncio_sleep 1 ;;
      new_height <-
        perform (CScrollHeight page) (evaluate_scrollHeight drv page) ;;
      if previous_height =? new_height then ret tt
      else scroll_loop page remaining'
  end.

Definition _auto_scroll (page : handle) (max_scrolls : Z) : Eff unit :=
  scroll_loop page (Z.to_nat max_scrolls) ;;
  perform (CScrollTo page Crawler.Top)
    (evaluate_scrollTo drv page Crawler.Top) ;;
  asyncio_sleep 0.5.

Definition _save_error_screenshot (page : handle) (url : str)
  : Eff (option str) :=
  try_except
    ( perform CMkdirLogs (mkdir_logs drv) ;;
      timestamp <- perform_total CNow (now_strftime drv) ;;
      let screenshot_path := screenshot_file (lit "error_") url timestamp in
      perform (CScreenshot page screenshot_path)
        (screenshot drv page screenshot_path) ;;
      ret (Some screenshot_path) )
    (fun _ => ret None).

(** The exception [fetch_page_content] raises for the failure [e]. *)
Definition fetch_error (url : str) (e : exc) : exc :=
  let error_msg :=
    if is_timeout drv e
    then lit "Timeout while fetching " ++ url ++ lit ": " ++ exc_message e
    else lit "Error fetching content from " ++ url ++ lit ": " ++ exc_message e in
  Exc OtherException error_msg (Some e).

(** The [try] block of [fetch_page_content]. *)
Definition fetch_body (url : str) (timeout : Z) : Eff ScrapingResult :=
  ctx <- _create_context ;;
  set_context (Some ctx) ;;
  page <- perform (CNewPage ctx) (new_page drv ctx) ;;
  set_page (Some page) ;;
  perform (CGoto page url timeout) (goto drv page url timeout) ;;
  _auto_scroll page 10 ;;
  asyncio_sleep 2 ;;
  raw_html <- perform (CContent page) (content drv page) ;;
  clean_text <- perform CHtml2Text (fun w => (html2text_handle drv raw_html, w)) ;;
  perform CMkdirLogs (mkdir_logs drv) ;;
  timestamp <- perform_total CNow (now_strftime drv) ;;
  let path := screenshot_file (lit "success_") url timestamp in
  screenshot_path <-
    try_except
      ( perform (CScreenshot page path) (screenshot drv page path) ;;
        ret (Some path) )
      (fun _ => ret None) ;;
  perform (CPageClose page) (page_close drv page) ;;
  ret {| Models.raw_html := raw_html;
         Models.clean_text := clean_text;
         Models.screenshot_path := screenshot_path |}.

(** The two [except] clauses: they differ in the message only. *)
Definition fetch_handler (url : str) (e : exc) : Eff ScrapingResult :=
  local_page (fun page =>
    match page with
    | Some p => _save_error_screenshot p url ;; ret tt
    | None => ret tt
    end) ;;
  raise (fetch_error url e).

(** The [finally] clause. *)
Definition fetch_cleanup : Eff unit :=
  local_page (fun page =>
    match page with
    | Some p =>
        fun s =>
          if negb (page_is_closed drv p (world s))
          then try_except (perform (CPageClose p) (page_close drv p))
                 (fun _ => ret tt) s
          else ret tt s
    | None => ret tt
    end).

Definition fetch_page_content (url : str) (timeout : Z) : Eff ScrapingResult :=
  set_page None ;;
  try_finally
    (try_except (fetch_body url timeout) (fetch_handler url))
    fetch_cleanup.

(** A method called on a service in a world, with an empty log. *)
Definition call_on (A : Type) (m : Eff A) (b : BrowserService) (w : W)
  : result A * St :=
  m {| this := b; page_var := None; world := w; log := [] |}.

End WithDriver.

Arguments raise {W A} e.

(** The calls of a log, without their outcomes. *)
Definition calls_of (l : list (call * bool)) : list call := map fst l.

Definition is_scroll_bottom (c : call) : bool :=
  match c with
  | CScrollTo _ Crawler.Bottom => true
  | _ => false
  end.

Definition is_context_close (c : call) : bool :=
  match c with
  | CContextClose _ => true
  | _ => false
  end.

Definition not_context_close (c : call) : bool := negb (is_context_close c).

Definition any_call (c : call) : bool := true.

(** The calls of [start] and [_create_context]. *)
Definition is_setup_call (c : call) : bool :=
  match c with
  | CPlaywrightStart | CChromiumLaunch _ _ | CRandomChoice
  | CNewContext _ _ | CAddInitScript _ => true
  | _ => false
  end.

(** The calls of [_auto_scroll]. *)
Definition is_scroll_call (c : call) : bool :=
  match c with
  | CScrollHeight _ | CScrollTo _ _ | CSleep _ => true
  | _ => false
  end.

(** The calls of [_save_error_screenshot]. *)
Definition is_diagnostic_call (c : call) : bool :=
  match c with
  | CMkdirLogs | CNow | CScreenshot _ _ => true
  | _ => false
  end.

Definition is_page_close (c : call) : bool :=
  match c with
  | CPageClose _ => true
  | _ => false
  end.

(** How many entries of a log scroll to the bottom. *)
Definition bottom_scrolls (l : list (call * bool)) : nat :=
  length (filter is_scroll_bottom (calls_of l)).

(** What [close] has to tear down on a service, in its order. *)
Definition teardown_calls (b : BrowserService) : list call :=
  match context b with Some c => [CContextClose c] | None => [] end
  ++ match browser b with Some p => [CBrowserClose p] | None => [] end
  ++ match playwright b with Some d => [CPlaywrightStop d] | None => [] end.

Section Judgements.

Variable W : Type.

(** Every call [m] logs is of kind [K], and at most [n] of them scroll
    to the bottom. *)
Definition footprint (K : call -> bool) (n : nat) (A : Type) (m : Eff W A)
  : Prop :=
  forall s, exists l,
    log (snd (m s)) = log s ++ l
    /\ forallb K (calls_of l) = true
    /\ (bottom_scrolls l <= n)%nat.

(** [m] leaves the local variable [page] as it is. *)
Definition keeps_page (A : Type) (m : Eff W A) : Prop :=
  forall s, page_var (snd (m s)) = page_var s.

(** The state in which the [try] block of [fetch_page_content] starts. *)
Definition entered (s : St W) : St W :=
  {| this := this s; page_var := None; world := world s; log := log s |}.

End Judgements.

End Browser.

(* ===================================================================== *)
(** * core/graph.py: the services behind the nodes *)
(* ===================================================================== *)

Module Wiring.

Import Browser.

Section WithDriver.

Variable W : Type.
Variable drv : Driver W.

(** [_settings.headless_mode] *)
Variable headless : bool.

(** [_get_browser_service()] on the module variable [_browser_service]:
    the service to use, and the variable afterwards. *)
Definition _get_browser_service (global : option BrowserService)
  : BrowserService * option BrowserService :=
  match global with
  | Some b => (b, global)
  | None => (new_service headless, Some (new_service headless))
  end.

(** [cleanup_resources()]: the module variable and the world afterwards,
    and the calls made.  A failure of [close] is passed over. *)
Definition cleanup_resources (global : option BrowserService) (w : W)
  : option BrowserService * W * list (call * bool) :=
  match global with
  | None => (None, w, [])
  | Some b =>
      let (r, s) := call_on (close drv) b w in
      match r with
      | Ok _ => (None, world s, log s)
      | Raise _ => (Some (this s), world s, log s)
      end
  end.

(** What [node_scrape] gets from the service in the world [w]: the
    outcome of [start()], and of [fetch_page_content(url)] after it, with
    the default timeout. *)
Definition scrape_services (global : option BrowserService) (w : W)
  : result unit * (str -> result ScrapingResult) :=
  let started := call_on (start drv) (fst (_get_browser_service global)) w in
  (fst started,
   fun url => fst (fetch_page_content drv url 30000 (snd started))).

Definition node_scrape (global : option BrowserService) (w : W)
    (state : Graph.AgentState) : list Graph.event * Graph.AgentState :=
  Graph.node_scrape (fst (scrape_services global w))
    (snd (scrape_services global w)) state.

End WithDriver.

Section WithExtractor.

(** The services of [CompetitorExtractor], as [_get_extractor()] binds
    them. *)
Variable token : Type.
Variable encode : str -> list token.
Variable ainvoke : list Extractor.message -> result (option CompetitorProduct).
Variable lower : str -> str.
Variable system_prompt : str.
Variables user_head user_mid user_tail : str.
Variable encode_error : str -> option exc.

(** [_get_extractor()] in this run: the exception it raises, if any.  The
    first call constructs the extractor, which loads the tokenizer and
    builds the client. *)
Variable extractor_error : option exc.

(** [BrowserService.start] and [fetch_page_content], as in [Graph]. *)
Variable start : result unit.
Variable fetch_page_content : str -> result ScrapingResult.

(** [node_extract] with the extractor of this repository: its [try]
    block begins with [_get_extractor()]. *)
Definition node_extract (state : Graph.AgentState)
  : list Graph.event * Graph.AgentState :=
  let url_ := Graph.url state in
  if negb (Graph.truthy (Graph.scraped_content state)) then
    let error_msg := lit "Cannot extract: scraped_content is missing" in
    ( [],
      {| Graph.url := Graph.url state;
         Graph.scraped_content := Graph.scraped_content state;
         Graph.product := None;
         Graph.error := Some error_msg |} )
  else
    let content :=
      match Graph.scraped_content state with Some c => c | None => [] end in
    let failed (e : exc) :=
      let error_msg :=
        lit "Failed to extract product information from " ++ url_
        ++ lit ": " ++ exc_message e in
      {| Graph.url := Graph.url state;
         Graph.scraped_content := Graph.scraped_content state;
         Graph.product := None;
         Graph.error := Some error_msg |} in
    match extractor_error with
    | Some e => ([], failed e)
    | None =>
        let (calls, outcome) :=
          Extractor.extract_from_markdown encode ainvoke lower system_prompt
            user_head user_mid user_tail encode_error content url_ in
        let events :=
          Graph.ExtractFromMarkdown content url_ :: map Graph.ModelCall calls in
        match outcome with
        | Ok product_ =>
            ( events,
              {| Graph.url := Graph.url state;
                 Graph.scraped_content := Graph.scraped_content state;
                 Graph.product := Some product_;
                 Graph.error := None |} )
        | Raise e => (events, failed e)
        end
    end.

(** The compiled graph with that node behind [extract]. *)
Definition graph_ainvoke (state : Graph.AgentState)
  : list Graph.event * Graph.AgentState :=
  let (events1, state1) := Graph.node_scrape start fetch_page_content state in
  match Graph.should_continue state1 with
  | Graph.to_end => (events1, state1)
  | Graph.to_extract =>
      let (events2, state2) := node_extract state1 in
      (events1 ++ events2, state2)
  end.

(** [_get_extractor()] and [extract_from_markdown] as one service of
    [Graph.node_extract]. *)
Definition extract_service (markdown_content source_url : str)
  : list Extractor.llm_event * result CompetitorProduct :=
  match extractor_error with
  | Some e => ([], Raise e)
  | None =>
      Extractor.extract_from_markdown encode ainvoke lower system_prompt
        user_head user_mid user_tail encode_error markdown_content source_url
  end.

End WithExtractor.

(** The state every caller starts a run from. *)
Definition initial_state (url : str) : Graph.AgentState :=
  {| Graph.url := url;
     Graph.scraped_content := None;
     Graph.product := None;
     Graph.error := None |}.

Definition is_model_call (e : Graph.event) : bool :=
  match e with
  | Graph.ModelCall _ => true
  | _ => false
  end.

Definition model_calls (events : list Graph.event) : nat :=
  length (filter is_model_call events).

End Wiring.

(* ===================================================================== *)
(** * interface/mcp_server/server.py *)
(* ===================================================================== *)

Module Server.

(** The double quote, for the JSON literals. *)
Definition quote : char := 34%N.

Definition quoted (s : string) : str := [quote] ++ lit s ++ [quote].

(** ['{"status": "no_data", "message": "No data found"}'] *)
Definition NO_DATA : str :=
  lit "{" ++ quoted "status" ++ lit ": " ++ quoted "no_data" ++ lit ", "
  ++ quoted "message" ++ lit ": " ++ quoted "No data found" ++ lit "}".

(** What [analyze_competitor] raises: a [RuntimeError] of its own, a
    [RuntimeError] raised below it and passed on as it is, or what the
    log call of its second [except] clause raised. *)
Inductive failure :=
| RuntimeError (message : str) (cause : option exc)
| Passed (e : exc)
| Escaped (e : exc).

(** Whether a text has a brace in it, the only characters [str.format]
    does not copy. *)
Definition has_brace (text : str) : bool :=
  existsb (fun c => (c =? 123)%N || (c =? 125)%N) text.

Section WithWorkflow.

(** [graph.ainvoke]. *)
Variable ainvoke : Graph.AgentState -> result Graph.AgentState.

(** [isinstance(e, RuntimeError)]. *)
Variable is_runtime_error : exc -> bool.

(** [json.dumps(json.loads(product.model_dump_json(indent=2,
    exclude_none=True)), indent=2, ensure_ascii=False)]. *)
Variable dump : CompetitorProduct -> result str.

(** [message.format(exc_info=True)] on a message with a brace: the
    exception it raises, if any. *)
Variable format_error : str -> option exc.

(** [logger.error(error_msg, exc_info=True)]: given a keyword, the logger
    formats the message with it; a message without a brace is copied. *)
Definition logger_error (error_msg : str) : option exc :=
  if has_brace error_msg then format_error error_msg else None.

(** The second [except] clause. *)
Definition unexpected (url : str) (e : exc) : failure :=
  if is_runtime_error e then Passed e
  else
    let error_msg :=
      lit "Unexpected error during analysis of " ++ url ++ lit ": "
      ++ exc_message e in
    match logger_error error_msg with
    | Some raised => Escaped raised
    | None => RuntimeError error_msg (Some e)
    end.

Definition analyze_competitor (url : str) : failure + str :=
  match ainvoke (Wiring.initial_state url) with
  | Raise e => inl (unexpected url e)
  | Ok result =>
      if Graph.truthy (Graph.error result) then
        let error_msg :=
          lit "Workflow error: "
          ++ match Graph.error result with Some m => m | None => [] end in
        inl (RuntimeError error_msg None)
      else
        match Graph.product result with
        | None => inr NO_DATA
        | Some product =>
            match dump product with
            | Ok json_result => inr json_result
            | Raise e => inl (unexpected url e)
            end
        end
  end.

(** [json.dumps({"status": "error", "error": text})], as it is, and with
    [indent=2, ensure_ascii=False]. *)
Variable dumps : str -> str.
Variable dumps_pretty : str -> str.

(** [str(e)] of a failure of the tool. *)
Definition failure_text (f : failure) : str :=
  match f with
  | RuntimeError message _ => message
  | Passed e => exc_message e
  | Escaped e => exc_message e
  end.

(** Whether [except RuntimeError] catches a failure of the tool. *)
Definition caught (f : failure) : bool :=
  match f with
  | RuntimeError _ _ => true
  | Passed e => is_runtime_error e
  | Escaped e => is_runtime_error e
  end.

(** The tool as registered with FastMCP. *)
Definition analyze_competitor_tool (url : str) : failure + str :=
  match analyze_competitor url with
  | inr result => inr result
  | inl f => if caught f then inr (dumps_pretty (failure_text f)) else inl f
  end.

(** The handler of the standard server: the texts of the [TextContent]
    items it returns.  [url_argument] is [arguments.get("url")], [None]
    where the key is absent. *)
Definition call_tool (name : str) (url_argument : option str)
  : failure + list str :=
  if PyStr.eqb name (lit "analyze_competitor") then
    let url := match url_argument with Some u => u | None => [] end in
    if negb (Graph.truthy (Some url)) then inr [dumps (lit "URL is required")]
    else
      match analyze_competitor url with
      | inr result => inr [result]
      | inl f => if caught f then inr [dumps_pretty (failure_text f)] else inl f
      end
  else inr [dumps (lit "Unknown tool: " ++ name)].

End WithWorkflow.

End Server.

(* ===================================================================== *)
(** * cli.py *)
(* ===================================================================== *)

Module Cli.

Import PyStr.

(** [product.product_name.replace(" ", "_").replace("/", "_")] *)
Definition safe_name (product_name : str) : str :=
  replace (replace product_name (lit " ") (lit "_")) (lit "/") (lit "_").

(** What [_main_async] makes of [sys.argv]: [None] where it prints the
    usage and exits, else the URLs and the output file. *)
Definition parse_args (argv : list str) : option (list str * option str) :=
  if (length argv <? 2)%nat then None
  else
    let urls := tl argv in
    if (1 <? length urls)%nat && endswith (last urls []) (lit ".json")
    then Some (removelast urls, Some (last urls []))
    else Some (urls, None).

Section WithFiles.

(** [Path(p).is_absolute()] and [Path(p).name]. *)
Variable is_absolute : str -> bool.
Variable path_name : str -> str.

(** Where [analyze_competitor] saves a product. *)
Definition save_path (output_file : option str) (p : CompetitorProduct) : str :=
  match output_file with
  | Some f =>
      if negb (Graph.truthy (Some f)) then
        lit "reports/product_" ++ safe_name (Models.product_name p) ++ lit ".json"
      else if negb (is_absolute f) then lit "reports/" ++ path_name f
      else f
  | None =>
      lit "reports/product_" ++ safe_name (Models.product_name p) ++ lit ".json"
  end.

(** The outside world [W], in which [graph.ainvoke] runs and a report is
    written: [mkdir], serialising, [open] and [json.dump] together. *)
Variable W : Type.
Variable ainvoke : Graph.AgentState -> W -> result Graph.AgentState * W.
Variable write_report : str -> CompetitorProduct -> W -> result unit * W.

(** [print] on standard output, one call or several in a row; and the
    report of the [except] clause, [print] on standard error and
    [traceback.print_exc()].  Each may raise. *)
Variable print_out : W -> result unit * W.
Variable print_err : W -> result unit * W.

Inductive event :=
| Analyzed (url : str)
| Wrote (path : str) (ok : bool)
| CleanedUp.

(** A coroutine of the command line: what it did, its outcome, and the
    world it leaves.  What it did before raising stays done. *)
Definition Run (A : Type) : Type := W -> list event * result A * W.

Definition ret (A : Type) (a : A) : Run A := fun w => ([], Ok a, w).

Definition bind (A B : Type) (m : Run A) (k : A -> Run B) : Run B :=
  fun w =>
    match m w with
    | (events1, Ok a, w1) =>
        let '(events2, r, w2) := k a w1 in (events1 ++ events2, r, w2)
    | (events1, Raise e, w1) => (events1, Raise e, w1)
    end.

(** [try: m  except Exception: h] *)
Definition try_except (A : Type) (m : Run A) (h : Run A) : Run A :=
  fun w =>
    match m w with
    | (events1, Ok a, w1) => (events1, Ok a, w1)
    | (events1, Raise _, w1) =>
        let '(events2, r, w2) := h w1 in (events1 ++ events2, r, w2)
    end.

(** [try: m  finally: f] *)
Definition try_finally (A : Type) (m : Run A) (f : Run unit) : Run A :=
  fun w =>
    let '(events1, r, w1) := m w in
    match f w1 with
    | (events2, Ok _, w2) => (events1 ++ events2, r, w2)
    | (events2, Raise e, w2) => (events1 ++ events2, Raise e, w2)
    end.

Definition call (A : Type) (op : W -> result A * W) : Run A :=
  fun w => let (r, w1) := op w in ([], r, w1).

Definition emit (e : event) : Run unit := fun w => ([e], Ok tt, w).

Local Notation "x <- m ;; k" := (bind m (fun x => k))
  (at level 61, m at next level, right associativity).
Local Notation "m ;; k" := (bind m (fun _ => k))
  (at level 61, right associativity).

(** Lines 77 to 93: the report is written to its path. *)
Definition save_report (path : str) (product : CompetitorProduct) : Run unit :=
  fun w =>
    let (r, w1) := write_report path product w in
    ([Wrote path match r with Ok _ => true | Raise _ => false end], r, w1).

(** [analyze_competitor(url, output_file)]: the first [print] is before
    the [try]; an exception inside the [try] ends in the report of the
    [except] clause and [return None]. *)
Definition analyze_competitor (url : str) (output_file : option str)
  : Run (option CompetitorProduct) :=
  call print_out ;;
  try_except
    ( emit (Analyzed url) ;;
      result <- call (ainvoke (Wiring.initial_state url)) ;;
      if Graph.truthy (Graph.error result) then
        call print_out ;; ret None
      else
        match Graph.product result with
        | None => call print_out ;; ret None
        | Some product =>
            call print_out ;;
            save_report (save_path output_file product) product ;;
            call print_out ;;
            ret (Some product)
        end )
    ( call print_err ;; ret None ).

(** The loop of [_main_async] over the URLs; [separate] is
    [len(urls) > 1]. *)
Fixpoint analyze_all (separate : bool) (urls : list str)
    (output_file : option str) : Run (list CompetitorProduct) :=
  match urls with
  | [] => ret []
  | url :: rest =>
      product <- analyze_competitor url output_file ;;
      (if separate then call print_out else ret tt) ;;
      results <- analyze_all separate rest output_file ;;
      ret (match product with Some p => p :: results | None => results end)
  end.

(** [_main_async]: [None] where it stops at the usage message, before
    the [try]; else the run of its [try] and [finally].
    [cleanup_resources()] does not raise. *)
Definition _main_async (argv : list str) (w : W)
  : option (list event * result (list CompetitorProduct) * W) :=
  match parse_args argv with
  | None => None
  | Some (urls, output_file) =>
      Some (try_finally
              ( results <-
                  analyze_all (1 <? length urls)%nat urls output_file ;;
                (if (1 <? length results)%nat then call print_out
                 else ret tt) ;;
                ret results )
              (emit CleanedUp) w)
  end.

End WithFiles.

Definition written_paths (events : list event) : list str :=
  flat_map (fun e => match e with Wrote path _ => [path] | _ => [] end) events.

Definition analyzed_urls (events : list event) : list str :=
  flat_map (fun e => match e with Analyzed url => [url] | _ => [] end) events.

End Cli.

(* ===================================================================== *)
(** * Sample services and inputs *)
(* ===================================================================== *)

Module Samples.

(** A tokenizer with one token per code point. *)
Definition char_tokens (text : str) : list char := text.

(** A tokenizer that spends two tokens on every code point, as byte-pair
    tokenizers commonly do on CJK text. *)
Definition two_tokens_per_char (text : str) : list char :=
  flat_map (fun c => [c; c]) text.

(** [str.lower] on ASCII letters; other code points are kept. *)
Definition ascii_lower (s : str) : str :=
  map (fun c => if (65 <=? c)%N && (c <=? 90)%N then (c + 32)%N else c) s.

Definition short_text : str := lit "# Test Product".

(** 60,001 code points: a head of [H], a middle of [M], a tail of [T]. *)
Definition long_text : str :=
  repeat 72%N (Z.to_nat 24000) ++ repeat 77%N (Z.to_nat 12001)
  ++ repeat 84%N (Z.to_nat 24000).

(** 8,000 code points [U+4E2D]. *)
Definition dense_text : str := repeat 20013%N (Z.to_nat 8000).

Definition example_url : str := lit "https://example.com".

(** A model that answers with a relative URL of its own. *)
Definition echo_product : CompetitorProduct :=
  {| Models.product_name := lit "Test Product";
     Models.url := lit "/pricing";
     Models.pricing_tiers := [];
     Models.core_features := [];
     Models.summary := [];
     Models.last_updated := 0 |}.

Definition echo_model (messages : list Extractor.message)
  : result (option CompetitorProduct) := Ok (Some echo_product).

(** A model call that fails at the provider. *)
Definition rate_limited : exc :=
  Exc OtherException (lit "OpenAI API error 429: rate limit reached") None.

Definition failing_model (messages : list Extractor.message)
  : result (option CompetitorProduct) := Raise rate_limited.

(** A browser whose fetch yields an empty rendering. *)
Definition empty_page : ScrapingResult :=
  {| Models.raw_html := lit "<html><body></body></html>";
     Models.clean_text := [];
     Models.screenshot_path := None |}.

Definition fetch_empty (url : str) : result ScrapingResult := Ok empty_page.

(** A browser whose fetch yields a one-line rendering. *)
Definition test_page : ScrapingResult :=
  {| Models.raw_html := lit "<html><body><h1>Test Product</h1></body></html>";
     Models.clean_text := lit "# Test Product";
     Models.screenshot_path := None |}.

Definition fetch_test_page (url : str) : result ScrapingResult := Ok test_page.

(** A browser whose fetch fails. *)
Definition network_error : exc := Exc OtherException (lit "Network error") None.

Definition fetch_fails (url : str) : result ScrapingResult := Raise network_error.

(** A model whose output does not fit the schema. *)
Definition bad_schema : exc :=
  Exc ValidationError (lit "1 validation error for CompetitorProduct") None.

Definition invalid_model (messages : list Extractor.message)
  : result (option CompetitorProduct) := Raise bad_schema.


(** A tokenizer that never raises, and one that cannot load its
    vocabulary. *)
Definition never_raises (text : str) : option exc := None.

Definition no_vocabulary : exc :=
  Exc OtherException (lit "Connection refused while fetching the vocabulary") None.

Definition always_raises (text : str) : option exc := Some no_vocabulary.

(** A tokenizer with one token per whitespace-separated word. *)
Definition is_space (c : char) : bool := (c =? 32)%N || (c =? 10)%N.

Fixpoint word_starts (in_word : bool) (text : str) : list char :=
  match text with
  | [] => []
  | c :: text' =>
      if is_space c then word_starts false text'
      else if in_word then word_starts true text'
      else c :: word_starts true text'
  end.

Definition word_tokens (text : str) : list char := word_starts false text.

(** 60,001 code points: 12,000 one-letter words, one word of 12,001
    letters, 12,000 one-letter words. *)
Definition wordy_text : str :=
  concat (repeat (lit "a ") (Z.to_nat 12000))
  ++ repeat 120%N (Z.to_nat 12001)
  ++ concat (repeat (lit " a") (Z.to_nat 12000)).

(** An extractor bound to the echoing model. *)
Definition echo_extractor : str -> str -> list Extractor.llm_event * result CompetitorProduct :=
  Extractor.extract_from_markdown char_tokens echo_model ascii_lower [] [] [] []
    never_raises.

Definition initial_state : Graph.AgentState :=
  {| Graph.url := example_url;
     Graph.scraped_content := None;
     Graph.product := None;
     Graph.error := None |}.

(** A page that grows by 100 pixels whenever time passes: its height
    never settles. *)
Definition endless_height (page : Z) : Z * Z := (page, page).
Definition endless_scroll (t : Crawler.scroll_target) (page : Z) : Z := page.
Definition endless_sleep (seconds : float) (page : Z) : Z := page + 100.

End Samples.

(* ===================================================================== *)
(** * Sample browsers and callers *)
(* ===================================================================== *)

Module MoreSamples.

(** An exception with the given text. *)
Definition boom (text : string) : exc := Exc OtherException (lit text) None.

(** A world that counts the calls made and remembers whether the page is
    closed. *)
Definition sample_world : Type := (nat * bool)%type.

Definition tick (w : sample_world) : sample_world := (S (fst w), snd w).

Definition answer (A : Type) (ok : bool) (a : A) (text : string)
    (w : sample_world) : result A * sample_world :=
  (if ok then Ok a else Raise (boom text), tick w).

Definition returns (A : Type) (a : A) (w : sample_world)
  : result A * sample_world :=
  (Ok a, tick w).

(** A browser in which the launch, the navigation, the screenshot and the
    closing of a context work or fail as told. *)
Definition sample_driver (launch_ok goto_ok shot_ok ctx_close_ok : bool)
  : Browser.Driver sample_world :=
  {| Browser.playwright_start := returns 1%nat;
     Browser.chromium_launch :=
       fun _ _ => answer launch_ok 2%nat "Executable doesn't exist";
     Browser.context_close := fun _ => answer ctx_close_ok tt "Target closed";
     Browser.browser_close := fun _ => returns tt;
     Browser.playwright_stop := fun _ => returns tt;
     Browser.randbelow := fun _ w => (fst w, tick w);
     Browser.new_context := fun _ _ => returns 3%nat;
     Browser.add_init_script := fun _ => returns tt;
     Browser.new_page := fun _ w => (Ok 4%nat, (S (fst w), false));
     Browser.goto := fun _ _ _ => answer goto_ok tt "net::ERR_NAME_NOT_RESOLVED";
     Browser.evaluate_scrollHeight := fun _ => returns 1080;
     Browser.evaluate_scrollTo := fun _ _ => returns tt;
     Browser.sleep := fun _ w => tick w;
     Browser.content :=
       fun _ => returns
                  (lit "<html><body><h1>Test Product</h1></body></html>");
     Browser.html2text_handle := fun _ => Ok (lit "# Test Product");
     Browser.mkdir_logs := returns tt;
     Browser.now_strftime := fun w => (lit "20240101_120000", tick w);
     Browser.screenshot := fun _ _ => answer shot_ok tt "Protocol error";
     Browser.page_close := fun _ w => (Ok tt, (S (fst w), true));
     Browser.page_is_closed := fun _ w => snd w;
     Browser.is_timeout := fun _ => false |}.

Definition calm_driver : Browser.Driver sample_world :=
  sample_driver true true true true.

Definition offline_driver : Browser.Driver sample_world :=
  sample_driver true false true true.

Definition blind_driver : Browser.Driver sample_world :=
  sample_driver true true false true.

Definition broken_driver : Browser.Driver sample_world :=
  sample_driver false true true true.

Definition sticky_driver : Browser.Driver sample_world :=
  sample_driver true true true false.

Definition fresh_world : sample_world := (0%nat, false).

(** A service that has been started and has fetched once. *)
Definition used_service : Browser.BrowserService :=
  {| Browser.headless_mode := true;
     Browser.playwright := Some 1%nat;
     Browser.browser := Some 2%nat;
     Browser.context := Some 3%nat |}.

(** A service whose launch failed. *)
Definition stuck_service : Browser.BrowserService :=
  {| Browser.headless_mode := true;
     Browser.playwright := Some 1%nat;
     Browser.browser := None;
     Browser.context := None |}.

(** A service in the fresh world, with nothing logged yet. *)
Definition at_rest (b : Browser.BrowserService) : Browser.St sample_world :=
  {| Browser.this := b;
     Browser.page_var := None;
     Browser.world := fresh_world;
     Browser.log := [] |}.

Definition pricing_url : str := lit "https://example.com/pricing".

(** The state of a run that ended with a product named [Test Product]. *)
Definition done_state (url : str) : Graph.AgentState :=
  {| Graph.url := url;
     Graph.scraped_content := Some (lit "# Test Product");
     Graph.product := Some (Models.set_url Samples.echo_product url);
     Graph.error := None |}.

(** A workflow that always ends with that product, in a world that
    counts what was done. *)
Definition done_workflow (state : Graph.AgentState) (w : nat)
  : result Graph.AgentState * nat :=
  (Ok (done_state (Graph.url state)), S w).

Definition disk (path : str) (p : CompetitorProduct) (w : nat)
  : result unit * nat :=
  (Ok tt, S w).

(** A terminal that takes every line, and a standard output that is a
    closed pipe once the world has counted three steps. *)
Definition terminal (w : nat) : result unit * nat := (Ok tt, S w).

Definition closed_pipe (w : nat) : result unit * nat :=
  (if (w <? 3)%nat then Ok tt else Raise (boom "[Errno 32] Broken pipe"), S w).

Definition posix_is_absolute (p : str) : bool := startswith p (lit "/").

(** No exception below the tool is a [RuntimeError]. *)
Definition is_runtime_error_never (e : exc) : bool := false.

(** A URL with a replacement field in it, and the [KeyError] that
    formatting a message with it raises. *)
Definition template_url : str := lit "https://example.com/{id}".

Definition key_error : exc := Exc OtherException (lit "'id'") None.

Definition format_key_error (message : str) : option exc := Some key_error.

(** A path name for paths without a slash. *)
Definition plain_name (p : str) : str := p.

End MoreSamples.

(* ===================================================================== *)
(** * Facts about slices and substring search *)
(* ===================================================================== *)

Module PyFacts.

Section Slices.

Variable A : Type.
Implicit Types s : list A.

Lemma len_nonneg s : 0 <= len s.
Proof. unfold len. lia. Qed.

Lemma len_app s t : len (s ++ t) = len s + len t.
Proof. unfold len. rewrite length_app. lia. Qed.

(** A prefix cut at or beyond the end is the whole sequence. *)
Lemma slice_to_all s stop : len s <= stop -> slice_to s stop = s.
Proof.
  intros Hle. pose proof (len_nonneg s) as Hn.
  unfold slice_to, clamp.
  destruct (Z.ltb_spec stop 0) as [Hneg | Hpos]; [lia |].
  rewrite Z.min_r by lia.
  apply firstn_all2. unfold len. lia.
Qed.

Lemma slice_to_firstn s k :
  0 <= k <= len s -> slice_to s k = firstn (Z.to_nat k) s.
Proof.
  intros [H0 Hk]. unfold slice_to, clamp.
  destruct (Z.ltb_spec k 0); [lia |]. now rewrite Z.min_l by lia.
Qed.

Lemma slice_from_last s k :
  0 < k <= len s -> slice_from s (- k) = skipn (Z.to_nat (len s - k)) s.
Proof.
  intros [H0 Hk]. unfold slice_from, clamp.
  destruct (Z.ltb_spec (- k) 0); [| lia].
  rewrite Z.max_r by lia. f_equal. lia.
Qed.

(** Cutting [k] items from each end of a sequence at least [2k] long:
    the sequence is head, middle and tail. *)
Lemma head_middle_tail s k :
  0 < k -> 2 * k <= len s ->
  exists middle,
    s = slice_to s k ++ middle ++ slice_from s (- k)
    /\ len (slice_to s k) = k
    /\ len (slice_from s (- k)) = k
    /\ len middle = len s - 2 * k.
Proof.
  intros Hk H2k.
  rewrite slice_to_firstn, slice_from_last by lia.
  exists (firstn (Z.to_nat (len s - 2 * k)) (skipn (Z.to_nat k) s)).
  assert (Hn : length s = Z.to_nat (len s)) by (unfold len; lia).
  repeat split.
  - replace (Z.to_nat (len s - k))
      with (Z.to_nat (len s - 2 * k) + Z.to_nat k)%nat by lia.
    rewrite <- skipn_skipn.
    now rewrite firstn_skipn, firstn_skipn.
  - unfold len at 1. rewrite length_firstn. lia.
  - unfold len at 1. rewrite length_skipn. lia.
  - unfold len at 1. rewrite length_firstn, length_skipn. lia.
Qed.

End Slices.

Lemma startswith_app (p rest : str) : startswith (p ++ rest) p = true.
Proof.
  induction p as [| c p IH]; simpl; [now destruct rest |].
  now rewrite N.eqb_refl, IH.
Qed.

Lemma startswith_nil (s : str) : startswith s [] = true.
Proof. now destruct s. Qed.

(** What [startswith] decides. *)
Lemma startswith_spec (s p : str) :
  startswith s p = true <-> exists rest, s = p ++ rest.
Proof.
  revert s. induction p as [| c p IH]; intros s.
  - rewrite startswith_nil. split; [exists s; reflexivity | reflexivity].
  - destruct s as [| d s]; simpl.
    + split; [discriminate | intros [rest H]; discriminate].
    + rewrite andb_true_iff, N.eqb_eq, IH. split.
      * intros [-> [rest ->]]. now exists rest.
      * intros [rest H]. injection H as -> ->. split; [reflexivity | now exists rest].
  Qed.

(** What [contains] decides: the needle sits between some prefix and some
    suffix of the hay. *)
Lemma contains_spec (needle hay : str) :
  contains needle hay = true <-> exists before after, hay = before ++ needle ++ after.
Proof.
  induction hay as [| c hay IH].
  - cbn [contains]. rewrite orb_false_r, startswith_spec. split.
    + intros [rest H]. exists [], rest. exact H.
    + intros [before [after H]].
      destruct before; [now exists after | discriminate].
  - cbn [contains]. rewrite orb_true_iff, startswith_spec, IH. split.
    + intros [[rest H] | [before [after H]]].
      * exists [], rest. exact H.
      * exists (c :: before), after. now rewrite H.
    + intros [before [after H]]. destruct before as [| b before].
      * left. now exists after.
      * right. injection H as _ H. now exists before, after.
Qed.

Lemma contains_middle (needle before after : str) :
  contains needle (before ++ needle ++ after) = true.
Proof. apply contains_spec. now exists before, after. Qed.

End PyFacts.

(* ===================================================================== *)
(** * The truncation policy *)
(* ===================================================================== *)

Module ExtractorSpec.

Import Extractor PyFacts.

Lemma truncate_chars_value : TRUNCATE_CHARS = 60000.
Proof. reflexivity. Qed.

(** The binary64 product [60000 * 0.4] truncates to exactly 24000. *)
Lemma keep_chars_value : keep_chars = 24000.
Proof. vm_compute. reflexivity. Qed.

Lemma keep_chars_forty_percent : 10 * keep_chars = 4 * TRUNCATE_CHARS.
Proof. rewrite keep_chars_value. reflexivity. Qed.

Lemma elision_separator_len : len elision_separator = 31.
Proof. reflexivity. Qed.

Section Truncation.

Variable token : Type.
Variable encode : str -> list token.

(** The three branches of [_truncate_content], by their guards. *)
Lemma truncate_within (text : str) :
  _count_tokens encode text <= MAX_TOKENS ->
  _truncate_content encode text = text.
Proof.
  intros H. unfold _truncate_content.
  destruct (Z.leb_spec (_count_tokens encode text) MAX_TOKENS); [reflexivity | lia].
Qed.

Lemma truncate_prefix_branch (text : str) :
  MAX_TOKENS < _count_tokens encode text ->
  len text <= TRUNCATE_CHARS ->
  _truncate_content encode text = slice_to text TRUNCATE_CHARS.
Proof.
  intros Ht Hc. unfold _truncate_content.
  destruct (Z.leb_spec (_count_tokens encode text) MAX_TOKENS); [lia |].
  destruct (Z.leb_spec (len text) TRUNCATE_CHARS); [reflexivity | lia].
Qed.

Lemma truncate_split_branch (text : str) :
  MAX_TOKENS < _count_tokens encode text ->
  TRUNCATE_CHARS < len text ->
  _truncate_content encode text =
  slice_to text keep_chars ++ elision_separator ++ slice_from text (- keep_chars).
Proof.
  intros Ht Hc. unfold _truncate_content.
  destruct (Z.leb_spec (_count_tokens encode text) MAX_TOKENS); [lia |].
  destruct (Z.leb_spec (len text) TRUNCATE_CHARS); [lia | reflexivity].
Qed.

End Truncation.

(** C3.  A text whose token count is at or below the ceiling of 15,000 is
    returned as it is. *)
Theorem truncate_within_budget_unchanged
    (token : Type) (encode : str -> list token) (text : str) :
  _count_tokens encode text <= 15000 ->
  _truncate_content encode text = text.
Proof. intros H. apply truncate_within. exact H. Qed.

Lemma truncate_within_budget_unchanged_witness :
  _count_tokens Samples.char_tokens Samples.short_text <= 15000
  /\ _truncate_content Samples.char_tokens Samples.short_text = Samples.short_text.
Proof.
  assert (H : _count_tokens Samples.char_tokens Samples.short_text <= 15000)
    by (vm_compute; discriminate).
  split; [exact H |].
  exact (truncate_within_budget_unchanged Samples.char_tokens Samples.short_text H).
Defined.

(** C9.  A text over the token ceiling whose length is at most 60,000
    code points is returned as it is: the prefix cut at 60,000 removes
    nothing. *)
Theorem truncate_token_overage_unchanged
    (token : Type) (encode : str -> list token) (text : str) :
  15000 < _count_tokens encode text ->
  len text <= 60000 ->
  _truncate_content encode text = slice_to text TRUNCATE_CHARS
  /\ _truncate_content encode text = text.
Proof.
  intros Ht Hc.
  rewrite truncate_prefix_branch by (rewrite ?truncate_chars_value; assumption).
  split; [reflexivity |].
  apply slice_to_all. rewrite truncate_chars_value. exact Hc.
Qed.

Lemma truncate_token_overage_unchanged_witness :
  15000 < _count_tokens Samples.two_tokens_per_char Samples.dense_text
  /\ len Samples.dense_text <= 60000
  /\ _truncate_content Samples.two_tokens_per_char Samples.dense_text
     = Samples.dense_text.
Proof.
  assert (Ht : 15000 < _count_tokens Samples.two_tokens_per_char Samples.dense_text)
    by (vm_compute; reflexivity).
  assert (Hc : len Samples.dense_text <= 60000) by (vm_compute; discriminate).
  split; [exact Ht | split; [exact Hc |]].
  exact (proj2 (truncate_token_overage_unchanged
                  Samples.two_tokens_per_char Samples.dense_text Ht Hc)).
Defined.

(** C5.  Over the token ceiling: a text longer than the 60,000-character
    budget becomes its first 24,000 characters (40% of the budget), the
    elision marker between blank lines, and its last 24,000 characters;
    a text within the budget becomes its prefix cut at the budget. *)
Theorem truncate_over_budget_shape
    (token : Type) (encode : str -> list token) (text : str) :
  15000 < _count_tokens encode text ->
  (60000 < len text ->
     exists head middle tail,
       text = head ++ middle ++ tail
       /\ len head = 24000 /\ len tail = 24000
       /\ 10 * 24000 = 4 * TRUNCATE_CHARS
       /\ _truncate_content encode text
          = head ++ [nl; nl] ++ elision_marker ++ [nl; nl] ++ tail)
  /\ (len text <= 60000 ->
     exists rest,
       text = _truncate_content encode text ++ rest
       /\ len (_truncate_content encode text) = Z.min (len text) TRUNCATE_CHARS).
Proof.
  intros Ht. split; intros Hc.
  - destruct (@head_middle_tail char text keep_chars) as (middle & Hsplit & Hh & Hl & _).
    + rewrite keep_chars_value. lia.
    + rewrite keep_chars_value. lia.
    + exists (slice_to text keep_chars), middle, (slice_from text (- keep_chars)).
      rewrite <- keep_chars_value.
      split; [exact Hsplit |].
      split; [exact Hh |].
      split; [exact Hl |].
      split; [apply keep_chars_forty_percent |].
      rewrite truncate_split_branch
        by (rewrite ?truncate_chars_value; assumption).
      unfold elision_separator. now rewrite <- !app_assoc.
  - assert (Hid : _truncate_content encode text = text).
    { rewrite truncate_prefix_branch by (rewrite ?truncate_chars_value; assumption).
      apply slice_to_all. rewrite truncate_chars_value. exact Hc. }
    exists []. rewrite Hid, app_nil_r. split; [reflexivity |].
    rewrite truncate_chars_value. lia.
Qed.

Lemma truncate_over_budget_shape_witness :
  exists head middle tail,
    Samples.long_text = head ++ middle ++ tail
    /\ len head = 24000 /\ len tail = 24000
    /\ 10 * 24000 = 4 * TRUNCATE_CHARS
    /\ _truncate_content Samples.char_tokens Samples.long_text
       = head ++ [nl; nl] ++ elision_marker ++ [nl; nl] ++ tail.
Proof.
  assert (Ht : 15000 < _count_tokens Samples.char_tokens Samples.long_text)
    by (vm_compute; reflexivity).
  assert (Hc : 60000 < len Samples.long_text) by (vm_compute; reflexivity).
  exact (proj1 (truncate_over_budget_shape
                  Samples.char_tokens Samples.long_text Ht) Hc).
Defined.

(** X1.  The part of the truncation bound that the code itself settles: on the
    split branch the output carries the marker and has 48,031 characters,
    fewer than the input; on the prefix branch the output is the input, so
    its token count is the input's. *)
Theorem truncate_marker_and_length
    (token : Type) (encode : str -> list token) (text : str) :
  15000 < _count_tokens encode text ->
  (60000 < len text ->
     contains elision_marker (_truncate_content encode text) = true
     /\ len (_truncate_content encode text) = 48031
     /\ len (_truncate_content encode text) < len text)
  /\ (len text <= 60000 ->
     _count_tokens encode (_truncate_content encode text)
     = _count_tokens encode text).
Proof.
  intros Ht. split; intros Hc.
  - destruct (@head_middle_tail char text keep_chars)
      as (middle & Hsplit & Hh & Hl & _);
      [rewrite keep_chars_value; lia | rewrite keep_chars_value; lia |].
    rewrite truncate_split_branch by (rewrite ?truncate_chars_value; assumption).
    split; [| split].
    + unfold elision_separator. rewrite <- !app_assoc.
      rewrite (app_assoc (slice_to text keep_chars) [nl; nl]).
      apply contains_middle.
    + rewrite !len_app, Hh, Hl, elision_separator_len, keep_chars_value.
      reflexivity.
    + rewrite !len_app, Hh, Hl, elision_separator_len, keep_chars_value. lia.
  - rewrite truncate_prefix_branch by (rewrite ?truncate_chars_value; assumption).
    rewrite slice_to_all by (rewrite truncate_chars_value; exact Hc).
    reflexivity.
Qed.

Lemma truncate_marker_and_length_witness :
  contains elision_marker
    (_truncate_content Samples.char_tokens Samples.long_text) = true
  /\ len (_truncate_content Samples.char_tokens Samples.long_text) = 48031
  /\ len (_truncate_content Samples.char_tokens Samples.long_text)
     < len Samples.long_text.
Proof.
  assert (Ht : 15000 < _count_tokens Samples.char_tokens Samples.long_text)
    by (vm_compute; reflexivity).
  assert (Hc : 60000 < len Samples.long_text) by (vm_compute; reflexivity).
  exact (proj1 (truncate_marker_and_length
                  Samples.char_tokens Samples.long_text Ht) Hc).
Defined.

(** The head and tail of the long sample survive, its middle does not. *)
Example long_text_scenario :
  let out := _truncate_content Samples.char_tokens Samples.long_text in
  contains [72%N] out = true /\ contains [84%N] out = true
  /\ contains [77%N] out = false.
Proof. vm_compute. repeat split. Qed.

(** The token count of the output is the tokenizer's affair: with one
    token per word, cutting a single long word out of the middle and
    putting the four-word marker in its place raises the count. *)
Example word_count_grows :
  _count_tokens Samples.word_tokens Samples.wordy_text = 24001
  /\ len Samples.wordy_text = 60001
  /\ _count_tokens Samples.word_tokens
       (_truncate_content Samples.word_tokens Samples.wordy_text) = 24004.
Proof. vm_compute. repeat split. Qed.

(* ===================================================================== *)
(** * The extraction call *)
(* ===================================================================== *)

Section Extraction.

Variable token : Type.
Variable encode : str -> list token.
Variable ainvoke : list message -> result (option CompetitorProduct).
Variable lower : str -> str.
Variable system_prompt : str.
Variables user_head user_mid user_tail : str.
Variable encode_error : str -> option exc.

Local Abbreviation extract :=
  (extract_from_markdown encode ainvoke lower system_prompt
     user_head user_mid user_tail encode_error).
Local Abbreviation attempt :=
  (try_block encode ainvoke system_prompt user_head user_mid user_tail
     encode_error).
Local Abbreviation messages :=
  (messages_of encode system_prompt user_head user_mid user_tail).
Local Abbreviation truncate_call := (_truncate_content_call encode encode_error).

(** The truncating call: which tokenizer call raises first, if any; the
    text it returns is that of [_truncate_content]. *)
Lemma truncate_call_cases (markdown_content : str) :
  truncate_call markdown_content
  = match encode_error markdown_content with
    | Some e => Raise e
    | None =>
        if _count_tokens encode markdown_content <=? MAX_TOKENS
        then Ok markdown_content
        else
          match encode_error (_truncate_content encode markdown_content) with
          | Some e => Raise e
          | None => Ok (_truncate_content encode markdown_content)
          end
    end.
Proof.
  unfold _truncate_content_call, _count_tokens_call, _truncate_content.
  destruct (encode_error markdown_content); [reflexivity |].
  destruct (_count_tokens encode markdown_content <=? MAX_TOKENS); [reflexivity |].
  cbv zeta.
  destruct (len markdown_content <=? TRUNCATE_CHARS);
    now destruct (encode_error _).
Qed.

Lemma truncate_call_value (markdown_content processed : str) :
  truncate_call markdown_content = Ok processed ->
  processed = _truncate_content encode markdown_content.
Proof.
  rewrite truncate_call_cases.
  destruct (encode_error markdown_content); [discriminate |].
  destruct (_count_tokens encode markdown_content <=? MAX_TOKENS) eqn:Hc.
  - intros [= <-]. unfold _truncate_content. now rewrite Hc.
  - destruct (encode_error _); [discriminate |]. now intros [= <-].
Qed.

(** The [try] block: without a model call when the tokenizer raises, else
    with one call, on the truncated content. *)
Lemma try_block_cases (markdown_content source_url : str) :
  (exists e,
      truncate_call markdown_content = Raise e
      /\ attempt markdown_content source_url = ([], Raise e))
  \/ (truncate_call markdown_content
      = Ok (_truncate_content encode markdown_content)
      /\ attempt markdown_content source_url
         = ( [LLMInvoke (messages markdown_content source_url)],
             match ainvoke (messages markdown_content source_url) with
             | Raise e => Raise e
             | Ok None => Raise none_has_no_url
             | Ok (Some result) => Ok (Models.set_url result source_url)
             end )).
Proof.
  unfold try_block.
  destruct (truncate_call markdown_content) as [processed | e] eqn:Ht.
  - right. apply truncate_call_value in Ht. subst processed.
    split; reflexivity.
  - left. now exists e.
Qed.

(** The model is called at most once. *)
Lemma extract_calls_model_once (markdown_content source_url : str) :
  fst (extract markdown_content source_url) = []
  \/ fst (extract markdown_content source_url)
     = [LLMInvoke (messages markdown_content source_url)].
Proof.
  unfold extract_from_markdown.
  destruct (try_block_cases markdown_content source_url)
    as [(e & _ & ->) | (_ & ->)]; [now left | now right].
Qed.

Lemma extract_outcome (markdown_content source_url : str) :
  snd (extract markdown_content source_url)
  = match snd (attempt markdown_content source_url) with
    | Ok result => Ok result
    | Raise e => Raise (handle_extraction_error lower source_url e)
    end.
Proof.
  unfold extract_from_markdown.
  now destruct (attempt markdown_content source_url).
Qed.

(** A call succeeds exactly when no tokenizer call raises and the model
    answers with a record. *)
Lemma extract_succeeds_iff (markdown_content source_url : str) :
  (exists p, snd (extract markdown_content source_url) = Ok p)
  <-> (exists processed raw,
          truncate_call markdown_content = Ok processed
          /\ ainvoke (messages markdown_content source_url) = Ok (Some raw)).
Proof.
  rewrite extract_outcome.
  destruct (try_block_cases markdown_content source_url)
    as [(e & Ht & ->) | (Ht & ->)]; cbn [snd]; rewrite Ht.
  - split; [intros [p H]; discriminate | intros (t & raw & H & _); discriminate].
  - destruct (ainvoke (messages markdown_content source_url)) as [[raw |] | e].
    + split; intros _; eauto.
    + split; [intros [p H]; discriminate | intros (t & raw & _ & H); discriminate].
    + split; [intros [p H]; discriminate | intros (t & raw & _ & H); discriminate].
Qed.

(** Where a failure of the [try] block comes from. *)
Lemma try_block_failures (markdown_content source_url : str) (e : exc) :
  snd (attempt markdown_content source_url) = Raise e
  <-> truncate_call markdown_content = Raise e
      \/ (truncate_call markdown_content
          = Ok (_truncate_content encode markdown_content)
          /\ (ainvoke (messages markdown_content source_url) = Raise e
              \/ (ainvoke (messages markdown_content source_url) = Ok None
                  /\ e = none_has_no_url))).
Proof.
  destruct (try_block_cases markdown_content source_url)
    as [(e' & Ht & ->) | (Ht & ->)]; cbn [snd]; rewrite Ht.
  - split.
    + intros [= <-]. now left.
    + intros [[= <-] | [[=] _]]. reflexivity.
  - destruct (ainvoke (messages markdown_content source_url)) as [[raw |] | e'].
    + split; [discriminate |].
      intros [[=] | [_ [[=] | [[=] _]]]].
    + split.
      * intros [= <-]. right. split; [reflexivity |]. right. now split.
      * intros [[=] | [_ [[=] | [_ ->]]]]. reflexivity.
    + split.
      * intros [= <-]. right. split; [reflexivity |]. now left.
      * intros [[=] | [_ [[= <-] | [[=] _]]]]. reflexivity.
Qed.

End Extraction.

(** C6.  A record returned by a successful extraction call carries the
    caller's source URL, whatever URL the model put there; the other
    fields are the model's. *)
Theorem extraction_url_is_source_url
    (token : Type) (encode : str -> list token)
    (ainvoke : list message -> result (option CompetitorProduct))
    (lower : str -> str) (system_prompt user_head user_mid user_tail : str)
    (encode_error : str -> option exc)
    (markdown_content source_url : str) (p : CompetitorProduct) :
  snd (extract_from_markdown encode ainvoke lower system_prompt
         user_head user_mid user_tail encode_error
         markdown_content source_url) = Ok p ->
  Models.url p = source_url
  /\ exists raw,
       ainvoke (messages_of encode system_prompt user_head user_mid user_tail
                  markdown_content source_url) = Ok (Some raw)
       /\ p = Models.set_url raw source_url.
Proof.
  rewrite extract_outcome. intros H.
  destruct (try_block_cases encode ainvoke system_prompt user_head user_mid
              user_tail encode_error markdown_content source_url)
    as [(e & _ & Ha) | (_ & Ha)]; rewrite Ha in H; cbn [snd] in H;
    [discriminate |].
  destruct (ainvoke _) as [[raw |] | e]; try discriminate.
  injection H as <-. split; [reflexivity |]. now exists raw.
Qed.

Lemma extraction_url_is_source_url_witness :
  Models.url Samples.echo_product <> Samples.example_url
  /\ exists p,
       snd (Samples.echo_extractor Samples.short_text Samples.example_url) = Ok p
       /\ Models.url p = Samples.example_url.
Proof.
  split; [discriminate |].
  exists (Models.set_url Samples.echo_product Samples.example_url).
  assert (H : snd (Samples.echo_extractor Samples.short_text Samples.example_url)
              = Ok (Models.set_url Samples.echo_product Samples.example_url))
    by reflexivity.
  split; [exact H |].
  exact (proj1 (extraction_url_is_source_url
                  Samples.char_tokens Samples.echo_model Samples.ascii_lower
                  [] [] [] [] Samples.never_raises
                  Samples.short_text Samples.example_url H)).
Defined.


(** The marker test of the handler, on the lower-cased text of the
    failure. *)
Lemma mentions_api_iff (lower : str -> str) (e : exc) :
  mentions_api lower e = true
  <-> contains (lit "api") (lower (exc_message e)) = true
      \/ contains (lit "openai") (lower (exc_message e)) = true.
Proof. unfold mentions_api. apply orb_true_iff. Qed.

(** The report of the handler, by the class and the text of the
    failure. *)
Lemma handler_report (lower : str -> str) (source_url : str) (e : exc) :
  exc_cause (handle_extraction_error lower source_url e) = Some e
  /\ (exc_cls e = ValidationError ->
      handle_extraction_error lower source_url e
      = Exc ValueError
          (lit "Pydantic validation error during extraction: " ++ exc_message e)
          (Some e))
  /\ (exc_cls e <> ValidationError ->
      contains (lit "api") (lower (exc_message e)) = true
      \/ contains (lit "openai") (lower (exc_message e)) = true ->
      handle_extraction_error lower source_url e
      = Exc ValueError (lit "OpenAI API error: " ++ exc_message e) (Some e))
  /\ (exc_cls e <> ValidationError ->
      contains (lit "api") (lower (exc_message e)) = false ->
      contains (lit "openai") (lower (exc_message e)) = false ->
      handle_extraction_error lower source_url e
      = Exc OtherException
          (lit "LLM extraction failed for URL " ++ source_url ++ lit ": "
           ++ exc_message e)
          (Some e)).
Proof.
  unfold handle_extraction_error, mentions_api.
  destruct (exc_cls e) eqn:Hcls.
  - split; [reflexivity |]. split; [reflexivity |].
    split; intros H; now destruct H.
  - split; [now destruct (_ || _) |]. split; [discriminate |]. split.
    + intros _ H. apply orb_true_iff in H. now rewrite H.
    + intros _ H1 H2. now rewrite H1, H2.
  - split; [now destruct (_ || _) |]. split; [discriminate |]. split.
    + intros _ H. apply orb_true_iff in H. now rewrite H.
    + intros _ H1 H2. now rewrite H1, H2.
Qed.



(** A failure at the provider is reported as an API error: its text
    names the API. *)
Example rate_limit_report :
  snd (extract_from_markdown Samples.char_tokens Samples.failing_model
         Samples.ascii_lower [] [] [] [] Samples.never_raises
         Samples.short_text Samples.example_url)
  = Raise (Exc ValueError
             (lit "OpenAI API error: " ++ exc_message Samples.rate_limited)
             (Some Samples.rate_limited)).
Proof. vm_compute. reflexivity. Qed.

(** A schema failure at the sample model is reported as a validation
    error even though nothing in it names the API. *)
Example invalid_model_report :
  snd (extract_from_markdown Samples.char_tokens Samples.invalid_model
         Samples.ascii_lower [] [] [] [] Samples.never_raises
         Samples.short_text Samples.example_url)
  = Raise (Exc ValueError
             (lit "Pydantic validation error during extraction: "
              ++ lit "1 validation error for CompetitorProduct")
             (Some Samples.bad_schema)).
Proof. reflexivity. Qed.

(** A tokenizer that raises: the model is not called, and the failure is
    raised with the URL. *)
Example tokenizer_failure_report :
  extract_from_markdown Samples.char_tokens Samples.echo_model
    Samples.ascii_lower [] [] [] [] Samples.always_raises
    Samples.short_text Samples.example_url
  = ( [],
      Raise (Exc OtherException
               (lit "LLM extraction failed for URL " ++ Samples.example_url
                ++ lit ": " ++ exc_message Samples.no_vocabulary)
               (Some Samples.no_vocabulary)) ).
Proof. vm_compute. reflexivity. Qed.

End ExtractorSpec.

(* ===================================================================== *)
(** * The scroll-revelation loop *)
(* ===================================================================== *)

Module CrawlerSpec.

Import Crawler.

Lemma scrolls_of_iterations (l : list (Z * Z)) :
  scrolls_to_bottom (flat_map iteration l) = length l.
Proof.
  unfold scrolls_to_bottom.
  induction l as [| h l IH]; [reflexivity |].
  cbn [flat_map]. rewrite filter_app, length_app, IH. reflexivity.
Qed.

Lemma scrolls_app (l1 l2 : list page_action) :
  scrolls_to_bottom (l1 ++ l2) = (scrolls_to_bottom l1 + scrolls_to_bottom l2)%nat.
Proof. unfold scrolls_to_bottom. now rewrite filter_app, length_app. Qed.

Section Loop.

Variable Page : Type.
Variable scrollHeight : Page -> Z * Page.
Variable scrollTo : scroll_target -> Page -> Page.
Variable sleep : float -> Page -> Page.

(** The loop appends to the log a run of iterations that changed the
    height, then at most one that did not; it uses up its range exactly
    when no iteration was stable. *)
Lemma scroll_loop_log (n : nat) :
  forall (page : Page) (log : list page_action),
  exists changing last page',
    scroll_loop scrollHeight scrollTo sleep n (page, log)
    = (tt, (page', log ++ flat_map iteration changing ++ flat_map iteration last))
    /\ Forall (fun h => ~ stable h) changing
    /\ Forall stable last
    /\ ((last = [] /\ length changing = n)
        \/ (length last = 1 /\ length changing < n))%nat.
Proof.
  induction n as [| n IH]; intros page log.
  - exists [], [], page. cbn. rewrite app_nil_r. repeat split; auto.
  - cbn [scroll_loop]. unfold bind, evaluate_scrollHeight, evaluate_scrollTo,
      asyncio_sleep, scroll_pause_time. cbn [fst snd].
    destruct (scrollHeight page) as [h1 p1]. cbn [fst snd].
    destruct (scrollHeight (sleep 1 (scrollTo Bottom p1))) as [h2 p4].
    destruct (Z.eqb_spec h1 h2) as [Heq | Hne].
    + exists [], [(h1, h2)], p4. cbn [flat_map app ret].
      rewrite app_nil_r. unfold iteration. cbn [fst snd].
      rewrite <- !app_assoc. cbn [app].
      repeat split; auto. right. split; [reflexivity | cbn; lia].
    + destruct (IH p4 ((((log ++ [ReadScrollHeight h1]) ++ [ScrollTo Bottom])
                         ++ [Sleep 1]) ++ [ReadScrollHeight h2]))
        as (changing & last & page' & Hrun & Hch & Hlast & Hlen).
      exists ((h1, h2) :: changing), last, page'.
      rewrite Hrun. cbn [flat_map]. unfold iteration at 2. cbn [fst snd].
      rewrite <- !app_assoc. cbn [app].
      split; [reflexivity |].
      split; [constructor; [exact Hne | exact Hch] |].
      split; [exact Hlast |].
      cbn [length]. destruct Hlen as [[-> <-] | [H1 Hlt]];
        [left; split; reflexivity | right; split; [exact H1 | lia]].
Qed.

End Loop.

(** C7.  One call of the scroll loop with its default bound: the log is a
    run of iterations that changed the height, then at most one that left
    it unchanged, then the scroll to the top and the half-second pause.
    There are at most 10 iterations, on any page; fewer than 10 only when
    the last one found the height unchanged, and 10 when none did. *)
Theorem auto_scroll_at_most_ten_iterations
    (Page : Type) (scrollHeight : Page -> Z * Page)
    (scrollTo : scroll_target -> Page -> Page)
    (sleep : float -> Page -> Page) (page : Page) :
  exists changing last,
    auto_scroll_log scrollHeight scrollTo sleep page
    = flat_map iteration changing ++ flat_map iteration last
      ++ [ScrollTo Top; Sleep 0.5%float]
    /\ Forall (fun h => ~ stable h) changing
    /\ Forall stable last
    /\ ((last = [] /\ length changing = 10)
        \/ (length last = 1 /\ length changing < 10))%nat
    /\ (scrolls_to_bottom (auto_scroll_log scrollHeight scrollTo sleep page)
        = length changing + length last)%nat
    /\ (scrolls_to_bottom (auto_scroll_log scrollHeight scrollTo sleep page)
        <= 10)%nat.
Proof.
  destruct (scroll_loop_log scrollHeight scrollTo sleep 10 page [])
    as (changing & last & page' & Hrun & Hch & Hlast & Hlen).
  assert (Hlog : auto_scroll_log scrollHeight scrollTo sleep page
                 = flat_map iteration changing ++ flat_map iteration last
                   ++ [ScrollTo Top; Sleep 0.5%float]).
  { unfold auto_scroll_log, _auto_scroll, bind.
    change (Z.to_nat 10) with 10%nat. rewrite Hrun.
    unfold evaluate_scrollTo, asyncio_sleep. cbn [fst snd app].
    rewrite <- !app_assoc. reflexivity. }
  exists changing, last.
  split; [exact Hlog |]. split; [exact Hch |]. split; [exact Hlast |].
  split; [exact Hlen |].
  assert (Hcount : scrolls_to_bottom (auto_scroll_log scrollHeight scrollTo sleep page)
                   = (length changing + length last)%nat).
  { rewrite Hlog, !scrolls_app, !scrolls_of_iterations. cbn. lia. }
  split; [exact Hcount |].
  rewrite Hcount. destruct Hlen as [[-> ->] | [-> Hlt]]; cbn; lia.
Qed.

(** A page whose height never settles is scrolled exactly 10 times. *)
Example endless_page_ten_scrolls :
  scrolls_to_bottom
    (auto_scroll_log Samples.endless_height Samples.endless_scroll
       Samples.endless_sleep 1080) = 10%nat.
Proof. vm_compute. reflexivity. Qed.

(** A page that is already fully rendered is scrolled once. *)
Example settled_page_one_scroll :
  auto_scroll_log (fun page : Z => (page, page)) (fun _ page => page)
    (fun _ page => page) 1080
  = iteration (1080, 1080) ++ [ScrollTo Top; Sleep 0.5%float].
Proof. reflexivity. Qed.

End CrawlerSpec.

(* ===================================================================== *)
(** * The pipeline: fetch, gate, extraction *)
(* ===================================================================== *)

Module GraphSpec.

Import Graph PyFacts.

Section Pipeline.

Variable start : result unit.
Variable fetch_page_content : str -> result ScrapingResult.
Variable extract_from_markdown :
  str -> str -> list Extractor.llm_event * result CompetitorProduct.

Local Abbreviation scrape := (node_scrape start fetch_page_content).
Local Abbreviation extract := (node_extract extract_from_markdown).
Local Abbreviation invoke :=
  (graph_invoke start fetch_page_content extract_from_markdown).

(** The fetch node ends in one of two shapes. *)
Lemma scrape_cases (state : AgentState) :
  (exists e, snd (scrape state) = scrape_failure state e)
  \/ (exists text, snd (scrape state) = scrape_success state text).
Proof.
  unfold node_scrape.
  destruct start as [u | e]; [| left; now exists e].
  destruct (fetch_page_content (url state)) as [r | e].
  - right. now exists (Models.clean_text r).
  - left. now exists e.
Qed.

(** The fetch node makes no call into the extraction service. *)
Lemma scrape_no_extraction (state : AgentState) :
  extraction_calls (fst (scrape state)) = 0%nat.
Proof.
  unfold node_scrape.
  destruct start; [destruct (fetch_page_content (url state)) |]; reflexivity.
Qed.

(** The gate on any state: it ends the run exactly on an error that is a
    non-empty message. *)
Lemma should_continue_end_iff (state : AgentState) :
  should_continue state = to_end
  <-> exists c msg, error state = Some (c :: msg).
Proof.
  unfold should_continue, truthy.
  destruct (error state) as [[| c msg] |]; split;
    try discriminate; try (intros (? & ? & ?); discriminate).
  - intros _. now exists c, msg.
  - reflexivity.
Qed.

(** An error message written by the fetch node is never empty. *)
Lemma scrape_error_truthy (state : AgentState) (msg : str) :
  error (snd (scrape state)) = Some msg -> truthy (Some msg) = true.
Proof.
  destruct (scrape_cases state) as [[e ->] | [text ->]]; cbn [error scrape_failure scrape_success].
  - intros [= <-]. reflexivity.
  - discriminate.
Qed.

Lemma gate_after_scrape (state : AgentState) :
  should_continue (snd (scrape state))
  = match error (snd (scrape state)) with
    | Some _ => to_end
    | None => to_extract
    end.
Proof.
  unfold should_continue.
  destruct (error (snd (scrape state))) as [msg |] eqn:Herr; [| reflexivity].
  now rewrite (scrape_error_truthy state Herr).
Qed.

Lemma invoke_unfold (state : AgentState) :
  invoke state
  = match should_continue (snd (scrape state)) with
    | to_end => scrape state
    | to_extract =>
        (fst (scrape state) ++ fst (extract (snd (scrape state))),
         snd (extract (snd (scrape state))))
    end.
Proof.
  unfold graph_invoke.
  destruct (node_scrape start fetch_page_content state) as [events1 state1].
  cbn [fst snd]. destruct (should_continue state1); [| reflexivity].
  now destruct (node_extract extract_from_markdown state1).
Qed.

(** The extraction node ends in one of two shapes. *)
Lemma extract_cases (state : AgentState) :
  (exists msg, product (snd (extract state)) = None
               /\ error (snd (extract state)) = Some msg)
  \/ (exists p, product (snd (extract state)) = Some p
               /\ error (snd (extract state)) = None).
Proof.
  unfold node_extract.
  destruct (negb (truthy (scraped_content state))).
  - left. eexists. split; reflexivity.
  - destruct (extract_from_markdown _ (url state)) as [calls [p | e]].
    + right. exists p. split; reflexivity.
    + left. eexists. split; reflexivity.
Qed.

End Pipeline.

(** C1.  The gate is a function of the state alone.  On the state the
    fetch node leaves, it ends the run exactly when [error] is set and
    proceeds to extraction exactly when it is not; when [error] is set the
    run is the fetch node's alone, with its state as the result and no call
    into the extraction service. *)
Theorem gate_terminates_iff_fetch_error
    (start : result unit)
    (fetch_page_content : str -> result ScrapingResult)
    (extract_from_markdown :
       str -> str -> list Extractor.llm_event * result CompetitorProduct)
    (state : AgentState) :
  let fetched := snd (node_scrape start fetch_page_content state) in
  let run := graph_invoke start fetch_page_content extract_from_markdown state in
  (should_continue fetched = to_end <-> is_set (error fetched))
  /\ (should_continue fetched = to_extract <-> error fetched = None)
  /\ (is_set (error fetched) ->
      run = node_scrape start fetch_page_content state
      /\ extraction_calls (fst run) = 0%nat
      /\ error (snd run) = error fetched)
  /\ (error fetched = None ->
      run = (fst (node_scrape start fetch_page_content state)
             ++ fst (node_extract extract_from_markdown fetched),
             snd (node_extract extract_from_markdown fetched))).
Proof.
  intros fetched run. subst fetched run.
  rewrite invoke_unfold, gate_after_scrape. unfold is_set.
  destruct (error (snd (node_scrape start fetch_page_content state))) as [msg |] eqn:Herr.
  - split; [split; [discriminate | reflexivity] |].
    split; [split; [discriminate | discriminate] |].
    split; [| discriminate].
    intros _. split; [reflexivity |].
    split; [apply scrape_no_extraction | exact Herr].
  - split; [split; [discriminate | congruence] |].
    split; [split; reflexivity |].
    split; [congruence | reflexivity].
Qed.

(** A failed fetch ends the run with the cause's text in the error and no
    call into the extraction service. *)
Lemma fetch_failure_ends_run
    (fetch_page_content : str -> result ScrapingResult)
    (extract_from_markdown :
       str -> str -> list Extractor.llm_event * result CompetitorProduct)
    (state : AgentState) (e : exc) :
  fetch_page_content (url state) = Raise e ->
  let run := graph_invoke (Ok tt) fetch_page_content extract_from_markdown state in
  extraction_calls (fst run) = 0%nat
  /\ scraped_content (snd run) = None
  /\ product (snd run) = product state
  /\ exists msg, error (snd run) = Some msg
                /\ contains (exc_message e) msg = true
                /\ contains (lit "Failed to scrape") msg = true.
Proof.
  intros Hfetch run. subst run.
  assert (Hscrape : node_scrape (Ok tt) fetch_page_content state
                    = ([BrowserStart; FetchPageContent (url state)],
                       scrape_failure state e))
    by (unfold node_scrape; rewrite Hfetch; reflexivity).
  rewrite invoke_unfold, gate_after_scrape, Hscrape.
  cbn [fst snd error scraped_content product scrape_failure].
  split; [reflexivity |]. split; [reflexivity |]. split; [reflexivity |].
  eexists. split; [reflexivity |]. split; apply contains_spec.
  - exists (lit "Failed to scrape URL " ++ url state ++ lit ": "), [].
    now rewrite app_nil_r, <- !app_assoc.
  - exists [], (lit " URL " ++ url state ++ lit ": " ++ exc_message e).
    reflexivity.
Qed.

(** C2.  The fetch node leaves exactly one of [scraped_content] and
    [error] set; the extraction node, on whatever state it is run, leaves
    exactly one of [product] and [error] set. *)
Theorem nodes_set_exactly_one_field
    (start : result unit)
    (fetch_page_content : str -> result ScrapingResult)
    (extract_from_markdown :
       str -> str -> list Extractor.llm_event * result CompetitorProduct)
    (state : AgentState) :
  let fetched := snd (node_scrape start fetch_page_content state) in
  let extracted := snd (node_extract extract_from_markdown state) in
  exactly_one (is_set (scraped_content fetched)) (is_set (error fetched))
  /\ exactly_one (is_set (product extracted)) (is_set (error extracted)).
Proof.
  cbv zeta. unfold exactly_one, is_set. split.
  - destruct (scrape_cases start fetch_page_content state) as [[e ->] | [text ->]];
      cbn [scraped_content error scrape_failure scrape_success].
    + right. split; [tauto | discriminate].
    + left. split; [discriminate | tauto].
  - destruct (extract_cases extract_from_markdown state)
      as [(msg & -> & ->) | (p & -> & ->)].
    + right. split; [tauto | discriminate].
    + left. split; [discriminate | tauto].
Qed.

(** C10.  When the fetch succeeds with an empty rendering, the gate
    proceeds, the extraction node runs and sets the error to the
    missing-content message without any call into the extraction service,
    and the run ends with that error and no product. *)
Theorem empty_rendering_yields_error
    (fetch_page_content : str -> result ScrapingResult)
    (extract_from_markdown :
       str -> str -> list Extractor.llm_event * result CompetitorProduct)
    (state : AgentState) (page : ScrapingResult) :
  fetch_page_content (url state) = Ok page ->
  Models.clean_text page = [] ->
  let fetched := snd (node_scrape (Ok tt) fetch_page_content state) in
  let run := graph_invoke (Ok tt) fetch_page_content extract_from_markdown state in
  error fetched = None
  /\ scraped_content fetched = Some []
  /\ should_continue fetched = to_extract
  /\ node_extract extract_from_markdown fetched
     = ([], {| url := url state;
               scraped_content := Some [];
               product := None;
               error := Some (lit "Cannot extract: scraped_content is missing") |})
  /\ snd run = snd (node_extract extract_from_markdown fetched)
  /\ fst run = [BrowserStart; FetchPageContent (url state)]
  /\ extraction_calls (fst run) = 0%nat.
Proof.
  intros Hfetch Hempty fetched run. subst fetched run.
  unfold graph_invoke, node_scrape. rewrite Hfetch, Hempty.
  cbn. repeat split.
Qed.

Lemma empty_rendering_yields_error_witness :
  let run := graph_invoke (Ok tt) Samples.fetch_empty Samples.echo_extractor
               Samples.initial_state in
  error (snd run) = Some (lit "Cannot extract: scraped_content is missing")
  /\ product (snd run) = None
  /\ extraction_calls (fst run) = 0%nat.
Proof.
  destruct (empty_rendering_yields_error
              Samples.fetch_empty Samples.echo_extractor Samples.initial_state
              (page := Samples.empty_page) eq_refl eq_refl)
    as (_ & _ & _ & Hnode & Hrun & _ & Hcalls).
  cbv zeta. rewrite Hrun, Hnode. cbn [snd error product].
  split; [reflexivity |]. split; [reflexivity | exact Hcalls].
Defined.

(** Scenario A: a fetch that succeeds and a model that answers; the
    extraction service and the model are each called once. *)
Example test_product_run :
  let run := graph_invoke (Ok tt) Samples.fetch_test_page Samples.echo_extractor
               Samples.initial_state in
  snd run
  = {| url := Samples.example_url;
       scraped_content := Some (lit "# Test Product");
       product := Some (Models.set_url Samples.echo_product Samples.example_url);
       error := None |}
  /\ extraction_calls (fst run) = 2%nat.
Proof. split; reflexivity. Qed.

(** Scenario B: a fetch that raises [Network error]. *)
Example network_error_run :
  snd (graph_invoke (Ok tt) Samples.fetch_fails Samples.echo_extractor
         Samples.initial_state)
  = {| url := Samples.example_url;
       scraped_content := None;
       product := None;
       error := Some (lit "Failed to scrape URL https://example.com: Network error") |}.
Proof. reflexivity. Qed.

End GraphSpec.

(* ===================================================================== *)
(** * Replacement and the file names built with it *)
(* ===================================================================== *)

Module PyStrFacts.

Import PyStr.

Example replace_does_not_overlap :
  replace (lit "aaa") (lit "aa") (lit "b") = lit "ba".
Proof. reflexivity. Qed.

Example replace_empty_pattern :
  replace (lit "abc") [] (lit "-") = lit "-a-b-c-".
Proof. reflexivity. Qed.

Example replace_every_occurrence :
  replace (lit "abcabc") (lit "bc") (lit "XYZ") = lit "aXYZaXYZ".
Proof. reflexivity. Qed.

(** Every item of a replacement comes from the replacement text or from
    the string. *)
Lemma replace_from_items (old new : str) (x : char) :
  forall (s : str) (skip : nat),
    In x (replace_from old new skip s) -> In x new \/ In x s.
Proof.
  induction s as [| c s IH]; intros skip; cbn [replace_from]; [tauto |].
  destruct skip as [| k].
  - destruct (startswith (c :: s) old).
    + rewrite in_app_iff. intros [H | H]; [now left |].
      destruct (IH _ H); [now left | right; now right].
    + intros [-> | H]; [right; now left |].
      destruct (IH _ H); [now left | right; now right].
  - intros H. destruct (IH _ H); [now left | right; now right].
Qed.

Lemma replace_items (s old new : str) (x : char) :
  In x (replace s old new) -> In x new \/ In x s.
Proof.
  unfold replace. destruct old as [| o old].
  - rewrite in_app_iff, in_flat_map. intros [H | (c & Hc & [-> | H])]; auto.
  - apply replace_from_items.
Qed.

(** Replacing a single character removes it, unless the replacement
    brings it back. *)
Lemma replace_from_char_gone (c : char) (new : str) :
  ~ In c new ->
  forall (s : str) (skip : nat), ~ In c (replace_from [c] new skip s).
Proof.
  intros Hnew. induction s as [| d s IH]; intros skip; cbn [replace_from]; [tauto |].
  destruct skip as [| k]; [| apply IH].
  cbn [startswith]. destruct (N.eqb_spec c d) as [-> | Hne].
  - replace (startswith s []) with true by now destruct s.
    cbn [andb length Nat.pred]. rewrite in_app_iff. intros [H | H]; [tauto |].
    now apply IH in H.
  - cbn [andb]. intros [H | H]; [congruence | now apply IH in H].
Qed.

Lemma replace_char_gone (s : str) (c : char) (new : str) :
  ~ In c new -> ~ In c (replace s [c] new).
Proof. intros H. unfold replace. now apply replace_from_char_gone. Qed.

Lemma slice_to_items (A : Type) (s : list A) (stop : Z) (x : A) :
  In x (slice_to s stop) -> In x s.
Proof.
  unfold slice_to. intros H.
  rewrite <- (firstn_skipn (Z.to_nat (clamp (len s) stop)) s).
  apply in_or_app. now left.
Qed.

Lemma slice_to_len (A : Type) (s : list A) (stop : Z) :
  0 <= stop -> len (slice_to s stop) <= stop.
Proof.
  intros H. unfold slice_to, clamp, len.
  destruct (Z.ltb_spec stop 0); [lia |]. rewrite length_firstn. lia.
Qed.

Lemma underscore_is_no_slash : ~ In slash (lit "_").
Proof. cbn. intros [H | []]. discriminate. Qed.

Lemma underscore_is_no_space : ~ In space (lit "_").
Proof. cbn. intros [H | []]. discriminate. Qed.

Lemma safe_url_facts (url : str) :
  len (Browser.safe_url url) <= 50 /\ ~ In slash (Browser.safe_url url).
Proof.
  unfold Browser.safe_url. split; [apply slice_to_len; lia |].
  intros H. apply slice_to_items in H.
  revert H. apply replace_char_gone, underscore_is_no_slash.
Qed.

(** X2.  The name [fetch_page_content] and [_save_error_screenshot] make
    of a URL has at most 50 characters and no slash in it, whatever the
    URL. *)
Theorem safe_url_is_a_file_name (url : str) :
  len (Browser.safe_url url) <= 50 /\ ~ In slash (Browser.safe_url url).
Proof. apply safe_url_facts. Qed.

Example safe_url_of_pricing_page :
  Browser.safe_url MoreSamples.pricing_url = lit "example.com_pricing".
Proof. reflexivity. Qed.

(** X3.  A screenshot is written directly under [logs]: the name after
    [logs/] has no slash when the timestamp has none, and at most 55
    characters besides prefix and timestamp. *)
Theorem screenshot_file_in_logs (prefix url timestamp : str) :
  ~ In slash prefix -> ~ In slash timestamp ->
  exists name,
    Browser.screenshot_file prefix url timestamp = lit "logs/" ++ name
    /\ ~ In slash name
    /\ len name <= len prefix + len timestamp + 55.
Proof.
  intros Hp Ht. unfold Browser.screenshot_file.
  exists (prefix ++ Browser.safe_url url ++ lit "_" ++ timestamp ++ lit ".png").
  destruct (safe_url_facts url) as [Hlen Hno].
  split; [reflexivity |]. split.
  - rewrite !in_app_iff. intros [H | [H | [H | [H | H]]]]; try tauto.
    + now apply underscore_is_no_slash in H.
    + cbn in H. repeat (destruct H as [H | H]; [discriminate |]). destruct H.
  - rewrite !PyFacts.len_app. change (len (lit "_")) with 1.
    change (len (lit ".png")) with 4. lia.
Qed.

Lemma screenshot_file_in_logs_witness :
  exists name,
    Browser.screenshot_file (lit "error_") MoreSamples.pricing_url
      (lit "20240101_120000")
    = lit "logs/" ++ name
    /\ ~ In slash name
    /\ len name <= len (lit "error_") + len (lit "20240101_120000") + 55.
Proof.
  apply (screenshot_file_in_logs (lit "error_") MoreSamples.pricing_url
           (lit "20240101_120000")).
  - cbn. intros H. repeat (destruct H as [H | H]; [discriminate |]). destruct H.
  - cbn. intros H. repeat (destruct H as [H | H]; [discriminate |]). destruct H.
Defined.

(** X4.  The default report name of the command line has no space and no
    slash in it, whatever the product is called. *)
Theorem safe_name_has_no_space_or_slash (product_name : str) :
  ~ In space (Cli.safe_name product_name)
  /\ ~ In slash (Cli.safe_name product_name).
Proof.
  unfold Cli.safe_name. split.
  - intros H. apply replace_items in H. destruct H as [H | H].
    + now apply underscore_is_no_space in H.
    + revert H. apply replace_char_gone, underscore_is_no_space.
  - apply replace_char_gone, underscore_is_no_slash.
Qed.

End PyStrFacts.

(* ===================================================================== *)
(** * More on the truncation and the scroll loop *)
(* ===================================================================== *)

Module TruncationMore.

Import Extractor PyFacts ExtractorSpec.

(** On the split branch the output has 48,031 characters. *)
Lemma truncate_split_len
    (token : Type) (encode : str -> list token) (text : str) :
  MAX_TOKENS < _count_tokens encode text ->
  TRUNCATE_CHARS < len text ->
  len (_truncate_content encode text) = 48031.
Proof.
  intros Ht Hc. rewrite truncate_split_branch by assumption.
  rewrite truncate_chars_value in Hc.
  destruct (@head_middle_tail char text keep_chars) as (middle & _ & Hh & Hl & _);
    [rewrite keep_chars_value; lia | rewrite keep_chars_value; lia |].
  rewrite !len_app, Hh, Hl, elision_separator_len, keep_chars_value. reflexivity.
Qed.

(** A text of at most 60,000 characters passes unchanged, whatever its
    token count. *)
Lemma truncate_within_chars
    (token : Type) (encode : str -> list token) (text : str) :
  len text <= TRUNCATE_CHARS -> _truncate_content encode text = text.
Proof.
  intros Hc. destruct (Z.le_gt_cases (_count_tokens encode text) MAX_TOKENS).
  - now apply truncate_within.
  - rewrite truncate_prefix_branch by lia. now apply slice_to_all.
Qed.

(** X5.  Truncating twice is truncating once, for every tokenizer. *)
Theorem truncate_is_idempotent
    (token : Type) (encode : str -> list token) (text : str) :
  _truncate_content encode (_truncate_content encode text)
  = _truncate_content encode text.
Proof.
  destruct (Z.le_gt_cases (_count_tokens encode text) MAX_TOKENS) as [Hw | Ho].
  - now rewrite !(truncate_within encode text Hw).
  - destruct (Z.le_gt_cases (len text) TRUNCATE_CHARS) as [Hc | Hc].
    + now rewrite !(truncate_within_chars encode text Hc).
    + apply truncate_within_chars. rewrite truncate_split_len by lia.
      rewrite truncate_chars_value. lia.
Qed.

(** X6.  The output is never longer than the input, and a text over the
    token ceiling leaves with at most 60,000 characters. *)
Theorem truncate_never_lengthens
    (token : Type) (encode : str -> list token) (text : str) :
  len (_truncate_content encode text) <= len text
  /\ (15000 < _count_tokens encode text ->
      len (_truncate_content encode text) <= 60000).
Proof.
  destruct (Z.le_gt_cases (_count_tokens encode text) MAX_TOKENS) as [Hw | Ho].
  - rewrite (truncate_within encode text Hw). split; [lia |].
    unfold MAX_TOKENS in Hw. lia.
  - destruct (Z.le_gt_cases (len text) TRUNCATE_CHARS) as [Hc | Hc].
    + rewrite truncate_prefix_branch, slice_to_all by lia.
      rewrite truncate_chars_value in Hc. split; lia.
    + rewrite truncate_split_len by lia.
      rewrite truncate_chars_value in Hc. split; lia.
Qed.

End TruncationMore.

Module CrawlerMore.

Import Crawler CrawlerSpec.

(** X7.  With any bound [max_scrolls] the loop scrolls to the bottom at
    most that many times, once per iteration, and ends with the scroll to
    the top and the pause; with a bound of zero or less it does nothing
    else. *)
Theorem auto_scroll_respects_max_scrolls
    (Page : Type) (scrollHeight : Page -> Z * Page)
    (scrollTo : scroll_target -> Page -> Page)
    (sleep : float -> Page -> Page) (max_scrolls : Z) (page : Page) :
  let log :=
    snd (snd (_auto_scroll scrollHeight scrollTo sleep max_scrolls (page, []))) in
  (scrolls_to_bottom log <= Z.to_nat max_scrolls)%nat
  /\ (exists iterations,
        log = flat_map iteration iterations ++ [ScrollTo Top; Sleep 0.5%float]
        /\ length iterations = scrolls_to_bottom log)
  /\ (max_scrolls <= 0 -> log = [ScrollTo Top; Sleep 0.5%float]).
Proof.
  destruct (scroll_loop_log scrollHeight scrollTo sleep (Z.to_nat max_scrolls) page [])
    as (changing & last & page' & Hrun & _ & _ & Hlen).
  assert (Hlog : snd (snd (_auto_scroll scrollHeight scrollTo sleep max_scrolls (page, [])))
                 = flat_map iteration (changing ++ last)
                   ++ [ScrollTo Top; Sleep 0.5%float]).
  { unfold _auto_scroll, bind. rewrite Hrun.
    unfold evaluate_scrollTo, asyncio_sleep. cbn [fst snd app].
    rewrite flat_map_app, <- !app_assoc. reflexivity. }
  cbv zeta. rewrite Hlog.
  assert (Hcount : scrolls_to_bottom
                     (flat_map iteration (changing ++ last)
                      ++ [ScrollTo Top; Sleep 0.5%float])
                   = length (changing ++ last)).
  { rewrite scrolls_app, scrolls_of_iterations. cbn. lia. }
  rewrite Hcount, length_app. split; [| split].
  - destruct Hlen as [[-> <-] | [-> Hlt]]; cbn; lia.
  - exists (changing ++ last). split; [reflexivity |]. now rewrite length_app.
  - intros Hle. replace (Z.to_nat max_scrolls) with 0%nat in Hlen by lia.
    destruct Hlen as [[-> Hz] | [_ Hlt]]; [| lia].
    destruct changing; [reflexivity | discriminate].
Qed.

End CrawlerMore.

(* ===================================================================== *)
(** * The browser service *)
(* ===================================================================== *)

Module BrowserSpec.

Import PyStr Browser.

(** ** Which calls a method makes *)

Section FootprintRules.

Variable W : Type.
Variable K : call -> bool.

Lemma bottom_scrolls_app (l1 l2 : list (call * bool)) :
  bottom_scrolls (l1 ++ l2) = (bottom_scrolls l1 + bottom_scrolls l2)%nat.
Proof. unfold bottom_scrolls, calls_of. now rewrite map_app, filter_app, length_app. Qed.

Lemma calls_all_app (l1 l2 : list (call * bool)) :
  forallb K (calls_of (l1 ++ l2))
  = forallb K (calls_of l1) && forallb K (calls_of l2).
Proof. unfold calls_of. now rewrite map_app, forallb_app. Qed.

Lemma fp_weaken (n n' : nat) (A : Type) (m : Eff W A) :
  (n <= n')%nat -> footprint K n m -> footprint K n' m.
Proof.
  intros Hn H s. destruct (H s) as (l & Hl & Hk & Hb).
  exists l. repeat split; auto; lia.
Qed.

Lemma fp_ret (A : Type) (a : A) : footprint K 0 (ret (W:=W) a).
Proof. intros s. exists []. cbn. now rewrite app_nil_r. Qed.

Lemma fp_raise (A : Type) (e : exc) : footprint K 0 (raise (W:=W) (A:=A) e).
Proof. intros s. exists []. cbn. now rewrite app_nil_r. Qed.

Lemma fp_bind (n1 n2 : nat) (A B : Type) (m : Eff W A) (k : A -> Eff W B) :
  footprint K n1 m -> (forall a, footprint K n2 (k a)) ->
  footprint K (n1 + n2) (bind m k).
Proof.
  intros Hm Hk s. unfold bind.
  destruct (Hm s) as (l1 & Hl1 & Hk1 & Hb1).
  destruct (m s) as [[a | e] s1]; cbn [snd] in *.
  - destruct (Hk a s1) as (l2 & Hl2 & Hk2 & Hb2).
    exists (l1 ++ l2).
    rewrite Hl2, Hl1, app_assoc, calls_all_app, bottom_scrolls_app, Hk1, Hk2.
    repeat split; lia.
  - exists l1. repeat split; auto; lia.
Qed.

Lemma fp_try_except (n1 n2 : nat) (A : Type) (m : Eff W A) (h : exc -> Eff W A) :
  footprint K n1 m -> (forall e, footprint K n2 (h e)) ->
  footprint K (n1 + n2) (try_except m h).
Proof.
  intros Hm Hh s. unfold try_except.
  destruct (Hm s) as (l1 & Hl1 & Hk1 & Hb1).
  destruct (m s) as [[a | e] s1]; cbn [snd] in *.
  - exists l1. repeat split; auto; lia.
  - destruct (Hh e s1) as (l2 & Hl2 & Hk2 & Hb2).
    exists (l1 ++ l2).
    rewrite Hl2, Hl1, app_assoc, calls_all_app, bottom_scrolls_app, Hk1, Hk2.
    repeat split; lia.
Qed.

Lemma fp_try_finally (n1 n2 : nat) (A : Type) (m : Eff W A) (f : Eff W unit) :
  footprint K n1 m -> footprint K n2 f ->
  footprint K (n1 + n2) (try_finally m f).
Proof.
  intros Hm Hf s. unfold try_finally.
  destruct (Hm s) as (l1 & Hl1 & Hk1 & Hb1).
  destruct (m s) as [r s1]; cbn [snd] in *.
  destruct (Hf s1) as (l2 & Hl2 & Hk2 & Hb2).
  exists (l1 ++ l2).
  destruct (f s1) as [[[] | e] s2]; cbn [snd] in *;
    rewrite Hl2, Hl1, app_assoc, calls_all_app, bottom_scrolls_app, Hk1, Hk2;
    repeat split; lia.
Qed.

Lemma fp_perform (A : Type) (c : call) (op : W -> result A * W) :
  K c = true ->
  footprint K (if is_scroll_bottom c then 1 else 0) (perform c op).
Proof.
  intros Hc s. unfold perform. destruct (op (world s)) as [r w]. cbn [snd log].
  exists [(c, is_ok r)]. split; [reflexivity |]. split.
  - cbn. now rewrite Hc.
  - unfold bottom_scrolls. cbn. destruct (is_scroll_bottom c); cbn; lia.
Qed.

Lemma fp_perform_total (A : Type) (c : call) (op : W -> A * W) :
  K c = true ->
  footprint K (if is_scroll_bottom c then 1 else 0) (perform_total c op).
Proof. intros Hc. unfold perform_total. now apply fp_perform. Qed.

Lemma fp_self (n : nat) (A : Type) (k : BrowserService -> Eff W A) :
  (forall b, footprint K n (k b)) -> footprint K n (self k).
Proof. intros H s. unfold self. apply H. Qed.

Lemma fp_local_page (n : nat) (A : Type) (k : option handle -> Eff W A) :
  (forall p, footprint K n (k p)) -> footprint K n (local_page k).
Proof. intros H s. unfold local_page. apply H. Qed.

Lemma fp_update (f : BrowserService -> BrowserService) :
  footprint K 0 (update (W:=W) f).
Proof. intros s. exists []. cbn. now rewrite app_nil_r. Qed.

Lemma fp_set_page (v : option handle) : footprint K 0 (set_page (W:=W) v).
Proof. intros s. exists []. cbn. now rewrite app_nil_r. Qed.

Lemma kp_ret (A : Type) (a : A) : keeps_page (ret (W:=W) a).
Proof. intros s. reflexivity. Qed.

Lemma kp_raise (A : Type) (e : exc) : keeps_page (raise (W:=W) (A:=A) e).
Proof. intros s. reflexivity. Qed.

Lemma kp_bind (A B : Type) (m : Eff W A) (k : A -> Eff W B) :
  keeps_page m -> (forall a, keeps_page (k a)) -> keeps_page (bind m k).
Proof.
  intros Hm Hk s. unfold bind. specialize (Hm s).
  destruct (m s) as [[a | e] s1]; cbn [snd] in *; [| exact Hm].
  now rewrite Hk.
Qed.

Lemma kp_try_except (A : Type) (m : Eff W A) (h : exc -> Eff W A) :
  keeps_page m -> (forall e, keeps_page (h e)) -> keeps_page (try_except m h).
Proof.
  intros Hm Hh s. unfold try_except. specialize (Hm s).
  destruct (m s) as [[a | e] s1]; cbn [snd] in *; [exact Hm |].
  now rewrite Hh.
Qed.

Lemma kp_perform (A : Type) (c : call) (op : W -> result A * W) :
  keeps_page (perform c op).
Proof. intros s. unfold perform. now destruct (op (world s)). Qed.

Lemma kp_perform_total (A : Type) (c : call) (op : W -> A * W) :
  keeps_page (perform_total c op).
Proof. apply kp_perform. Qed.

Lemma kp_self (A : Type) (k : BrowserService -> Eff W A) :
  (forall b, keeps_page (k b)) -> keeps_page (self k).
Proof. intros H s. apply H. Qed.

Lemma kp_local_page (A : Type) (k : option handle -> Eff W A) :
  (forall p, keeps_page (k p)) -> keeps_page (local_page k).
Proof. intros H s. unfold local_page. apply H. Qed.

Lemma kp_update (f : BrowserService -> BrowserService) :
  keeps_page (update (W:=W) f).
Proof. intros s. reflexivity. Qed.

Lemma no_call_in (l : list (call * bool)) (c : call) (ok : bool) :
  forallb K (calls_of l) = true -> K c = false -> ~ In (c, ok) l.
Proof.
  intros Hall Hc Hin. unfold calls_of in Hall.
  rewrite forallb_forall in Hall.
  specialize (Hall c (in_map fst _ _ Hin)). cbn in Hall. congruence.
Qed.

End FootprintRules.

(** The footprint of a method built from calls of kind [K], none of
    which scrolls. *)
Ltac fpk K HK :=
  repeat first
    [ apply fp_ret | apply fp_raise | apply fp_update | apply fp_set_page
    | apply fp_perform; apply HK; reflexivity
    | apply fp_perform_total; apply HK; reflexivity
    | apply (@fp_bind _ K 0 0)
    | apply (@fp_try_except _ K 0 0)
    | apply (@fp_try_finally _ K 0 0)
    | apply fp_self | apply fp_local_page
    | match goal with |- forall _, _ => intro end
    | match goal with
      | |- footprint _ _ (match ?o with Some _ => _ | None => _ end) => destruct o
      end ].

Ltac kp :=
  repeat first
    [ apply kp_ret | apply kp_raise | apply kp_update
    | apply kp_perform | apply kp_perform_total
    | apply kp_bind | apply kp_try_except | apply kp_self | apply kp_local_page
    | match goal with |- forall _, _ => intro end
    | match goal with
      | |- keeps_page (match ?o with Some _ => _ | None => _ end) => destruct o
      | |- keeps_page (if ?b then _ else _) => destruct b
      end ].

Section Footprints.

Variable W : Type.
Variable drv : Driver W.
Variable K : call -> bool.

Section Setup.

Hypothesis HK : forall c, is_setup_call c = true -> K c = true.

Lemma fp_start : footprint K 0 (start drv).
Proof. unfold start, set_playwright, set_browser. fpk K HK. Qed.

Lemma fp_create_context : footprint K 0 (_create_context drv).
Proof.
  unfold _create_context, _get_random_user_agent.
  apply (@fp_bind _ K 0 0).
  - apply fp_self. intros b. destruct (browser b); [apply fp_ret | apply fp_start].
  - fpk K HK.
Qed.

End Setup.

Section Scroll.

Hypothesis HK : forall c, is_scroll_call c = true -> K c = true.

Lemma fp_sleep (seconds : float) : footprint K 0 (asyncio_sleep drv seconds).
Proof. unfold asyncio_sleep. fpk K HK. Qed.

Lemma fp_scroll_loop (page : handle) (n : nat) :
  footprint K n (scroll_loop drv page n).
Proof.
  induction n as [| n IH]; cbn [scroll_loop]; [apply fp_ret |].
  change (S n) with (0 + (1 + (0 + (0 + n))))%nat.
  apply fp_bind; [apply fp_perform; apply HK; reflexivity | intros previous_height].
  apply fp_bind;
    [apply (@fp_perform _ K _ (CScrollTo page Crawler.Bottom)); apply HK; reflexivity
    | intros _].
  apply fp_bind; [apply fp_sleep | intros _].
  apply fp_bind; [apply fp_perform; apply HK; reflexivity | intros new_height].
  destruct (previous_height =? new_height); [| exact IH].
  apply fp_weaken with (n := 0%nat); [lia | apply fp_ret].
Qed.

Lemma fp_auto_scroll (page : handle) (max_scrolls : Z) :
  footprint K (Z.to_nat max_scrolls) (_auto_scroll drv page max_scrolls).
Proof.
  unfold _auto_scroll.
  apply fp_weaken with (n := (Z.to_nat max_scrolls + (0 + 0))%nat); [lia |].
  apply fp_bind; [apply fp_scroll_loop | intros _].
  apply fp_bind;
    [apply (@fp_perform _ K _ (CScrollTo page Crawler.Top)); apply HK; reflexivity
    | intros _].
  apply fp_sleep.
Qed.

End Scroll.

Section Diagnostic.

Hypothesis HK : forall c, is_diagnostic_call c = true -> K c = true.

Lemma fp_save_error_screenshot (page : handle) (url : str) :
  footprint K 0 (_save_error_screenshot drv page url).
Proof. unfold _save_error_screenshot. fpk K HK. Qed.

Lemma fp_fetch_handler (url : str) (e : exc) :
  footprint K 0 (fetch_handler drv url e).
Proof.
  unfold fetch_handler.
  apply (@fp_bind _ K 0 0); [| intros _; apply fp_raise].
  apply fp_local_page. intros [p |]; [| apply fp_ret].
  apply (@fp_bind _ K 0 0);
    [apply fp_save_error_screenshot | intros _; apply fp_ret].
Qed.

End Diagnostic.

Section Cleanup.

Hypothesis HK : forall c, is_page_close c = true -> K c = true.

Lemma fp_fetch_cleanup : footprint K 0 (fetch_cleanup drv).
Proof.
  unfold fetch_cleanup. apply fp_local_page. intros [p |]; [| apply fp_ret].
  intros s. destruct (negb (page_is_closed drv p (world s))).
  - revert s. fpk K HK.
  - apply fp_ret.
Qed.

End Cleanup.

Section Whole.

Hypothesis HK : forall c, is_context_close c = false -> K c = true.

Lemma fp_fetch_body (url : str) (timeout : Z) :
  footprint K 10 (fetch_body drv url timeout).
Proof.
  unfold fetch_body, set_context.
  apply (@fp_bind _ K 0 10);
    [apply fp_create_context; intros c Hc; apply HK; now destruct c | intros ctx].
  apply (@fp_bind _ K 0 10); [fpk K HK | intros _].
  apply (@fp_bind _ K 0 10); [fpk K HK | intros page].
  apply (@fp_bind _ K 0 10); [fpk K HK | intros _].
  apply (@fp_bind _ K 0 10); [fpk K HK | intros _].
  apply (@fp_bind _ K 10 0);
    [apply (fp_auto_scroll (fun c Hc => HK c ltac:(now destruct c)) page 10)
    | intros _].
  apply (@fp_bind _ K 0 0);
    [apply fp_sleep; intros c Hc; apply HK; now destruct c | intros _].
  fpk K HK.
Qed.

Lemma fp_fetch_page_content (url : str) (timeout : Z) :
  footprint K 10 (fetch_page_content drv url timeout).
Proof.
  unfold fetch_page_content.
  apply (@fp_bind _ K 0 10); [apply fp_set_page | intros _].
  apply (@fp_try_finally _ K 10 0);
    [| apply fp_fetch_cleanup; intros c Hc; apply HK; now destruct c].
  apply (@fp_try_except _ K 10 0);
    [apply fp_fetch_body
    | intros e; apply fp_fetch_handler; intros c Hc; apply HK; now destruct c].
Qed.

End Whole.

Lemma kp_start : keeps_page (start drv).
Proof. unfold start, set_playwright, set_browser. kp. Qed.

Lemma kp_create_context : keeps_page (_create_context drv).
Proof.
  unfold _create_context, _get_random_user_agent.
  apply kp_bind;
    [apply kp_self; intros b; destruct (browser b); [apply kp_ret | apply kp_start] |].
  kp.
Qed.

Lemma kp_scroll_loop (page : handle) (n : nat) :
  keeps_page (scroll_loop drv page n).
Proof.
  induction n as [| n IH]; cbn [scroll_loop]; [apply kp_ret |].
  unfold asyncio_sleep.
  do 4 (apply kp_bind; [kp | intro]).
  destruct (_ =? _); [apply kp_ret | exact IH].
Qed.

Lemma kp_auto_scroll (page : handle) (max_scrolls : Z) :
  keeps_page (_auto_scroll drv page max_scrolls).
Proof.
  unfold _auto_scroll, asyncio_sleep.
  apply kp_bind; [apply kp_scroll_loop | kp].
Qed.

Lemma kp_save_error_screenshot (page : handle) (url : str) :
  keeps_page (_save_error_screenshot drv page url).
Proof. unfold _save_error_screenshot. kp. Qed.

Lemma kp_fetch_handler (url : str) (e : exc) :
  keeps_page (fetch_handler drv url e).
Proof.
  unfold fetch_handler. apply kp_bind; [| intros _; apply kp_raise].
  apply kp_local_page. intros [p |]; [| apply kp_ret].
  apply kp_bind; [apply kp_save_error_screenshot | intros _; apply kp_ret].
Qed.

End Footprints.

(** ** start and close *)

Section Lifecycle.

Variable W : Type.
Variable drv : Driver W.

Lemma start_started (s : St W) :
  playwright (this s) <> None -> start drv s = (Ok tt, s).
Proof.
  intros H. unfold start, self.
  destruct (playwright (this s)); [reflexivity | congruence].
Qed.

(** X8.  After a [start()] that returned the service has a driver, and a
    browser process if it had no driver before; a further [start()]
    returns without a call and changes nothing. *)
Theorem start_is_idempotent (s : St W) :
  fst (start drv s) = Ok tt ->
  playwright (this (snd (start drv s))) <> None
  /\ (playwright (this s) = None -> browser (this (snd (start drv s))) <> None)
  /\ start drv (snd (start drv s)) = (Ok tt, snd (start drv s)).
Proof.
  intros Hok.
  assert (Hp : playwright (this (snd (start drv s))) <> None
               /\ (playwright (this s) = None
                   -> browser (this (snd (start drv s))) <> None)).
  { revert Hok.
    unfold start, self, bind, perform, set_playwright, set_browser, update, ret.
    destruct (playwright (this s)) as [d |] eqn:Hd; cbn.
    - intros _. rewrite Hd. split; discriminate.
    - destruct (playwright_start drv (world s)) as [[d | e] w1]; cbn;
        [| discriminate].
      destruct (chromium_launch drv d (headless_mode (this s)) w1)
        as [[p | e] w2]; cbn; [| discriminate].
      intros _. split; discriminate. }
  destruct Hp as [Hp Hb]. split; [exact Hp |]. split; [exact Hb |].
  now apply start_started.
Qed.

(** X9.  When the driver starts and the launch of the browser fails,
    [start()] raises the launch failure and leaves the service with the
    driver and without a browser; a further [start()] then returns
    without launching anything. *)
Theorem launch_failure_leaves_driver
    (s : St W) (d : handle) (e : exc) (w1 w2 : W) :
  playwright (this s) = None ->
  playwright_start drv (world s) = (Ok d, w1) ->
  chromium_launch drv d (headless_mode (this s)) w1 = (Raise e, w2) ->
  fst (start drv s) = Raise e
  /\ playwright (this (snd (start drv s))) = Some d
  /\ browser (this (snd (start drv s))) = browser (this s)
  /\ start drv (snd (start drv s)) = (Ok tt, snd (start drv s)).
Proof.
  intros Hnone Hstart Hlaunch.
  assert (H : start drv s
              = (Raise e,
                 {| this := {| headless_mode := headless_mode (this s);
                               playwright := Some d;
                               browser := browser (this s);
                               context := context (this s) |};
                    page_var := page_var s; world := w2;
                    log := (log s ++ [(CPlaywrightStart, true)])
                           ++ [(CChromiumLaunch d (headless_mode (this s)), false)] |})).
  { unfold start, self, bind, perform, set_playwright, update.
    rewrite Hnone. cbn. rewrite Hstart. cbn. rewrite Hlaunch. reflexivity. }
  rewrite H. cbn [fst snd this playwright browser].
  split; [reflexivity |]. split; [reflexivity |]. split; [reflexivity |].
  apply start_started. cbn. discriminate.
Qed.

(** X10.  A [close()] that returned has closed what the service held, and
    nothing else: the context, then the browser, then the driver, each
    once.  All three fields are unset, and a further [close()] makes no
    call. *)
Theorem close_tears_down_in_order (s : St W) :
  fst (close drv s) = Ok tt ->
  playwright (this (snd (close drv s))) = None
  /\ browser (this (snd (close drv s))) = None
  /\ context (this (snd (close drv s))) = None
  /\ log (snd (close drv s))
     = log s ++ map (fun c => (c, true)) (teardown_calls (this s))
  /\ close drv (snd (close drv s)) = (Ok tt, snd (close drv s)).
Proof.
  destruct s as [[hm pw br cx] pv w lg].
  unfold close, bind, self, perform, set_context, set_browser, set_playwright,
    update, ret, teardown_calls.
  destruct cx as [c |]; destruct br as [b |]; destruct pw as [d |]; cbn;
    repeat (match goal with
            | |- context [context_close drv ?c ?w] =>
                destruct (context_close drv c w) as [[[] | ?] ?]
            | |- context [browser_close drv ?c ?w] =>
                destruct (browser_close drv c w) as [[[] | ?] ?]
            | |- context [playwright_stop drv ?c ?w] =>
                destruct (playwright_stop drv c w) as [[[] | ?] ?]
            end; cbn);
    intros H; try discriminate; rewrite <- ?app_assoc, ?app_nil_r; cbn [app];
    repeat split; reflexivity.
Qed.

(** How far [close()] gets. *)
Lemma close_cases (s : St W) :
  (fst (close drv s) = Ok tt
   /\ teardown_calls (this (snd (close drv s))) = []
   /\ log (snd (close drv s))
      = log s ++ map (fun c => (c, true)) (teardown_calls (this s)))
  \/ (exists e done c rest,
        fst (close drv s) = Raise e
        /\ teardown_calls (this s) = done ++ c :: rest
        /\ log (snd (close drv s))
           = log s ++ map (fun c => (c, true)) done ++ [(c, false)]
        /\ teardown_calls (this (snd (close drv s))) = c :: rest).
Proof.
  destruct s as [[hm pw br cx] pv w lg].
  unfold close, bind, self, perform, set_context, set_browser, set_playwright,
    update, ret, teardown_calls.
  destruct cx as [c |]; destruct br as [b |]; destruct pw as [d |]; cbn;
    repeat (match goal with
            | |- context [context_close drv ?c ?w] =>
                destruct (context_close drv c w) as [[[] | ?] ?]
            | |- context [browser_close drv ?c ?w] =>
                destruct (browser_close drv c w) as [[[] | ?] ?]
            | |- context [playwright_stop drv ?c ?w] =>
                destruct (playwright_stop drv c w) as [[[] | ?] ?]
            end; cbn);
    rewrite <- ?app_assoc, ?app_nil_r; cbn [app];
    first
      [ left; repeat split; reflexivity
      | right; eexists _, [], _, _; repeat split; reflexivity
      | right; eexists _, [_], _, _; repeat split; reflexivity
      | right; eexists _, [_; _], _, _; repeat split; reflexivity ].
Qed.

(** X11.  A [close()] that raises stops at the first closing call that
    failed: what came before it is closed and unset, the resource whose
    closing failed and those after it stay on the service, so that a
    later [close()] starts again with the call that failed. *)
Theorem close_failure_keeps_the_rest (s : St W) (e : exc) :
  fst (close drv s) = Raise e ->
  exists done c rest,
    teardown_calls (this s) = done ++ c :: rest
    /\ log (snd (close drv s))
       = log s ++ map (fun c => (c, true)) done ++ [(c, false)]
    /\ teardown_calls (this (snd (close drv s))) = c :: rest.
Proof.
  intros Hraise.
  destruct (close_cases s) as [[Hok _] | (e' & done & c & rest & _ & H)].
  - congruence.
  - now exists done, c, rest.
Qed.

End Lifecycle.

(** ** fetch_page_content *)

Section Fetch.

Variable W : Type.
Variable drv : Driver W.

Lemma save_error_screenshot_returns (page : handle) (url : str) (s : St W) :
  exists o, fst (_save_error_screenshot drv page url s) = Ok o.
Proof.
  unfold _save_error_screenshot, try_except, bind, perform_total, perform, ret.
  destruct (mkdir_logs drv (world s)) as [[[] | e] w1]; cbn; [| now eexists].
  destruct (now_strftime drv w1) as [ts w2]; cbn.
  destruct (screenshot drv page _ w2) as [[[] | e] w3]; cbn; now eexists.
Qed.

Lemma fetch_handler_raises (url : str) (e : exc) (s : St W) :
  fst (fetch_handler drv url e s) = Raise (fetch_error drv url e).
Proof.
  unfold fetch_handler, bind, local_page.
  destruct (page_var s) as [p |]; [| reflexivity].
  destruct (save_error_screenshot_returns p url s) as [o Ho].
  destruct (_save_error_screenshot drv p url s) as [r s1]. cbn in Ho. subst r.
  reflexivity.
Qed.

Lemma fetch_cleanup_returns (s : St W) : fst (fetch_cleanup drv s) = Ok tt.
Proof.
  unfold fetch_cleanup, local_page, try_except, perform, ret.
  destruct (page_var s) as [p |]; [| reflexivity].
  destruct (page_is_closed drv p (world s)); cbn; [reflexivity |].
  now destruct (page_close drv p (world s)) as [[[] | e] w1].
Qed.

(** The outcome of a fetch is that of its [try] block, a failure
    wrapped. *)
Lemma fetch_outcome (url : str) (timeout : Z) (s : St W) :
  fst (fetch_page_content drv url timeout s)
  = match fst (fetch_body drv url timeout (entered s)) with
    | Ok r => Ok r
    | Raise e => Raise (fetch_error drv url e)
    end.
Proof.
  unfold fetch_page_content, bind, set_page, try_finally, try_except.
  change {| this := this s; page_var := None; world := world s; log := log s |}
    with (entered s).
  destruct (fetch_body drv url timeout (entered s)) as [[r | e] s1].
  - pose proof (fetch_cleanup_returns s1) as Hc.
    destruct (fetch_cleanup drv s1) as [rc s2]. cbn in Hc. subst rc. reflexivity.
  - pose proof (fetch_handler_raises url e s1) as Hh.
    destruct (fetch_handler drv url e s1) as [rh s2]. cbn in Hh. subst rh.
    pose proof (fetch_cleanup_returns s2) as Hc.
    destruct (fetch_cleanup drv s2) as [rc s3]. cbn in Hc. subst rc. reflexivity.
Qed.

Lemma fetch_state (url : str) (timeout : Z) (s : St W) :
  snd (fetch_page_content drv url timeout s)
  = let (r, s1) := fetch_body drv url timeout (entered s) in
    match r with
    | Ok _ => snd (fetch_cleanup drv s1)
    | Raise e => snd (fetch_cleanup drv (snd (fetch_handler drv url e s1)))
    end.
Proof.
  unfold fetch_page_content, bind, set_page, try_finally, try_except.
  change {| this := this s; page_var := None; world := world s; log := log s |}
    with (entered s).
  destruct (fetch_body drv url timeout (entered s)) as [[r | e] s1].
  - now destruct (fetch_cleanup drv s1) as [[[] | ?] ?].
  - destruct (fetch_handler drv url e s1) as [rh s2]. cbn [snd].
    now destruct (fetch_cleanup drv s2) as [[[] | ?] ?].
Qed.

(** X12.  Whatever goes wrong inside a fetch, and whatever goes wrong
    while the error screenshot is taken or the page is closed, the caller
    sees one exception of class [Exception] whose cause is the first
    failure of the [try] block and whose message names the URL and that
    failure, as a timeout or as an error. *)
Theorem fetch_failure_is_wrapped
    (url : str) (timeout : Z) (b : BrowserService) (w : W) (f : exc) :
  fst (call_on (fetch_page_content drv url timeout) b w) = Raise f ->
  exists e,
    fst (call_on (fetch_body drv url timeout) b w) = Raise e
    /\ exc_cls f = OtherException
    /\ exc_cause f = Some e
    /\ exc_message f
       = (if is_timeout drv e then lit "Timeout while fetching "
          else lit "Error fetching content from ")
         ++ url ++ lit ": " ++ exc_message e.
Proof.
  unfold call_on. rewrite fetch_outcome. unfold entered. cbn [this world log].
  destruct (fetch_body drv url timeout _) as [[r | e] s1]; cbn [fst];
    [discriminate |].
  intros [= <-]. exists e. split; [reflexivity |].
  unfold fetch_error. destruct (is_timeout drv e); cbn; repeat split; reflexivity.
Qed.

End Fetch.

(** One step of a run of the [try] block: the outcome of the call at the
    head is named, [_create_context] and [_auto_scroll] by what they may
    log and that they keep the local [page]. *)
Ltac run_op drv :=
  first
    [ match goal with
      | |- context [match ?r with Ok _ => _ | Raise _ => _ end] =>
          is_var r; destruct r
      end
    | match goal with
      | |- context [_create_context drv ?s] =>
          let H := fresh "Hctx" in
          let Hk := fresh "Hsetup" in
          let Hp := fresh "Hpage" in
          destruct (@fp_create_context _ drv is_setup_call (fun c H => H) s)
            as (? & H & Hk & _);
          pose proof (kp_create_context drv s) as Hp;
          destruct (_create_context drv s) as [? ?] eqn:?
      | |- context [_auto_scroll drv ?p ?n ?s] =>
          let H := fresh "Hscroll" in
          let Hk := fresh "Hscrolls" in
          let Hp := fresh "Hpage" in
          destruct (@fp_auto_scroll _ drv is_scroll_call (fun c H => H) p n s)
            as (? & H & Hk & _);
          pose proof (kp_auto_scroll drv p n s) as Hp;
          destruct (_auto_scroll drv p n s) as [? ?] eqn:?
      | |- context [html2text_handle drv ?x] =>
          destruct (html2text_handle drv x) eqn:?
      end
    | match goal with
      | |- context [match ?x with pair _ _ => _ end] =>
          lazymatch x with
          | context [match _ with pair _ _ => _ end] => fail
          | _ => destruct x as [? ?] eqn:?
          end
      end ];
  cbn -[lit screenshot_file _create_context _auto_scroll] in *.

Ltac unfold_body :=
  unfold fetch_body, bind, perform_total, perform, try_except, set_context,
    set_page, update, asyncio_sleep, perform_total, perform, ret;
  cbn -[lit screenshot_file _create_context _auto_scroll].

Section FetchRuns.

Variable W : Type.
Variable drv : Driver W.

(** What a [try] block that returned has done. *)
Lemma body_ok (url : str) (timeout : Z) (s : St W) (r : ScrapingResult) :
  fst (fetch_body drv url timeout s) = Ok r ->
  exists page timestamp,
    page_var (snd (fetch_body drv url timeout s)) = Some page
    /\ html2text_handle drv (Models.raw_html r) = Ok (Models.clean_text r)
    /\ In (CContent page, true) (log (snd (fetch_body drv url timeout s)))
    /\ In (CPageClose page, true) (log (snd (fetch_body drv url timeout s)))
    /\ ((Models.screenshot_path r
         = Some (screenshot_file (lit "success_") url timestamp)
         /\ In (CScreenshot page (screenshot_file (lit "success_") url timestamp),
                true)
              (log (snd (fetch_body drv url timeout s))))
        \/ (Models.screenshot_path r = None
            /\ In (CScreenshot page (screenshot_file (lit "success_") url timestamp),
                   false)
                 (log (snd (fetch_body drv url timeout s))))).
Proof.
  remember (html2text_handle drv (Models.raw_html r)) as converted eqn:Hconv.
  unfold_body. repeat run_op drv; try discriminate.
  all: intros [= <-]; eexists _, _; (split; [eassumption |]);
    (split; [rewrite Hconv; cbn [Models.raw_html Models.clean_text]; eassumption |]);
    rewrite ?in_app_iff; cbn [In Models.screenshot_path]; intuition auto.
Qed.

(** The local [page] after the [try] block: unset only if no page was
    opened. *)
Lemma body_page (url : str) (timeout : Z) (s : St W) :
  page_var s = None ->
  (page_var (snd (fetch_body drv url timeout s)) = None
   /\ forall ctx,
        In (CNewPage ctx, true) (log (snd (fetch_body drv url timeout s)))
        -> In (CNewPage ctx, true) (log s))
  \/ exists page, page_var (snd (fetch_body drv url timeout s)) = Some page.
Proof.
  intros Hnone. unfold_body. repeat run_op drv.
  all: try (right; eexists; first [eassumption | reflexivity]).
  all: left; (split; [congruence |]); intros ctx;
    repeat match goal with H : log _ = _ |- _ => rewrite H; clear H end;
    intros Hin;
    repeat (apply in_app_or in Hin; destruct Hin as [Hin | Hin]);
    try exact Hin;
    try (exfalso; eapply (@no_call_in is_setup_call); [eassumption | | exact Hin];
         reflexivity);
    try (destruct Hin as [Hin | []]; discriminate).
Qed.

Lemma cleanup_closes (s : St W) (page : handle) :
  page_var s = Some page ->
  page_var (snd (fetch_cleanup drv s)) = Some page
  /\ (In (CPageClose page) (calls_of (log (snd (fetch_cleanup drv s))))
      \/ page_is_closed drv page (world (snd (fetch_cleanup drv s))) = true).
Proof.
  intros Hp. unfold fetch_cleanup, local_page, try_except, perform, ret. rewrite Hp.
  destruct (page_is_closed drv page (world s)) eqn:Hclosed; cbn.
  - split; [exact Hp |]. right. exact Hclosed.
  - destruct (page_close drv page (world s)) as [[[] | e] w1]; cbn;
      (split; [exact Hp |]); left; unfold calls_of; rewrite map_app, in_app_iff;
      right; cbn; auto.
Qed.

(** X13.  A fetch that returned has read the markup of its page and
    converted it: the text of the result is the conversion of the markup
    of the result.  The page was closed, and a screenshot under
    [logs/success_] was attempted: the result names its file if it was
    taken and no file if it failed. *)
Theorem fetch_survives_screenshot_failure
    (url : str) (timeout : Z) (b : BrowserService) (w : W) (r : ScrapingResult) :
  fst (call_on (fetch_page_content drv url timeout) b w) = Ok r ->
  exists page timestamp,
    html2text_handle drv (Models.raw_html r) = Ok (Models.clean_text r)
    /\ In (CContent page, true)
         (log (snd (call_on (fetch_page_content drv url timeout) b w)))
    /\ In (CPageClose page, true)
         (log (snd (call_on (fetch_page_content drv url timeout) b w)))
    /\ ((Models.screenshot_path r
         = Some (screenshot_file (lit "success_") url timestamp)
         /\ In (CScreenshot page (screenshot_file (lit "success_") url timestamp),
                true)
              (log (snd (call_on (fetch_page_content drv url timeout) b w))))
        \/ (Models.screenshot_path r = None
            /\ In (CScreenshot page (screenshot_file (lit "success_") url timestamp),
                   false)
                 (log (snd (call_on (fetch_page_content drv url timeout) b w))))).
Proof.
  unfold call_on. rewrite fetch_outcome, fetch_state.
  set (s0 := entered _).
  pose proof (@body_ok url timeout s0) as Hbody.
  destruct (fetch_body drv url timeout s0) as [[r' | e] s1]; cbn [fst snd] in *;
    [| discriminate].
  intros [= ->].
  destruct (Hbody r eq_refl) as (page & ts & _ & Htext & Hread & Hclose & Hshot).
  destruct (@fp_fetch_cleanup _ drv any_call (fun c _ => eq_refl) s1)
    as (l & Hl & _).
  exists page, ts. rewrite Hl, !in_app_iff. intuition auto.
Qed.

(** X14.  A fetch that opened a page does not leave it open: by the end
    the service has asked for the page to be closed, or the page reports
    that it is closed, whether the fetch returned or raised. *)
Theorem fetch_closes_its_page
    (url : str) (timeout : Z) (b : BrowserService) (w : W) (ctx : handle) :
  In (CNewPage ctx, true)
    (log (snd (call_on (fetch_page_content drv url timeout) b w))) ->
  exists page,
    page_var (snd (call_on (fetch_page_content drv url timeout) b w)) = Some page
    /\ (In (CPageClose page)
          (calls_of (log (snd (call_on (fetch_page_content drv url timeout) b w))))
        \/ page_is_closed drv page
             (world (snd (call_on (fetch_page_content drv url timeout) b w)))
           = true).
Proof.
  unfold call_on. rewrite fetch_state.
  set (s0 := entered _).
  pose proof (@body_page url timeout s0 eq_refl) as Hbody.
  destruct (fetch_body drv url timeout s0) as [r s1]; cbn [snd] in Hbody.
  assert (Hafter : exists s2,
             (match r with
              | Ok _ => snd (fetch_cleanup drv s1)
              | Raise e => snd (fetch_cleanup drv (snd (fetch_handler drv url e s1)))
              end) = snd (fetch_cleanup drv s2)
             /\ page_var s2 = page_var s1
             /\ forall c, In (CNewPage c, true) (log s2)
                          -> In (CNewPage c, true) (log s1)).
  { destruct r as [res | e].
    - exists s1. repeat split; auto.
    - exists (snd (fetch_handler drv url e s1)).
      split; [reflexivity |]. split; [apply kp_fetch_handler |].
      destruct (@fp_fetch_handler _ drv is_diagnostic_call (fun c H => H) url e s1)
        as (l & Hl & Hk & _).
      intros c. rewrite Hl, in_app_iff. intros [Hin | Hin]; [exact Hin |].
      exfalso. eapply (@no_call_in is_diagnostic_call); [exact Hk | | exact Hin].
      reflexivity. }
  destruct Hafter as (s2 & -> & Hp2 & Hlog2).
  destruct (@fp_fetch_cleanup _ drv is_page_close (fun c H => H) s2)
    as (l & Hl & Hk & _).
  rewrite Hl at 1. rewrite in_app_iff. intros [Hin | Hin].
  - apply Hlog2 in Hin. destruct Hbody as [[_ Hno] | [page Hpage]].
    + apply Hno in Hin. destruct Hin.
    + exists page. apply cleanup_closes. congruence.
  - exfalso. eapply (@no_call_in is_page_close); [exact Hk | | exact Hin].
    reflexivity.
Qed.

(** X15.  A fetch only adds to the log of calls; it never closes a
    browsing context, so every fetch leaves the one it created open; and
    it scrolls to the bottom of the page at most ten times. *)
Theorem fetch_keeps_contexts_and_scroll_bound
    (url : str) (timeout : Z) (s : St W) :
  exists l,
    log (snd (fetch_page_content drv url timeout s)) = log s ++ l
    /\ forallb not_context_close (calls_of l) = true
    /\ (bottom_scrolls l <= 10)%nat.
Proof.
  apply (@fp_fetch_page_content _ drv not_context_close).
  intros c Hc. unfold not_context_close. now rewrite Hc.
Qed.

(** X16.  On a service that has a driver and no browser, as a failed
    launch leaves it, a fetch launches nothing: it picks a user agent and
    raises, wrapped, the attribute error of [None.new_context]. *)
Theorem fetch_without_browser_fails (url : str) (timeout : Z) (s : St W) :
  playwright (this s) <> None -> browser (this s) = None ->
  fst (fetch_page_content drv url timeout s)
  = Raise (fetch_error drv url none_has_no_new_context)
  /\ exists w',
       snd (fetch_page_content drv url timeout s)
       = {| this := this s; page_var := None; world := w';
            log := log s ++ [(CRandomChoice, true)] |}.
Proof.
  destruct s as [[hm pw br cx] pv w lg]. cbn [this playwright browser].
  intros Hp ->. destruct pw as [d |]; [clear Hp | congruence].
  unfold fetch_page_content, try_finally, try_except, fetch_body, fetch_handler,
    fetch_cleanup, _create_context, _get_random_user_agent, start, bind, self,
    local_page, set_page, perform_total, perform, raise, ret.
  cbn -[lit nth Nat.modulo USER_AGENTS].
  destruct (randbelow drv _ w) as [i w1].
  cbn -[lit nth Nat.modulo USER_AGENTS].
  split; [reflexivity |]. now exists w1.
Qed.

End FetchRuns.

(** ** Sample runs *)

Import MoreSamples.

Lemma start_is_idempotent_witness :
  fst (start calm_driver (at_rest (new_service true))) = Ok tt
  /\ start calm_driver (snd (start calm_driver (at_rest (new_service true))))
     = (Ok tt, snd (start calm_driver (at_rest (new_service true)))).
Proof.
  split; [reflexivity |].
  apply (start_is_idempotent calm_driver (at_rest (new_service true))).
  reflexivity.
Defined.

Lemma launch_failure_leaves_driver_witness :
  fst (start broken_driver (at_rest (new_service true)))
  = Raise (boom "Executable doesn't exist")
  /\ playwright (this (snd (start broken_driver (at_rest (new_service true)))))
     = Some 1%nat
  /\ browser (this (snd (start broken_driver (at_rest (new_service true)))))
     = None
  /\ start broken_driver (snd (start broken_driver (at_rest (new_service true))))
     = (Ok tt, snd (start broken_driver (at_rest (new_service true)))).
Proof.
  apply (@launch_failure_leaves_driver _ broken_driver
           (at_rest (new_service true)) 1%nat
           (boom "Executable doesn't exist") (1%nat, false) (2%nat, false));
    reflexivity.
Defined.

Lemma close_tears_down_in_order_witness :
  fst (close calm_driver (at_rest used_service)) = Ok tt
  /\ log (snd (close calm_driver (at_rest used_service)))
     = [(CContextClose 3%nat, true); (CBrowserClose 2%nat, true);
        (CPlaywrightStop 1%nat, true)].
Proof.
  split; [reflexivity |].
  apply (close_tears_down_in_order calm_driver (at_rest used_service)).
  reflexivity.
Defined.

Lemma close_failure_keeps_the_rest_witness :
  exists done c rest,
    teardown_calls used_service = done ++ c :: rest
    /\ log (snd (close sticky_driver (at_rest used_service)))
       = map (fun c => (c, true)) done ++ [(c, false)]
    /\ teardown_calls (this (snd (close sticky_driver (at_rest used_service))))
       = c :: rest.
Proof.
  apply (@close_failure_keeps_the_rest _ sticky_driver (at_rest used_service)
           (boom "Target closed")).
  reflexivity.
Defined.

Lemma fetch_failure_is_wrapped_witness :
  exists e,
    fst (call_on (fetch_body offline_driver pricing_url 30000)
           (new_service true) fresh_world) = Raise e
    /\ exc_cls (fetch_error offline_driver pricing_url
                  (boom "net::ERR_NAME_NOT_RESOLVED")) = OtherException
    /\ exc_cause (fetch_error offline_driver pricing_url
                    (boom "net::ERR_NAME_NOT_RESOLVED")) = Some e
    /\ exc_message (fetch_error offline_driver pricing_url
                      (boom "net::ERR_NAME_NOT_RESOLVED"))
       = (if is_timeout offline_driver e then lit "Timeout while fetching "
          else lit "Error fetching content from ")
         ++ pricing_url ++ lit ": " ++ exc_message e.
Proof.
  apply (@fetch_failure_is_wrapped _ offline_driver pricing_url 30000
           (new_service true) fresh_world).
  vm_compute. reflexivity.
Defined.

Lemma fetch_survives_screenshot_failure_witness :
  fst (call_on (fetch_page_content blind_driver pricing_url 30000)
         (new_service true) fresh_world)
  = Ok {| Models.raw_html := lit "<html><body><h1>Test Product</h1></body></html>";
          Models.clean_text := lit "# Test Product";
          Models.screenshot_path := None |}
  /\ exists page timestamp,
       In (CPageClose page, true)
         (log (snd (call_on (fetch_page_content blind_driver pricing_url 30000)
                      (new_service true) fresh_world)))
       /\ In (CScreenshot page
                (screenshot_file (lit "success_") pricing_url timestamp), false)
            (log (snd (call_on (fetch_page_content blind_driver pricing_url 30000)
                         (new_service true) fresh_world))).
Proof.
  assert (H : fst (call_on (fetch_page_content blind_driver pricing_url 30000)
                     (new_service true) fresh_world)
              = Ok {| Models.raw_html :=
                        lit "<html><body><h1>Test Product</h1></body></html>";
                      Models.clean_text := lit "# Test Product";
                      Models.screenshot_path := None |})
    by (vm_compute; reflexivity).
  split; [exact H |].
  destruct (@fetch_survives_screenshot_failure _ blind_driver pricing_url 30000
              (new_service true) fresh_world _ H)
    as (page & ts & _ & _ & Hclose & [[Hsome _] | [_ Hshot]]).
  - discriminate Hsome.
  - exists page, ts. split; assumption.
Defined.

Lemma fetch_closes_its_page_witness :
  exists page,
    page_var (snd (call_on (fetch_page_content offline_driver pricing_url 30000)
                     (new_service true) fresh_world)) = Some page
    /\ (In (CPageClose page)
          (calls_of
             (log (snd (call_on (fetch_page_content offline_driver pricing_url 30000)
                          (new_service true) fresh_world))))
        \/ page_is_closed offline_driver page
             (world (snd (call_on (fetch_page_content offline_driver pricing_url 30000)
                            (new_service true) fresh_world)))
           = true).
Proof.
  apply (@fetch_closes_its_page _ offline_driver pricing_url 30000
           (new_service true) fresh_world 3%nat).
  vm_compute. tauto.
Defined.

Lemma fetch_without_browser_fails_witness :
  fst (fetch_page_content calm_driver pricing_url 30000 (at_rest stuck_service))
  = Raise (fetch_error calm_driver pricing_url none_has_no_new_context).
Proof.
  apply (@fetch_without_browser_fails _ calm_driver pricing_url 30000
           (at_rest stuck_service)).
  - discriminate.
  - reflexivity.
Defined.

End BrowserSpec.

(* ===================================================================== *)
(** * A run with the extractor of this repository *)
(* ===================================================================== *)

Module PipelineSpec.

Import Graph GraphSpec.

Section AnyExtractor.

Variable start : result unit.
Variable fetch_page_content : str -> result ScrapingResult.
Variable extract_from_markdown :
  str -> str -> list Extractor.llm_event * result CompetitorProduct.

Local Abbreviation run :=
  (graph_invoke start fetch_page_content extract_from_markdown).

(** What the extraction node leaves, case by case. *)
Lemma extract_shape (state : AgentState) :
  url (snd (node_extract extract_from_markdown state)) = url state
  /\ scraped_content (snd (node_extract extract_from_markdown state))
     = scraped_content state
  /\ ((exists c msg,
          error (snd (node_extract extract_from_markdown state)) = Some (c :: msg)
          /\ product (snd (node_extract extract_from_markdown state)) = None)
      \/ (exists p,
             error (snd (node_extract extract_from_markdown state)) = None
             /\ product (snd (node_extract extract_from_markdown state)) = Some p)).
Proof.
  unfold node_extract.
  destruct (negb (truthy (scraped_content state))).
  - cbn. repeat split. left. now eexists _, _.
  - destruct (extract_from_markdown _ (url state)) as [calls [p | e]]; cbn.
    + repeat split. right. now exists p.
    + repeat split. left. now eexists _, _.
Qed.

(** How a run ends, from any state. *)
Lemma run_final_cases (state : AgentState) :
  url (snd (run state)) = url state
  /\ ((exists c msg,
          error (snd (run state)) = Some (c :: msg)
          /\ (product (snd (run state)) = None
              \/ product (snd (run state)) = product state))
      \/ (exists p,
             error (snd (run state)) = None
             /\ product (snd (run state)) = Some p)).
Proof.
  rewrite invoke_unfold, gate_after_scrape.
  destruct (scrape_cases start fetch_page_content state) as [[e He] | [text Ht]].
  - rewrite He. cbn [error scrape_failure].
    destruct (node_scrape start fetch_page_content state) as [ev st1].
    cbn [snd] in *. subst st1. cbn [url error product scrape_failure].
    split; [reflexivity |].
    left. eexists _, _. split; [reflexivity | now right].
  - rewrite Ht. cbn [error scrape_success snd].
    destruct (extract_shape (scrape_success state text)) as (Hu & _ & Hcases).
    rewrite Hu. cbn [url scrape_success].
    split; [reflexivity |].
    destruct Hcases as [(c & msg & He & Hp) | (p & He & Hp)].
    + left. exists c, msg. split; [exact He | now left].
    + right. now exists p.
Qed.

(** X17.  A run from the state every caller starts from keeps the URL
    and ends with exactly one of a product and an error message, whatever
    the browser and the extractor do; an error message is never empty. *)
Theorem run_ends_in_error_or_product (u : str) :
  url (snd (run (Wiring.initial_state u))) = u
  /\ exactly_one (is_set (product (snd (run (Wiring.initial_state u)))))
       (is_set (error (snd (run (Wiring.initial_state u)))))
  /\ (is_set (error (snd (run (Wiring.initial_state u))))
      -> truthy (error (snd (run (Wiring.initial_state u)))) = true).
Proof.
  destruct (run_final_cases (Wiring.initial_state u)) as [Hu Hcases].
  split; [exact Hu |]. unfold exactly_one, is_set.
  destruct Hcases as [(c & msg & -> & [-> | ->]) | (p & -> & ->)];
    cbn [Wiring.initial_state product truthy].
  - split; [right; split; [tauto | discriminate] | reflexivity].
  - split; [right; split; [tauto | discriminate] | reflexivity].
  - split; [left; split; [discriminate | tauto] | tauto].
Qed.

End AnyExtractor.

Section RealExtractor.

Variable token : Type.
Variable encode : str -> list token.
Variable ainvoke : list Extractor.message -> result (option CompetitorProduct).
Variable lower : str -> str.
Variable system_prompt : str.
Variables user_head user_mid user_tail : str.
Variable encode_error : str -> option exc.
Variable extractor_error : option exc.
Variable start : result unit.
Variable fetch_page_content : str -> result ScrapingResult.

Local Abbreviation run :=
  (Wiring.graph_ainvoke encode ainvoke lower system_prompt
     user_head user_mid user_tail encode_error extractor_error
     start fetch_page_content).
Local Abbreviation extract_node :=
  (Wiring.node_extract encode ainvoke lower system_prompt
     user_head user_mid user_tail encode_error extractor_error).
Local Abbreviation service :=
  (Wiring.extract_service encode ainvoke lower system_prompt
     user_head user_mid user_tail encode_error extractor_error).
Local Abbreviation attempt :=
  (Extractor.try_block encode ainvoke system_prompt user_head user_mid
     user_tail encode_error).
Local Abbreviation truncate_call :=
  (Extractor._truncate_content_call encode encode_error).
Local Abbreviation messages :=
  (Extractor.messages_of encode system_prompt user_head user_mid user_tail).

(** The state the extract node leaves for a failure [e] of its [try]
    block. *)
Local Abbreviation extract_failure state e :=
  {| url := url state;
     scraped_content := scraped_content state;
     product := None;
     error := Some (lit "Failed to extract product information from "
                    ++ url state ++ lit ": " ++ exc_message e) |}.

(** The node of this repository leaves the state [Graph.node_extract]
    leaves with the extractor lookup and the call as one service. *)
Lemma node_extract_as_service (state : AgentState) :
  snd (extract_node state) = snd (node_extract service state).
Proof.
  unfold Wiring.node_extract, node_extract, Wiring.extract_service.
  destruct (negb (truthy (scraped_content state))); [reflexivity |].
  destruct extractor_error as [e |]; [reflexivity |].
  destruct (Extractor.extract_from_markdown _ _ _ _ _ _ _ _ _ _) as [calls [p | e]];
    reflexivity.
Qed.

Lemma run_as_service (state : AgentState) :
  snd (run state)
  = snd (graph_invoke start fetch_page_content service state).
Proof.
  unfold Wiring.graph_ainvoke, graph_invoke.
  destruct (node_scrape start fetch_page_content state) as [events1 state1].
  destruct (should_continue state1); [| reflexivity].
  pose proof (node_extract_as_service state1) as H.
  destruct (extract_node state1), (node_extract service state1). exact H.
Qed.

(** The extract node on a state with content. *)
Lemma extract_node_with_content (state : AgentState) (c : char) (text : str) :
  scraped_content state = Some (c :: text) ->
  extract_node state
  = match extractor_error with
    | Some e => ([], extract_failure state e)
    | None =>
        ( ExtractFromMarkdown (c :: text) (url state)
            :: map ModelCall (fst (attempt (c :: text) (url state))),
          match snd (attempt (c :: text) (url state)) with
          | Ok p =>
              {| url := url state;
                 scraped_content := scraped_content state;
                 product := Some p;
                 error := None |}
          | Raise e =>
              extract_failure state
                (Extractor.handle_extraction_error lower (url state) e)
          end )
    end.
Proof.
  intros Hc. unfold Wiring.node_extract. rewrite Hc. cbn [truthy negb].
  destruct extractor_error as [e |]; [reflexivity |].
  unfold Extractor.extract_from_markdown.
  now destruct (attempt (c :: text) (url state)) as [calls [p | e]].
Qed.

(** The run, when the fetch returns a non-empty rendering. *)
Lemma run_with_content (state : AgentState) (u : unit) (page : ScrapingResult) :
  start = Ok u -> fetch_page_content (url state) = Ok page ->
  Models.clean_text page <> [] ->
  run state
  = ( [BrowserStart; FetchPageContent (url state)]
        ++ fst (extract_node (scrape_success state (Models.clean_text page))),
      snd (extract_node (scrape_success state (Models.clean_text page))) ).
Proof.
  intros Hs Hf Hne. unfold Wiring.graph_ainvoke, node_scrape.
  rewrite Hs, Hf. cbn [should_continue error truthy].
  fold (scrape_success state (Models.clean_text page)).
  now destruct (extract_node _).
Qed.

(** The run, when the fetch fails or returns nothing. *)
Lemma run_without_content (state : AgentState) :
  (forall u page, start = Ok u -> fetch_page_content (url state) = Ok page ->
                  Models.clean_text page = []) ->
  Wiring.model_calls (fst (run state)) = 0%nat
  /\ error (snd (run state)) <> None.
Proof.
  intros Hnone. unfold Wiring.graph_ainvoke, node_scrape.
  destruct start as [u | e]; [| cbn; split; [reflexivity | discriminate]].
  destruct (fetch_page_content (url state)) as [page | e] eqn:Hf;
    [| cbn; split; [reflexivity | discriminate]].
  rewrite (Hnone u page eq_refl eq_refl). cbn. split; [reflexivity | discriminate].
Qed.

Lemma content_or_not (state : AgentState) :
  (exists u page, start = Ok u /\ fetch_page_content (url state) = Ok page
                  /\ Models.clean_text page <> [])
  \/ (forall u page, start = Ok u -> fetch_page_content (url state) = Ok page ->
                     Models.clean_text page = []).
Proof.
  destruct start as [u | e]; [| right; discriminate].
  destruct (fetch_page_content (url state)) as [page | e]; [| right; discriminate].
  destruct (Models.clean_text page) as [| c text] eqn:Htext.
  - right. now intros ? ? _ [= <-].
  - left. exists u, page. rewrite Htext. repeat split; discriminate.
Qed.

(** The model calls among the events of the [try] block. *)
Lemma model_calls_of_attempt (before : list event) (content source_url : str) :
  Wiring.model_calls before = 0%nat ->
  (exists e,
      truncate_call content = Raise e
      /\ Wiring.model_calls
           (before ++ ExtractFromMarkdown content source_url
              :: map ModelCall (fst (attempt content source_url))) = 0%nat)
  \/ (truncate_call content = Ok (Extractor._truncate_content encode content)
      /\ Wiring.model_calls
           (before ++ ExtractFromMarkdown content source_url
              :: map ModelCall (fst (attempt content source_url))) = 1%nat).
Proof.
  intros Hb. unfold Wiring.model_calls in *.
  rewrite filter_app, length_app, Hb. cbn [filter Wiring.is_model_call].
  destruct (ExtractorSpec.try_block_cases encode ainvoke system_prompt user_head
              user_mid user_tail encode_error content source_url)
    as [(e & Ht & ->) | (Ht & ->)]; cbn [fst map filter Wiring.is_model_call length].
  - left. exists e. now split.
  - right. now split.
Qed.

(** X18.  A run that ends without an error has started the browser,
    fetched a non-empty rendering and asked the model exactly once, with
    the messages built from that rendering and the URL; its product is
    the model's answer with the URL of the state in place of the
    model's. *)
Theorem successful_run_shape (state : AgentState) :
  error (snd (run state)) = None ->
  exists u page raw,
    start = Ok u
    /\ fetch_page_content (url state) = Ok page
    /\ Models.clean_text page <> []
    /\ ainvoke (messages (Models.clean_text page) (url state)) = Ok (Some raw)
    /\ snd (run state)
       = {| url := url state;
            scraped_content := Some (Models.clean_text page);
            product := Some (Models.set_url raw (url state));
            error := None |}
    /\ Wiring.model_calls (fst (run state)) = 1%nat.
Proof.
  intros Herr.
  destruct (content_or_not state) as [(u & page & Hs & Hf & Hne) | Hnone].
  2:{ destruct (run_without_content state Hnone) as [_ H]. contradiction. }
  rewrite (run_with_content state Hs Hf Hne) in *. cbn [fst snd] in *.
  destruct (Models.clean_text page) as [| c text] eqn:Htext; [congruence |].
  rewrite (@extract_node_with_content (scrape_success state (c :: text)) c text
             eq_refl) in *.
  destruct extractor_error as [e |]; [discriminate |].
  cbn [fst snd url scrape_success scraped_content] in *.
  destruct (model_calls_of_attempt [BrowserStart; FetchPageContent (url state)]
              (c :: text) (url state) eq_refl)
    as [(e & Ht & _) | (Ht & Hcalls)].
  - destruct (ExtractorSpec.try_block_cases encode ainvoke system_prompt
                user_head user_mid user_tail encode_error (c :: text) (url state))
      as [(e' & _ & Ha) | (Ht' & _)]; [| congruence].
    rewrite Ha in Herr. discriminate.
  - destruct (ExtractorSpec.try_block_cases encode ainvoke system_prompt
                user_head user_mid user_tail encode_error (c :: text) (url state))
      as [(e' & Ht' & _) | (_ & Ha)]; [congruence |].
    rewrite Ha in Herr, Hcalls |- *. cbn [fst snd] in *.
    destruct (ainvoke (messages (c :: text) (url state))) as [[raw |] | e] eqn:Hm;
      try discriminate.
    exists u, page, raw. rewrite Htext.
    split; [exact Hs |]. split; [exact Hf |]. split; [exact Hne |].
    split; [exact Hm |]. split; [reflexivity | exact Hcalls].
Qed.

(** X19.  One run asks the model at most once; a failed model call is not
    repeated.  It asks exactly once when, and only when, the browser
    started, the fetch returned a non-empty rendering, the extractor
    could be had and no tokenizer call of the truncation raised. *)
Theorem model_called_at_most_once (state : AgentState) :
  (Wiring.model_calls (fst (run state)) <= 1)%nat
  /\ (Wiring.model_calls (fst (run state)) = 1%nat
      <-> exists u page processed,
            start = Ok u /\ fetch_page_content (url state) = Ok page
            /\ Models.clean_text page <> []
            /\ extractor_error = None
            /\ truncate_call (Models.clean_text page) = Ok processed).
Proof.
  destruct (content_or_not state) as [(u & page & Hs & Hf & Hne) | Hnone].
  2:{ destruct (run_without_content state Hnone) as [H0 _]. rewrite H0.
      split; [lia |]. split; [discriminate |].
      intros (u & page & t & Hs & Hf & Hne & _). exfalso.
      now apply Hne, (Hnone u). }
  rewrite (run_with_content state Hs Hf Hne). cbn [fst].
  destruct (Models.clean_text page) as [| c text] eqn:Htext; [congruence |].
  rewrite (@extract_node_with_content (scrape_success state (c :: text)) c text
             eq_refl).
  destruct extractor_error as [e |] eqn:He.
  - cbn. split; [lia |]. split; [discriminate |].
    intros (u' & page' & t & _ & _ & _ & H & _). discriminate.
  - cbn [fst url scrape_success].
    destruct (model_calls_of_attempt [BrowserStart; FetchPageContent (url state)]
                (c :: text) (url state) eq_refl)
      as [(e & Ht & ->) | (Ht & ->)].
    + split; [lia |]. split; [discriminate |].
      intros (u' & page' & t & _ & Hf' & _ & _ & Ht').
      rewrite Hf in Hf'. injection Hf' as <-. rewrite Htext in Ht'. congruence.
    + split; [lia |]. split; [| reflexivity]. intros _.
      exists u, page, (Extractor._truncate_content encode (c :: text)).
      rewrite Htext. repeat split; auto.
Qed.

(** X20.  When the extraction call fails after a successful fetch,
    because the model call raised or for another failure inside its [try]
    block, the run ends with no product, keeps the fetched text, and its
    error message is the node's prefix, the URL and the extractor's
    report; the text of the failure is part of that message whichever
    report the extractor chose. *)
Theorem model_failure_reaches_state
    (state : AgentState) (u : unit) (page : ScrapingResult) (e : exc) :
  start = Ok u -> fetch_page_content (url state) = Ok page ->
  Models.clean_text page <> [] ->
  extractor_error = None ->
  snd (attempt (Models.clean_text page) (url state)) = Raise e ->
  product (snd (run state)) = None
  /\ scraped_content (snd (run state)) = Some (Models.clean_text page)
  /\ exc_cause (Extractor.handle_extraction_error lower (url state) e) = Some e
  /\ error (snd (run state))
     = Some (lit "Failed to extract product information from "
             ++ url state ++ lit ": "
             ++ exc_message
                  (Extractor.handle_extraction_error lower (url state) e))
  /\ forall msg,
       error (snd (run state)) = Some msg -> contains (exc_message e) msg = true.
Proof.
  intros Hs Hf Hne Hx Hm.
  rewrite (@run_with_content state u page Hs Hf Hne). cbn [snd].
  destruct (Models.clean_text page) as [| c text] eqn:Htext; [congruence |].
  rewrite (@extract_node_with_content (scrape_success state (c :: text)) c text
             eq_refl).
  rewrite Hx. cbn [snd url scrape_success] in *. rewrite Hm.
  cbn [product scraped_content error scrape_success].
  split; [reflexivity |]. split; [reflexivity |]. split.
  - apply ExtractorSpec.handler_report.
  - split; [reflexivity |].
    assert (Hsuffix : forall pre x : str, contains x (pre ++ x) = true).
    { intros pre x. rewrite <- (app_nil_r x) at 2. apply PyFacts.contains_middle. }
    assert (Hc : contains (exc_message e)
                   (lit "Failed to extract product information from "
                    ++ url state ++ lit ": "
                    ++ exc_message
                         (Extractor.handle_extraction_error lower (url state) e))
                 = true).
    { unfold Extractor.handle_extraction_error.
      destruct (exc_cls e); [| destruct (Extractor.mentions_api lower e)
                             | destruct (Extractor.mentions_api lower e)];
        cbn [exc_message]; rewrite !app_assoc; apply Hsuffix. }
    intros msg Hmsg.
    replace msg
      with (lit "Failed to extract product information from "
            ++ url state ++ lit ": "
            ++ exc_message (Extractor.handle_extraction_error lower (url state) e))
      by congruence.
    exact Hc.
Qed.

(** A product of a run carries the URL of the state. *)
Lemma run_product_url (state : AgentState) (p : CompetitorProduct) :
  error (snd (run state)) = None -> product (snd (run state)) = Some p ->
  Models.url p = url state.
Proof.
  intros Herr Hp.
  destruct (content_or_not state) as [(u & page & Hs & Hf & Hne) | Hnone].
  2:{ destruct (run_without_content state Hnone) as [_ H]. contradiction. }
  rewrite (run_with_content state Hs Hf Hne) in *. cbn [fst snd] in *.
  destruct (Models.clean_text page) as [| c text] eqn:Htext; [congruence |].
  rewrite (@extract_node_with_content (scrape_success state (c :: text)) c text
             eq_refl) in *.
  destruct extractor_error as [e |]; [discriminate |].
  cbn [fst snd url scrape_success scraped_content] in *.
  destruct (ExtractorSpec.try_block_cases encode ainvoke system_prompt
              user_head user_mid user_tail encode_error (c :: text) (url state))
    as [(e' & _ & Ha) | (_ & Ha)]; rewrite Ha in Herr, Hp; cbn [snd] in *;
    [discriminate |].
  destruct (ainvoke _) as [[raw |] | e]; try discriminate.
  cbn [product] in Hp. injection Hp as <-. reflexivity.
Qed.

End RealExtractor.

Lemma successful_run_shape_witness :
  exists raw,
    Samples.echo_model
      (Extractor.messages_of Samples.char_tokens [] [] [] []
         (lit "# Test Product") Samples.example_url) = Ok (Some raw)
    /\ product
         (snd (Wiring.graph_ainvoke Samples.char_tokens Samples.echo_model
                 Samples.ascii_lower [] [] [] [] Samples.never_raises None
                 (Ok tt) Samples.fetch_test_page Samples.initial_state))
       = Some (Models.set_url raw Samples.example_url).
Proof.
  destruct (@successful_run_shape _ Samples.char_tokens Samples.echo_model
              Samples.ascii_lower [] [] [] [] Samples.never_raises None
              (Ok tt) Samples.fetch_test_page Samples.initial_state eq_refl)
    as (u & page & raw & _ & Hf & _ & Hm & Hfinal & _).
  injection Hf as <-.
  exists raw. split; [exact Hm |]. now rewrite Hfinal.
Defined.

Lemma model_failure_reaches_state_witness :
  product
    (snd (Wiring.graph_ainvoke Samples.char_tokens Samples.failing_model
            Samples.ascii_lower [] [] [] [] Samples.never_raises None
            (Ok tt) Samples.fetch_test_page Samples.initial_state)) = None
  /\ forall msg,
       error
         (snd (Wiring.graph_ainvoke Samples.char_tokens Samples.failing_model
                 Samples.ascii_lower [] [] [] [] Samples.never_raises None
                 (Ok tt) Samples.fetch_test_page Samples.initial_state))
       = Some msg
       -> contains (exc_message Samples.rate_limited) msg = true.
Proof.
  destruct (@model_failure_reaches_state _ Samples.char_tokens
              Samples.failing_model Samples.ascii_lower [] [] [] []
              Samples.never_raises None (Ok tt)
              Samples.fetch_test_page Samples.initial_state tt Samples.test_page
              Samples.rate_limited eq_refl eq_refl)
    as (Hp & _ & _ & _ & Hmsg); [discriminate | reflexivity | reflexivity |].
  split; [exact Hp | exact Hmsg].
Defined.

(** A tokenizer that cannot be loaded when the extractor is built: the
    fetched text is non-empty and the model is not asked. *)
Example extractor_unavailable_run :
  Wiring.graph_ainvoke Samples.char_tokens Samples.echo_model
    Samples.ascii_lower [] [] [] [] Samples.never_raises
    (Some Samples.no_vocabulary) (Ok tt) Samples.fetch_test_page
    Samples.initial_state
  = ( [BrowserStart; FetchPageContent Samples.example_url],
      {| url := Samples.example_url;
         scraped_content := Some (lit "# Test Product");
         product := None;
         error := Some (lit "Failed to extract product information from "
                        ++ Samples.example_url ++ lit ": "
                        ++ exc_message Samples.no_vocabulary) |} ).
Proof. reflexivity. Qed.

End PipelineSpec.

(* ===================================================================== *)
(** * The nodes on the browser service *)
(* ===================================================================== *)

Module WiringSpec.

Import Browser Wiring.

Section OnDriver.

Variable W : Type.
Variable drv : Driver W.
Variable headless : bool.

(** X21.  What the scrape node makes of the browser service.  If
    [start()] raises, the error names the URL and the failure.  If the
    fetch fails, the error names the URL twice, around the word for a
    timeout or for another error, and ends with the text of the first
    failure inside the fetch.  Otherwise the state has no error and holds
    the text the converter made of the markup of the page. *)
Theorem scrape_reports_start_or_fetch_failure
    (global : option BrowserService) (w : W) (state : Graph.AgentState) :
  (exists e,
      fst (call_on (start drv) (fst (_get_browser_service headless global)) w)
      = Raise e
      /\ snd (node_scrape drv headless global w state)
         = Graph.scrape_failure state e)
  \/ (exists e,
         fst (fetch_body drv (Graph.url state) 30000
                (entered
                   (snd (call_on (start drv)
                           (fst (_get_browser_service headless global)) w))))
         = Raise e
         /\ Graph.scraped_content (snd (node_scrape drv headless global w state))
            = None
         /\ Graph.error (snd (node_scrape drv headless global w state))
            = Some (lit "Failed to scrape URL " ++ Graph.url state ++ lit ": "
                    ++ (if is_timeout drv e then lit "Timeout while fetching "
                        else lit "Error fetching content from ")
                    ++ Graph.url state ++ lit ": " ++ exc_message e))
  \/ (exists r,
         snd (node_scrape drv headless global w state)
         = Graph.scrape_success state (Models.clean_text r)
         /\ html2text_handle drv (Models.raw_html r) = Ok (Models.clean_text r)).
Proof.
  unfold node_scrape, scrape_services, Graph.node_scrape. cbn [fst snd].
  destruct (fst (call_on (start drv) _ w)) as [u | e];
    [| left; exists e; split; reflexivity].
  right. rewrite BrowserSpec.fetch_outcome.
  pose proof (@BrowserSpec.body_ok _ drv (Graph.url state) 30000
                (entered (snd (call_on (start drv)
                                 (fst (_get_browser_service headless global)) w))))
    as Hbody.
  destruct (fst (fetch_body drv (Graph.url state) 30000 _)) as [r | e].
  - right. exists r. split; [reflexivity |].
    destruct (Hbody r eq_refl) as (_ & _ & _ & Htext & _). exact Htext.
  - left. exists e. split; [reflexivity |]. split; [reflexivity |].
    cbn [snd Graph.error]. unfold fetch_error.
    destruct (is_timeout drv e); cbn [exc_message]; reflexivity.
Qed.

(** X22.  [cleanup_resources()] on a service either closes all the
    service holds, in order, and forgets the service; or it stops at the
    first closing call that failed, says nothing of the failure, and
    keeps the service, which still holds what was not closed. *)
Theorem cleanup_forgets_or_keeps_the_rest (b : BrowserService) (w : W) :
  (fst (fst (cleanup_resources drv (Some b) w)) = None
   /\ snd (cleanup_resources drv (Some b) w)
      = map (fun c => (c, true)) (teardown_calls b))
  \/ (exists b' done c rest,
         fst (fst (cleanup_resources drv (Some b) w)) = Some b'
         /\ teardown_calls b = done ++ c :: rest
         /\ snd (cleanup_resources drv (Some b) w)
            = map (fun c => (c, true)) done ++ [(c, false)]
         /\ teardown_calls b' = c :: rest).
Proof.
  unfold cleanup_resources, call_on.
  destruct (BrowserSpec.close_cases drv
              {| this := b; page_var := None; world := w; log := [] |})
    as [(Hok & _ & Hlog) | (e & done & c & rest & Hraise & Hcalls & Hlog & Hrest)];
    destruct (close drv _) as [r s']; cbn [fst snd this log app] in *; subst r.
  - left. split; [reflexivity | exact Hlog].
  - right. exists (this s'), done, c, rest. repeat split; assumption.
Qed.

End OnDriver.

End WiringSpec.

(* ===================================================================== *)
(** * The tool of the server *)
(* ===================================================================== *)

Module ServerSpec.

Import Server.

Lemma has_brace_app (a b : str) :
  has_brace (a ++ b) = has_brace a || has_brace b.
Proof. apply existsb_app. Qed.

(** The message of the second [except] clause has a brace only if the
    URL or the text of the failure has one. *)
Lemma unexpected_message_brace (url text : str) :
  has_brace (lit "Unexpected error during analysis of " ++ url ++ lit ": "
             ++ text)
  = has_brace url || has_brace text.
Proof. now rewrite !has_brace_app. Qed.

Section AnyWorkflow.

Variable ainvoke : Graph.AgentState -> result Graph.AgentState.
Variable is_runtime_error : exc -> bool.
Variable dump : CompetitorProduct -> result str.
Variable format_error : str -> option exc.

Local Abbreviation analyze :=
  (analyze_competitor ainvoke is_runtime_error dump format_error).

(** What the second [except] clause raises. *)
Lemma unexpected_cases (url : str) (e : exc) :
  (is_runtime_error e = true
   /\ unexpected is_runtime_error format_error url e = Passed e)
  \/ (is_runtime_error e = false
      /\ logger_error format_error
           (lit "Unexpected error during analysis of " ++ url ++ lit ": "
            ++ exc_message e) = None
      /\ unexpected is_runtime_error format_error url e
         = RuntimeError
             (lit "Unexpected error during analysis of " ++ url ++ lit ": "
              ++ exc_message e)
             (Some e))
  \/ (exists raised,
         is_runtime_error e = false
         /\ (has_brace url = true \/ has_brace (exc_message e) = true)
         /\ format_error
              (lit "Unexpected error during analysis of " ++ url ++ lit ": "
               ++ exc_message e) = Some raised
         /\ unexpected is_runtime_error format_error url e = Escaped raised).
Proof.
  unfold unexpected, logger_error.
  destruct (is_runtime_error e); [now left |]. right.
  rewrite unexpected_message_brace.
  destruct (has_brace url || has_brace (exc_message e)) eqn:Hb;
    [| left; repeat split; reflexivity].
  destruct (format_error _) as [raised |] eqn:Hf;
    [| left; repeat split; reflexivity].
  right. exists raised. apply orb_true_iff in Hb. repeat split; auto.
Qed.

(** Where a failure of the tool comes from. *)
Lemma analyze_failure (url : str) (f : failure) :
  analyze url = inl f ->
  (exists msg, f = RuntimeError (lit "Workflow error: " ++ msg) None)
  \/ (exists e, f = unexpected is_runtime_error format_error url e).
Proof.
  unfold analyze_competitor.
  destruct (ainvoke _) as [st | e]; [| intros [= <-]; right; now exists e].
  destruct (Graph.truthy (Graph.error st)).
  - intros [= <-]. left. now eexists.
  - destruct (Graph.product st) as [p |]; [| discriminate].
    destruct (dump p) as [json | e]; [discriminate |].
    intros [= <-]. right. now exists e.
Qed.

(** X23.  A failure of the tool has one of four forms.  It is a
    [RuntimeError] raised below it and passed on unchanged; or a
    [RuntimeError] of its own whose message begins with [Workflow error: ];
    or a [RuntimeError] of its own whose message is [Unexpected error
    during analysis of ], the URL and the text of the exception caught,
    which is its cause; or, and only if the URL or that text has a brace
    in it, the exception that formatting the log message raised, in
    place of the [RuntimeError]. *)
Theorem tool_failure_forms (url : str) (f : failure) :
  analyze url = inl f ->
  (exists e, f = Passed e /\ is_runtime_error e = true)
  \/ (exists msg, f = RuntimeError (lit "Workflow error: " ++ msg) None)
  \/ (exists e,
         is_runtime_error e = false
         /\ f = RuntimeError
                  (lit "Unexpected error during analysis of " ++ url ++ lit ": "
                   ++ exc_message e)
                  (Some e))
  \/ (exists e raised,
         is_runtime_error e = false
         /\ (has_brace url = true \/ has_brace (exc_message e) = true)
         /\ format_error
              (lit "Unexpected error during analysis of " ++ url ++ lit ": "
               ++ exc_message e) = Some raised
         /\ f = Escaped raised).
Proof.
  intros H. destruct (analyze_failure url H) as [[msg ->] | [e ->]].
  - right. left. now exists msg.
  - destruct (unexpected_cases url e)
      as [[He ->] | [(He & _ & ->) | (raised & He & Hb & Hf & ->)]].
    + left. now exists e.
    + right. right. left. now exists e.
    + right. right. right. now exists e, raised.
Qed.

Variable dumps : str -> str.
Variable dumps_pretty : str -> str.

Local Abbreviation tool :=
  (analyze_competitor_tool ainvoke is_runtime_error dump format_error
     dumps_pretty).
Local Abbreviation handler :=
  (call_tool ainvoke is_runtime_error dump format_error dumps dumps_pretty).

(** What [except RuntimeError] lets through. *)
Lemma uncaught_failure (url : str) (f : failure) :
  analyze url = inl f -> caught is_runtime_error f = false ->
  exists raised, f = Escaped raised /\ is_runtime_error raised = false.
Proof.
  intros H Hc. destruct (analyze_failure url H) as [[msg ->] | [e ->]];
    [discriminate |].
  destruct (unexpected_cases url e)
    as [[He Hu] | [(He & _ & Hu) | (raised & He & Hb & Hf & Hu)]];
    rewrite Hu in Hc |- *; cbn [caught] in Hc; try congruence.
  now exists raised.
Qed.

(** X24.  The registered tools turn every [RuntimeError] of the analysis
    into the error document with its text, under FastMCP and under the
    standard server.  What they raise is only what formatting the log
    message raised inside the analysis, never a [RuntimeError]; and the
    standard handler, when it returns, returns exactly one text. *)
Theorem registered_tools_raise_only_log_failures
    (url name : str) (url_argument : option str) :
  (forall f,
      analyze url = inl f -> caught is_runtime_error f = true ->
      tool url = inr (dumps_pretty (failure_text f)))
  /\ (forall f,
         tool url = inl f ->
         exists raised,
           f = Escaped raised /\ is_runtime_error raised = false
           /\ analyze url = inl f)
  /\ (forall f,
         handler name url_argument = inl f ->
         exists raised u,
           f = Escaped raised /\ is_runtime_error raised = false
           /\ url_argument = Some u /\ analyze u = inl f)
  /\ (forall texts,
         handler name url_argument = inr texts -> length texts = 1%nat).
Proof.
  split; [| split; [| split]].
  - intros f H Hc. unfold analyze_competitor_tool. now rewrite H, Hc.
  - intros f. unfold analyze_competitor_tool.
    destruct (analyze url) as [f' | text] eqn:H; [| discriminate].
    destruct (caught is_runtime_error f') eqn:Hc; [discriminate |].
    intros [= <-]. destruct (uncaught_failure url H Hc) as (raised & -> & Hr).
    now exists raised.
  - intros f. unfold call_tool.
    destruct (PyStr.eqb name (lit "analyze_competitor")); [| discriminate].
    destruct url_argument as [[| c u] |]; cbn [Graph.truthy negb];
      [discriminate | | discriminate].
    destruct (analyze (c :: u)) as [f' | text] eqn:H; [| discriminate].
    destruct (caught is_runtime_error f') eqn:Hc; [discriminate |].
    intros [= <-].
    destruct (uncaught_failure (c :: u) H Hc) as (raised & -> & Hr).
    now exists raised, (c :: u).
  - intros texts. unfold call_tool.
    destruct (PyStr.eqb name (lit "analyze_competitor")); [| now intros [= <-]].
    destruct (negb (Graph.truthy _)); [now intros [= <-] |].
    destruct (analyze _) as [f' | text]; [| now intros [= <-]].
    destruct (caught is_runtime_error f'); [now intros [= <-] | discriminate].
Qed.

End AnyWorkflow.

Section Served.

Variable token : Type.
Variable encode : str -> list token.
Variable ainvoke : list Extractor.message -> result (option CompetitorProduct).
Variable lower : str -> str.
Variable system_prompt : str.
Variables user_head user_mid user_tail : str.
Variable encode_error : str -> option exc.
Variable extractor_error : option exc.
Variable start : result unit.
Variable fetch_page_content : str -> result ScrapingResult.
Variable is_runtime_error : exc -> bool.
Variable dump : CompetitorProduct -> result str.
Variable format_error : str -> option exc.

Local Abbreviation run :=
  (Wiring.graph_ainvoke encode ainvoke lower system_prompt
     user_head user_mid user_tail encode_error extractor_error
     start fetch_page_content).

(** X25.  With the graph of this repository behind it, the tool never
    answers [no_data]: it raises the workflow's error, or it serialises a
    product whose URL is the URL it was asked about. *)
Theorem served_run_is_error_or_record (url : str) :
  (exists msg,
      Graph.error (snd (run (Wiring.initial_state url))) = Some msg
      /\ analyze_competitor (fun st => Ok (snd (run st))) is_runtime_error dump
           format_error url
         = inl (RuntimeError (lit "Workflow error: " ++ msg) None))
  \/ (exists p,
         Graph.product (snd (run (Wiring.initial_state url))) = Some p
         /\ Models.url p = url
         /\ analyze_competitor (fun st => Ok (snd (run st))) is_runtime_error
              dump format_error url
            = match dump p with
              | Ok json_result => inr json_result
              | Raise e => inl (unexpected is_runtime_error format_error url e)
              end).
Proof.
  unfold analyze_competitor.
  pose proof (PipelineSpec.run_as_service encode ainvoke lower system_prompt
                user_head user_mid user_tail encode_error extractor_error
                start fetch_page_content (Wiring.initial_state url)) as Hrun.
  destruct (PipelineSpec.run_final_cases start fetch_page_content
              (Wiring.extract_service encode ainvoke lower system_prompt
                 user_head user_mid user_tail encode_error extractor_error)
              (Wiring.initial_state url))
    as (Hurl & Hcases).
  rewrite <- Hrun in Hurl, Hcases.
  destruct Hcases as [(c & msg & He & _) | (p & He & Hp)].
  - left. exists (c :: msg). rewrite He. cbn [Graph.truthy]. auto.
  - right. exists p. rewrite He, Hp. cbn [Graph.truthy].
    split; [reflexivity |]. split; [| reflexivity].
    apply (PipelineSpec.run_product_url encode ainvoke lower system_prompt
             user_head user_mid user_tail encode_error extractor_error
             start fetch_page_content (Wiring.initial_state url) He Hp).
Qed.

End Served.

Lemma tool_failure_forms_witness :
  has_brace MoreSamples.template_url = true
  /\ analyze_competitor (fun _ => Raise Samples.network_error)
       MoreSamples.is_runtime_error_never (fun _ => Ok [])
       MoreSamples.format_key_error MoreSamples.template_url
     = inl (Escaped MoreSamples.key_error).
Proof.
  split; [reflexivity |].
  destruct (@tool_failure_forms
              (fun _ => Raise Samples.network_error)
              MoreSamples.is_runtime_error_never (fun _ => Ok [])
              MoreSamples.format_key_error MoreSamples.template_url
              (Escaped MoreSamples.key_error) eq_refl)
    as [(e & H & _) | [(msg & H) | [(e & _ & H) | (e & raised & _ & _ & _ & H)]]];
    try discriminate H.
  reflexivity.
Defined.

(** A URL with a brace in it and a failing fetch: the log call raises,
    and the tool as registered raises with it. *)
Example brace_in_url_escapes_the_tool :
  analyze_competitor_tool (fun _ => Raise Samples.network_error)
    MoreSamples.is_runtime_error_never (fun _ => Ok [])
    MoreSamples.format_key_error (fun text => text) MoreSamples.template_url
  = inl (Escaped MoreSamples.key_error).
Proof. reflexivity. Qed.

(** The same failure on a URL without a brace comes back as the error
    document. *)
Example plain_url_is_reported :
  analyze_competitor_tool (fun _ => Raise Samples.network_error)
    MoreSamples.is_runtime_error_never (fun _ => Ok [])
    MoreSamples.format_key_error (fun text => text) Samples.example_url
  = inr (lit "Unexpected error during analysis of https://example.com: Network error").
Proof. reflexivity. Qed.

End ServerSpec.

(* ===================================================================== *)
(** * The command line *)
(* ===================================================================== *)

Module CliSpec.

Import PyStr Cli.

Lemma parse_args_usage (argv : list str) :
  parse_args argv = None <-> (length argv < 2)%nat.
Proof.
  unfold parse_args. destruct (Nat.ltb_spec (length argv) 2); [tauto |].
  split; [| lia]. now destruct (_ && _).
Qed.

(** X26.  When the command line is accepted, the arguments after the
    program name are the URLs, in order, followed by the output file if
    there is one.  There is at least one URL; an output file ends in
    [.json]; and a single argument is a URL even if it ends in [.json]. *)
Theorem parse_args_keeps_arguments (argv urls : list str) (out : option str) :
  parse_args argv = Some (urls, out) ->
  urls <> []
  /\ tl argv = urls ++ match out with Some f => [f] | None => [] end
  /\ (forall f, out = Some f -> endswith f (lit ".json") = true)
  /\ (length argv = 2%nat -> out = None).
Proof.
  unfold parse_args.
  destruct (Nat.ltb_spec (length argv) 2) as [| Hlen]; [discriminate |].
  destruct argv as [| prog rest]; [cbn in Hlen; lia |]. cbn [tl length] in *.
  destruct (Nat.ltb_spec 1 (length rest)) as [Hmany | Hone]; cbn [andb].
  - destruct (endswith (last rest []) (lit ".json")) eqn:Hjson; intros [= <- <-].
    + assert (Hne : rest <> [])
        by (destruct rest; [cbn in Hmany; lia | discriminate]).
      split; [| split; [| split]].
      * destruct rest as [| a [| b rest]]; cbn in Hmany; try lia. discriminate.
      * now apply app_removelast_last.
      * now intros f [= <-].
      * lia.
    + split; [destruct rest; [cbn in Hmany; lia | discriminate] |].
      split; [now rewrite app_nil_r |]. split; [discriminate | reflexivity].
  - intros [= <- <-].
    split; [destruct rest; [cbn in Hlen; lia | discriminate] |].
    split; [now rewrite app_nil_r |]. split; [discriminate | reflexivity].
Qed.

Lemma analyzed_urls_app (l1 l2 : list event) :
  analyzed_urls (l1 ++ l2) = analyzed_urls l1 ++ analyzed_urls l2.
Proof. apply flat_map_app. Qed.

Lemma written_paths_app (l1 l2 : list event) :
  written_paths (l1 ++ l2) = written_paths l1 ++ written_paths l2.
Proof. apply flat_map_app. Qed.

Section Files.

Variable is_absolute : str -> bool.
Variable path_name : str -> str.
Variable W : Type.
Variable ainvoke : Graph.AgentState -> W -> result Graph.AgentState * W.
Variable write_report : str -> CompetitorProduct -> W -> result unit * W.
Variable print_out : W -> result unit * W.
Variable print_err : W -> result unit * W.

Local Abbreviation analyze :=
  (analyze_competitor is_absolute path_name ainvoke write_report
     print_out print_err).
Local Abbreviation all :=
  (analyze_all is_absolute path_name ainvoke write_report print_out print_err).
Local Abbreviation path_of := (save_path is_absolute path_name).

(** One step of a run of [analyze_competitor]: the outcome of the next
    call on the world is named. *)
Ltac run_call :=
  match goal with
  | |- context [print_out ?w] => destruct (print_out w) as [[[] | ?] ?]
  | |- context [ainvoke ?s ?w] => destruct (ainvoke s w) as [[? | ?] ?]
  | |- context [write_report ?f ?p ?w] =>
      destruct (write_report f p w) as [[[] | ?] ?]
  | |- context [print_err ?w] => destruct (print_err w) as [[[] | ?] ?]
  | |- context [Graph.truthy ?x] => destruct (Graph.truthy x)
  | |- context [match Graph.product ?x with Some _ => _ | None => _ end] =>
      destruct (Graph.product x)
  end;
  cbn [fst snd app analyzed_urls written_paths flat_map In].

(** One analysis: what it did, by its outcome. *)
Lemma analyze_events (url : str) (out : option str) (w : W) :
  ~ In CleanedUp (fst (fst (analyze url out w)))
  /\ (forall path,
         In path (written_paths (fst (fst (analyze url out w)))) ->
         exists p, path = path_of out p)
  /\ (analyzed_urls (fst (fst (analyze url out w))) = [url]
      \/ (analyzed_urls (fst (fst (analyze url out w))) = []
          /\ exists e, snd (fst (analyze url out w)) = Raise e))
  /\ (forall o,
         snd (fst (analyze url out w)) = Ok o ->
         analyzed_urls (fst (fst (analyze url out w))) = [url])
  /\ (forall p,
         snd (fst (analyze url out w)) = Ok (Some p) ->
         In (Wrote (path_of out p) true) (fst (fst (analyze url out w)))).
Proof.
  unfold analyze_competitor, bind, try_except, call, emit, ret, save_report.
  repeat run_call.
  all: (split; [intuition discriminate |]);
    (split; [intros path Hin; intuition (subst; eauto) |]);
    (split; [first [ left; reflexivity
                   | right; split; [reflexivity | eexists; reflexivity] ] |]);
    (split; [intros o Ho; first [reflexivity | discriminate Ho] |]);
    intros p Hp; first [discriminate Hp | injection Hp as <-; auto].
Qed.

Lemma analyze_all_events
    (separate : bool) (urls : list str) (out : option str) (w : W) :
  ~ In CleanedUp (fst (fst (all separate urls out w)))
  /\ (forall path,
         In path (written_paths (fst (fst (all separate urls out w)))) ->
         exists p, path = path_of out p)
  /\ (exists rest,
         urls = analyzed_urls (fst (fst (all separate urls out w))) ++ rest)
  /\ (forall results,
         snd (fst (all separate urls out w)) = Ok results ->
         analyzed_urls (fst (fst (all separate urls out w))) = urls
         /\ (length results <= length urls)%nat
         /\ forall p,
              In p results ->
              In (Wrote (path_of out p) true)
                (fst (fst (all separate urls out w)))).
Proof.
  revert w. induction urls as [| url rest IH]; intros w; cbn [analyze_all].
  - cbn. split; [tauto |]. split; [intros ? []|]. split; [now exists [] |].
    intros results [= <-]. cbn. repeat split; [lia | tauto].
  - destruct (analyze_events url out w) as (Hc & Hp & Hu & Hok & Hw).
    unfold bind.
    destruct (analyze url out w) as [[events1 [product | e]] w1];
      cbn [fst snd] in *.
    2:{ split; [exact Hc |]. split; [exact Hp |]. split; [| discriminate].
        destruct Hu as [Hu | [Hu _]]; rewrite Hu;
          [now exists rest | now exists (url :: rest)]. }
    specialize (Hok product eq_refl).
    assert (Hsep : exists w2,
               (exists e,
                   (if separate then call print_out else ret (W:=W) tt) w1
                   = ([], Raise e, w2))
               \/ (if separate then call print_out else ret (W:=W) tt) w1
                  = ([], Ok tt, w2)).
    { destruct separate; unfold call, ret.
      - destruct (print_out w1) as [[[] | e] w2]; exists w2; eauto.
      - exists w1. now right. }
    destruct Hsep as (w2 & [(e & Hsep) | Hsep]);
      rewrite Hsep; cbn [fst snd app].
    { rewrite app_nil_r. split; [exact Hc |]. split; [exact Hp |].
      split; [| discriminate]. rewrite Hok. now exists rest. }
    destruct (IH w2) as (IHc & IHp & IHu & IHok).
    unfold ret.
    destruct (all separate rest out w2) as [[events2 [results | e]] w3];
      cbn [fst snd app] in *; rewrite ?app_nil_r.
    + destruct (IHok results eq_refl) as (IHa & IHl & IHw).
      rewrite analyzed_urls_app, written_paths_app, Hok, IHa. cbn [app].
      split; [rewrite in_app_iff; tauto |].
      split; [intros path Hin; apply in_app_or in Hin; destruct Hin; auto |].
      split; [exists []; now rewrite app_nil_r |].
      intros results' [= <-].
      split; [reflexivity |].
      split; [destruct product; cbn [length]; lia |].
      intros p Hin. rewrite in_app_iff.
      destruct product as [p1 |].
      * destruct Hin as [<- | Hin]; [left; now apply Hw | right; auto].
      * right; auto.
    + rewrite analyzed_urls_app, written_paths_app, Hok. cbn [app].
      split; [rewrite in_app_iff; tauto |].
      split; [intros path Hin; apply in_app_or in Hin; destruct Hin; auto |].
      split; [| discriminate].
      destruct IHu as [rest' Hrest]. exists rest'. f_equal. exact Hrest.
Qed.

(** X27.  A run of the command line that does not stop at the usage
    message cleans up exactly once, as the last thing it does, whether
    it returns or a failing [print] ends it.  The URLs it analysed are
    the first of the URLs given, each once and in order.  If the run
    returns, it analysed every URL, it reports at most one product per
    URL, and each product it reports was written to its file. *)
Theorem main_cleans_up_after_the_analyses
    (argv : list str) (w w' : W) (events : list event)
    (outcome : result (list CompetitorProduct)) :
  _main_async is_absolute path_name ainvoke write_report print_out print_err
    argv w
  = Some (events, outcome, w') ->
  exists urls out before,
    parse_args argv = Some (urls, out)
    /\ events = before ++ [CleanedUp]
    /\ ~ In CleanedUp before
    /\ (exists rest, urls = analyzed_urls before ++ rest)
    /\ (forall results,
           outcome = Ok results ->
           analyzed_urls before = urls
           /\ (length results <= length urls)%nat
           /\ forall p, In p results -> In (Wrote (path_of out p) true) before).
Proof.
  unfold _main_async. destruct (parse_args argv) as [[urls out] |]; [| discriminate].
  destruct (analyze_all_events (1 <? length urls)%nat urls out w)
    as (Hc & _ & Hu & Hok).
  unfold try_finally, emit, bind.
  destruct (all (1 <? length urls)%nat urls out w) as [[evs [res | e]] w1];
    cbn [fst snd] in *.
  - assert (Hlast : exists w2,
               (exists e,
                   (if (1 <? length res)%nat then call print_out
                    else ret (W:=W) tt) w1 = ([], Raise e, w2))
               \/ (if (1 <? length res)%nat then call print_out
                   else ret (W:=W) tt) w1 = ([], Ok tt, w2)).
    { destruct (1 <? length res)%nat; unfold call, ret.
      - destruct (print_out w1) as [[[] | e] w2]; exists w2; eauto.
      - exists w1. now right. }
    destruct Hlast as (w2 & [(e & Hlast) | Hlast]);
      rewrite Hlast; unfold ret; cbn [fst snd app]; rewrite ?app_nil_r;
      intros [= <- <- <-]; exists urls, out, evs;
      (split; [reflexivity |]); (split; [reflexivity |]);
      (split; [exact Hc |]); (split; [exact Hu |]).
    + discriminate.
    + intros results [= <-]. now apply Hok.
  - intros [= <- <- <-]. exists urls, out, evs.
    split; [reflexivity |]. split; [reflexivity |]. split; [exact Hc |].
    split; [exact Hu | discriminate].
Qed.

(** X28.  With an output file, every report of a batch goes to one and
    the same path: the file itself if its path is absolute, else the file
    of that name under [reports/].  The products of a batch overwrite
    each other. *)
Theorem batch_reports_share_one_path
    (separate : bool) (urls : list str) (c : char) (f : str) (w : W)
    (path : str) :
  In path (written_paths (fst (fst (all separate urls (Some (c :: f)) w)))) ->
  path = if is_absolute (c :: f) then c :: f
         else lit "reports/" ++ path_name (c :: f).
Proof.
  intros Hin.
  destruct (analyze_all_events separate urls (Some (c :: f)) w) as (_ & Hp & _).
  destruct (Hp path Hin) as [p ->]. unfold save_path. cbn [Graph.truthy negb].
  now destruct (is_absolute (c :: f)).
Qed.

End Files.

Import MoreSamples.

Lemma parse_args_keeps_arguments_witness :
  parse_args [lit "competitor-hunter"; pricing_url; Samples.example_url;
              lit "out.json"]
  = Some ([pricing_url; Samples.example_url], Some (lit "out.json"))
  /\ endswith (lit "out.json") (lit ".json") = true.
Proof.
  assert (H : parse_args [lit "competitor-hunter"; pricing_url;
                          Samples.example_url; lit "out.json"]
              = Some ([pricing_url; Samples.example_url], Some (lit "out.json")))
    by reflexivity.
  split; [exact H |].
  destruct (parse_args_keeps_arguments _ H) as (_ & _ & Hjson & _).
  now apply Hjson.
Defined.

Lemma main_cleans_up_after_the_analyses_witness :
  exists before,
    fst (fst (analyze_all posix_is_absolute plain_name done_workflow disk
                closed_pipe terminal true
                [pricing_url; Samples.example_url] None 0%nat))
    ++ [CleanedUp]
    = before ++ [CleanedUp]
    /\ ~ In CleanedUp before
    /\ exists rest,
         [pricing_url; Samples.example_url] = analyzed_urls before ++ rest.
Proof.
  destruct (@main_cleans_up_after_the_analyses
              posix_is_absolute plain_name nat done_workflow disk
              closed_pipe terminal
              [lit "competitor-hunter"; pricing_url; Samples.example_url]
              0%nat _ _ _ eq_refl)
    as (urls & out & before & Hparse & Hev & Hclean & Hurls & _).
  injection Hparse as <- <-.
  exists before. split; [exact Hev |]. split; [exact Hclean | exact Hurls].
Defined.

(** On a terminal both pages are analysed and reported. *)
Example batch_on_a_terminal :
  option_map (fun r => (analyzed_urls (fst (fst r)), snd (fst r)))
    (_main_async posix_is_absolute plain_name done_workflow disk
       terminal terminal
       [lit "competitor-hunter"; pricing_url; Samples.example_url] 0%nat)
  = Some ([pricing_url; Samples.example_url],
          Ok [Models.set_url Samples.echo_product pricing_url;
              Models.set_url Samples.echo_product Samples.example_url]).
Proof. vm_compute. reflexivity. Qed.

(** When standard output breaks during the first analysis, its report is
    written but the product is not returned, the separator line raises,
    the second page is never analysed, and the run still cleans up. *)
Example batch_on_a_closed_pipe :
  option_map (fun r => (fst (fst r), snd (fst r)))
    (_main_async posix_is_absolute plain_name done_workflow disk
       closed_pipe terminal
       [lit "competitor-hunter"; pricing_url; Samples.example_url] 0%nat)
  = Some ([Analyzed pricing_url;
           Wrote (lit "reports/product_Test_Product.json") true;
           CleanedUp],
          Raise (boom "[Errno 32] Broken pipe")).
Proof. vm_compute. reflexivity. Qed.

Lemma batch_reports_share_one_path_witness :
  written_paths
    (fst (fst (analyze_all posix_is_absolute plain_name done_workflow disk
                 terminal terminal true
                 [pricing_url; Samples.example_url] (Some (lit "out.json"))
                 0%nat)))
  = [lit "reports/out.json"; lit "reports/out.json"]
  /\ lit "reports/out.json"
     = (if posix_is_absolute (lit "out.json") then lit "out.json"
        else lit "reports/" ++ plain_name (lit "out.json")).
Proof.
  split; [reflexivity |].
  apply (@batch_reports_share_one_path posix_is_absolute plain_name nat
           done_workflow disk terminal terminal true
           [pricing_url; Samples.example_url]
           111%N (lit "ut.json") 0%nat).
  cbn. now left.
Defined.

End CliSpec.
